(** * Hevy Insights: CSV ingestion and analytics

    A shallow embedding of [frontend/src/utils/csvParser.ts] and
    [frontend/src/utils/csvCalculator.ts], with the part of the upload handler
    of [frontend/src/views/Login.vue] that calls them.  The repository also
    holds an earlier revision of the two utilities (a detector on the 1RM
    alone, a muscle distribution that falls back on the workout title, a
    validation without header checks); the embedding follows the current one.

    Conventions of the embedding.
    - A JavaScript string is a [string] of bytes (UTF-8); the operations used
      by the code ([includes], [replace], [split], [endsWith]) are byte-wise,
      which agrees with the code-unit operations on well-formed text.
      [trim] and [toLowerCase] treat the ASCII range; other bytes are kept.
    - A JavaScript number is a [number]: an exact rational or [NaN], for
      the double nearest to it.  [CsvParser] and [CsvCalculator] compute with
      the rationals; [Binary64] gives the record detector and the total
      volume, whose results depend on the rounding, on doubles.
    - [null] and [undefined] are [None].
    - [Date.now()] reads a clock; the k-th reading of a run is [clock k], and
      the functions that read it thread the number of readings made so far.
      [new Date(s)] on a string and the local time zone are the engine's and
      the host's, and are parameters.
    - A number inside a template literal is printed by stdpp's [pretty].
    - A thrown [Error] is the left injection, carrying the message. *)

From Stdlib Require Import ZArith QArith Qround List String Ascii Lia Bool.
From Stdlib Require Import Sorting.Sorted Sorting.Permutation.
From Stdlib Require SpecFloat.
From stdpp Require Import base option gmap strings pretty.

Import ListNotations.
Local Open Scope Z_scope.

(** ** The JavaScript runtime the code relies on *)

Module JS.

(** *** Characters and strings *)

Definition dquote : ascii := Ascii.ascii_of_nat 34.
Definition comma : ascii := Ascii.ascii_of_nat 44.
Definition newline : ascii := Ascii.ascii_of_nat 10.

Definition code (c : ascii) : Z := Z.of_nat (Ascii.nat_of_ascii c).

(** White space removed by [trim] and skipped by [parseFloat]/[parseInt]:
    TAB, LF, VT, FF, CR and SPACE. *)
Definition isWhite (c : ascii) : bool :=
  let n := code c in ((9 <=? n) && (n <=? 13)) || (n =? 32).

Fixpoint trimStart (s : string) : string :=
  match s with
  | EmptyString => EmptyString
  | String c s' => if isWhite c then trimStart s' else s
  end.

Fixpoint trimEnd (s : string) : string :=
  match s with
  | EmptyString => EmptyString
  | String c s' =>
      match trimEnd s' with
      | EmptyString => if isWhite c then EmptyString else String c EmptyString
      | t => String c t
      end
  end.

Definition trim (s : string) : string := trimEnd (trimStart s).

Definition lowerChar (c : ascii) : ascii :=
  let n := code c in
  if (65 <=? n) && (n <=? 90) then Ascii.ascii_of_nat (Z.to_nat (n + 32)) else c.

Fixpoint toLowerCase (s : string) : string :=
  match s with
  | EmptyString => EmptyString
  | String c s' => String (lowerChar c) (toLowerCase s')
  end.

Fixpoint startsWith (s p : string) : bool :=
  match p, s with
  | EmptyString, _ => true
  | String _ _, EmptyString => false
  | String a p', String b s' => if Ascii.eqb a b then startsWith s' p' else false
  end.

Fixpoint drop (n : nat) (s : string) : string :=
  match n, s with
  | O, _ => s
  | S _, EmptyString => EmptyString
  | S n', String _ s' => drop n' s'
  end.

Fixpoint take (n : nat) (s : string) : string :=
  match n, s with
  | O, _ => EmptyString
  | S _, EmptyString => EmptyString
  | S n', String c s' => String c (take n' s')
  end.

(** [s.includes(p)] *)
Fixpoint includes (s p : string) : bool :=
  match s with
  | EmptyString => startsWith EmptyString p
  | String _ s' => startsWith s p || includes s' p
  end.

(** [s.replace(p, r)] for a string pattern: the first occurrence only.  The
    replacements used by the code contain no [$]. *)
Fixpoint replace (s p r : string) : string :=
  match s with
  | EmptyString => if startsWith EmptyString p then r else EmptyString
  | String c s' =>
      if startsWith s p then r +:+ drop (String.length p) s
      else String c (replace s' p r)
  end.

(** [s.indexOf(p)]: where [p] first occurs in [s]. *)
Fixpoint indexOf (s p : string) : option nat :=
  match s with
  | EmptyString => if startsWith EmptyString p then Some O else None
  | String _ s' => if startsWith s p then Some O else option_map S (indexOf s' p)
  end.

Definition endsWith (s p : string) : bool :=
  startsWith (drop (String.length s - String.length p)%nat s) p
  && (String.length p <=? String.length s)%nat.

(** [s.split(sep)] for a one-character separator; never the empty list. *)
Fixpoint split (sep : ascii) (s : string) : list string :=
  match s with
  | EmptyString => [EmptyString]
  | String c s' =>
      if Ascii.eqb c sep then EmptyString :: split sep s'
      else match split sep s' with
           | [] => [String c EmptyString]
           | h :: t => String c h :: t
           end
  end.

(** A string is truthy when it is not empty; [undefined] is falsy. *)
Definition truthy (v : option string) : bool :=
  match v with
  | Some (String _ _) => true
  | _ => false
  end.

(** [`${v}`] *)
Definition show (v : option string) : string :=
  match v with
  | Some s => s
  | None => "undefined"
  end.

(** *** Numbers *)

Inductive number : Type :=
| Num (q : Q)
| NaN.

(** [x || 0]: [null], [undefined], [NaN] and [0] are falsy. *)
Definition orZero (x : option number) : Q :=
  match x with
  | Some (Num q) => q
  | _ => 0%Q
  end.

(** Truthiness of a nullable number, as in [weight && reps]. *)
Definition truthyNum (x : option number) : bool :=
  match x with
  | Some (Num q) => negb (Qeq_bool q 0)
  | _ => false
  end.

Definition Qgtb (a b : Q) : bool := negb (Qle_bool a b).

(** [Math.round]: the nearest integer, halves towards plus infinity. *)
Definition round (q : Q) : Z := Qfloor (q + (1 # 2))%Q.

Definition digitVal (c : ascii) : option Z :=
  let n := code c in
  if (48 <=? n) && (n <=? 57) then Some (n - 48) else None.

Definition hexVal (c : ascii) : option Z :=
  let n := code c in
  if (48 <=? n) && (n <=? 57) then Some (n - 48)
  else if (97 <=? n) && (n <=? 102) then Some (n - 87)
  else if (65 <=? n) && (n <=? 70) then Some (n - 55)
  else None.

(** The longest prefix of digits in base [radix]: its value, its length and
    what follows it. *)
Fixpoint scanDigits (val : ascii -> option Z) (radix : Z)
         (s : string) (acc : Z) (n : nat) : Z * nat * string :=
  match s with
  | EmptyString => (acc, n, s)
  | String c s' =>
      match val c with
      | Some d => scanDigits val radix s' (radix * acc + d) (S n)
      | None => (acc, n, s)
      end
  end.

Definition scanSign (s : string) : bool * string :=
  match s with
  | String c s' =>
      if Ascii.eqb c "-" then (true, s')
      else if Ascii.eqb c "+" then (false, s')
      else (false, s)
  | EmptyString => (false, s)
  end.

Definition isE (c : ascii) : bool := Ascii.eqb c "e" || Ascii.eqb c "E".

(** The exponent part of a decimal literal, 0 when there is none. *)
Definition scanExponent (s : string) : Z :=
  match s with
  | String c s' =>
      if isE c then
        let '(neg, s'') := scanSign s' in
        let '(e, n, _) := scanDigits digitVal 10 s'' 0 O in
        match n with
        | O => 0
        | S _ => if neg then - e else e
        end
      else 0
  | EmptyString => 0
  end.

(** [parseFloat]: leading white space is skipped and the longest prefix that
    is a decimal literal is read; [NaN] when there is none.  The literal
    [Infinity] denotes no rational number and is not read: the statements
    about [parseFloat] leave out the strings that [infinityLiteral] marks. *)
Definition parseFloat (input : string) : number :=
  let '(neg, s) := scanSign (trimStart input) in
  let '(ip, ni, s1) := scanDigits digitVal 10 s 0 O in
  let '(fp, nf, s2) :=
    match s1 with
    | String c s' => if Ascii.eqb c "." then scanDigits digitVal 10 s' 0 O
                     else (0, O, s1)
    | EmptyString => (0, O, s1)
    end in
  match ni, nf with
  | O, O => NaN
  | _, _ =>
      let m := (inject_Z ip + inject_Z fp / inject_Z (10 ^ Z.of_nat nf))%Q in
      let v := (m * Qpower (inject_Z 10) (scanExponent s2))%Q in
      Num (Qred (if neg then - v else v))
  end.

(** [parseInt] without a radix: base 16 after [0x] or [0X], else base 10. *)
Definition parseInt (input : string) : number :=
  let '(neg, s) := scanSign (trimStart input) in
  let '(v, n, _) :=
    if startsWith s "0x" || startsWith s "0X"
    then scanDigits hexVal 16 (drop 2 s) 0 O
    else scanDigits digitVal 10 s 0 O in
  match n with
  | O => NaN
  | S _ => Num (inject_Z (if neg then - v else v))
  end.

(** The strings that JavaScript's [parseFloat] reads as an infinity. *)
Definition infinityLiteral (input : string) : bool :=
  startsWith (snd (scanSign (trimStart input))) "Infinity".

(** A string without a decimal digit: but for the infinities, it has no
    numeric reading. *)
Fixpoint noDigit (s : string) : bool :=
  match s with
  | EmptyString => true
  | String c s' =>
      match digitVal c with
      | Some _ => false
      | None => noDigit s'
      end
  end.

(** *** Dates *)

(** Year, month and day of the proleptic Gregorian calendar for a number of
    days since 1970-01-01. *)
Definition civil (days : Z) : Z * Z * Z :=
  let z := days + 719468 in
  let era := z / 146097 in
  let doe := z - era * 146097 in
  let yoe := (doe - doe / 1460 + doe / 36524 - doe / 146096) / 365 in
  let doy := doe - (365 * yoe + yoe / 4 - yoe / 100) in
  let mp := (5 * doy + 2) / 153 in
  let d := doy - (153 * mp + 2) / 5 + 1 in
  let m := if mp <? 10 then mp + 3 else mp - 9 in
  let y := yoe + era * 400 + (if m <=? 2 then 1 else 0) in
  (y, m, d).

Fixpoint zeros (n : nat) : string :=
  match n with
  | O => EmptyString
  | S n' => String "0" (zeros n')
  end.

(** A natural number in decimal, padded with zeros to [w] digits. *)
Definition pad (w : nat) (n : Z) : string :=
  let s := pretty (Z.to_N n) in
  zeros (w - String.length s) +:+ s.

Definition isoYear (y : Z) : string :=
  if (0 <=? y) && (y <=? 9999) then pad 4 y
  else (if y <? 0 then "-" else "+") +:+ pad 6 (Z.abs y).

(** The largest time value of a [Date], in milliseconds. *)
Definition maxTime : Z := 8640000000000000.

(** [new Date(ms).toISOString().split("T")[0]]: the UTC calendar date.
    [toISOString] throws a RangeError on an invalid date: [None]. *)
Definition isoDate (ms : Z) : option string :=
  if Z.abs ms <=? maxTime then
    let '(y, m, d) := civil (ms / 86400000) in
    Some (isoYear y +:+ "-" +:+ pad 2 m +:+ "-" +:+ pad 2 d)
  else None.

(** *** Arrays and maps *)

(** [Array.prototype.sort] with a consistent comparator: a stable sort.
    [le a b] says that the comparator does not put [b] before [a]. *)
Fixpoint insertBy {A} (le : A -> A -> bool) (x : A) (l : list A) : list A :=
  match l with
  | [] => [x]
  | y :: t => if le x y then x :: y :: t else y :: insertBy le x t
  end.

Definition sortBy {A} (le : A -> A -> bool) (l : list A) : list A :=
  fold_right (insertBy le) [] l.

(** A [Map] with string keys, in insertion order. *)
Definition Map (V : Type) : Type := list (string * V).

Fixpoint mapGet {V} (m : Map V) (k : string) : option V :=
  match m with
  | [] => None
  | (k', v) :: m' => if String.eqb k' k then Some v else mapGet m' k
  end.

Definition mapHas {V} (m : Map V) (k : string) : bool :=
  match mapGet m k with
  | Some _ => true
  | None => false
  end.

(** [m.set(k, v)]: a present key keeps its place, a new one goes last. *)
Fixpoint mapSet {V} (m : Map V) (k : string) (v : V) : Map V :=
  match m with
  | [] => [(k, v)]
  | (k', v') :: m' =>
      if String.eqb k' k then (k', v) :: m' else (k', v') :: mapSet m' k v
  end.

Definition mapKeys {V} (m : Map V) : list string := map fst m.
Definition mapValues {V} (m : Map V) : list V := map snd m.

End JS.

(** ** csvParser.ts *)

Module CsvParser.
Import JS.

Record ParsedSet : Type := {
  set_id : string;
  index : Q;
  set_type : option string;
  weight_kg : option number;
  reps : option number;
  distance_km : option number;
  duration_seconds : option number;
  rpe : option number
}.

Record ParsedExercise : Type := {
  exercise_id : string;
  exercise_title : string;
  superset_id : option string;
  notes : option string;
  sets : list ParsedSet;
  exercise_url : option string
}.

(** [start_time] and [end_time] are seconds since the epoch; [parseDate]
    makes them integers, and so are the ones of the live API. *)
Record ParsedWorkout : Type := {
  id : string;
  title : string;
  start_time : Z;
  end_time : option Z;
  description : option string;
  exercises : list ParsedExercise;
  estimated_volume_kg : option number
}.

(** The object [row] built from the header and the values of one line, as
    the list of its assignments in order. *)
Definition Row : Type := list (string * string).

(** [row.name]: the last assignment to [name] wins; [undefined] without. *)
Definition field (row : Row) (name : string) : option string :=
  fold_left (fun acc hv => if String.eqb (fst hv) name then Some (snd hv) else acc)
            row None.

(** [parseCSVLine]: the loop over the characters of the line, with the
    fields finished so far, the field being read and the quoting flag. *)
Fixpoint parseCSVLine_loop (line : string) (result : list string)
         (current : string) (inQuotes : bool) : list string :=
  match line with
  | EmptyString => result ++ [trim current]
  | String char rest =>
      if Ascii.eqb char dquote then
        match rest with
        | String nextChar rest' =>
            if Ascii.eqb nextChar dquote
            then parseCSVLine_loop rest' result (current +:+ String dquote EmptyString) inQuotes
            else parseCSVLine_loop rest result current (negb inQuotes)
        | EmptyString => parseCSVLine_loop rest result current (negb inQuotes)
        end
      else if Ascii.eqb char comma && negb inQuotes then
        parseCSVLine_loop rest (result ++ [trim current]) EmptyString inQuotes
      else
        parseCSVLine_loop rest result (current +:+ String char EmptyString) inQuotes
  end.

Definition parseCSVLine (line : string) : list string :=
  parseCSVLine_loop line [] EmptyString false.

Definition germanMonths : list (string * string) :=
  [("Jan", "Jan"); ("Feb", "Feb"); ("Mär", "Mar"); ("Mar", "Mar");
   ("Apr", "Apr"); ("Mai", "May"); ("Jun", "Jun"); ("Jul", "Jul");
   ("Aug", "Aug"); ("Sep", "Sep"); ("Okt", "Oct"); ("Nov", "Nov");
   ("Dez", "Dec")].

(** The loop of [parseDate] over [Object.entries(germanMonths)]: the first
    abbreviation found in the string is replaced, once. *)
Definition normalizeDate (dateString : string) : string :=
  match find (fun ge => includes dateString (fst ge)) germanMonths with
  | Some (german, english) => replace dateString german english
  | None => dateString
  end.

(** The keys that [Object.entries] yields before [key]. *)
Fixpoint keysBefore (table : list (string * string)) (key : string) : list string :=
  match table with
  | [] => []
  | (k, _) :: rest => if String.eqb k key then [] else k :: keysBefore rest key
  end.

(** The abbreviations the loop of [parseDate] tries before [german]. *)
Definition earlierMonths (german : string) : list string :=
  keysBefore germanMonths german.

(** [cleanString] *)
Definition cleanString (val : option string) : option string :=
  match val with
  | Some (String c s) =>
      let trimmed := trim (String c s) in
      if String.eqb trimmed EmptyString || String.eqb trimmed (String dquote EmptyString)
      then None else Some trimmed
  | _ => None
  end.

Definition orDefault (v : option string) (d : string) : string :=
  match v with
  | Some (String c s) => String c s
  | _ => d
  end.

Section Environment.

(** [clock k]: the k-th reading of [Date.now()], in milliseconds. *)
Variable clock : nat -> Z.

(** [dateParse s]: the time value of [new Date(s)] in milliseconds, [None]
    for an invalid date.  Which strings are dates is the engine's choice. *)
Variable dateParse : string -> option Z.

(** The body of the [try] block of [parseDate]: [dateString.includes]
    throws a TypeError when [dateString] is [undefined]. *)
Definition parseDate_try (dateString : option string) (k : nat)
  : (string + Z) * nat :=
  match dateString with
  | None => (inl "TypeError", k)
  | Some s =>
      match dateParse (normalizeDate s) with
      | None => (inr (clock k / 1000), S k)
      | Some ms => (inr (ms / 1000), k)
      end
  end.

(** [parseDate]: the [catch] clause turns every exception into the
    current instant. *)
Definition parseDate (dateString : option string) (k : nat) : Z * nat :=
  match parseDate_try dateString k with
  | (inr seconds, k') => (seconds, k')
  | (inl _, k') => (clock k' / 1000, S k')
  end.

Definition workoutKey (row : Row) : string :=
  show (field row "title") +:+ "_" +:+ show (field row "start_time").

(** Step 1 of the loop body: get or create the workout of the row. *)
Definition getOrCreateWorkout (row : Row) (workoutsMap : Map ParsedWorkout)
           (k : nat) : Map ParsedWorkout * nat :=
  let key := workoutKey row in
  if mapHas workoutsMap key then (workoutsMap, k)
  else
    let wid := "csv_" +:+ key +:+ "_" +:+ pretty (clock k) in
    let '(start, k1) := parseDate (field row "start_time") (S k) in
    let '(finish, k2) :=
      if truthy (field row "end_time")
      then let '(e, k') := parseDate (field row "end_time") k1 in (Some e, k')
      else (None, k1) in
    (mapSet workoutsMap key
       {| id := wid;
          title := orDefault (field row "title") "Unnamed Workout";
          start_time := start;
          end_time := finish;
          description := cleanString (field row "description");
          exercises := [];
          estimated_volume_kg := Some (Num 0) |},
     k2).

(** [ex.title === row.exercise_title] *)
Definition sameTitle (row : Row) (ex : ParsedExercise) : bool :=
  match field row "exercise_title" with
  | Some t => String.eqb (exercise_title ex) t
  | None => false
  end.

Definition newExercise (row : Row) (workout : ParsedWorkout) : ParsedExercise :=
  {| exercise_id := id workout +:+ "_ex_" +:+ pretty (List.length (exercises workout))
                    +:+ "_" +:+ show (field row "exercise_title");
     exercise_title := orDefault (field row "exercise_title") "Unknown Exercise";
     superset_id := cleanString (field row "superset_id");
     notes := cleanString (field row "exercise_notes");
     sets := [];
     exercise_url := None |}.

Definition pushSet (s : ParsedSet) (ex : ParsedExercise) : ParsedExercise :=
  {| exercise_id := exercise_id ex; exercise_title := exercise_title ex;
     superset_id := superset_id ex; notes := notes ex;
     sets := sets ex ++ [s]; exercise_url := exercise_url ex |}.

(** [exercise.sets.push(set)] on the first exercise that [find] returns;
    [None] when [find] returns [undefined]. *)
Fixpoint pushToFound (row : Row) (s : ParsedSet) (exs : list ParsedExercise)
  : option (list ParsedExercise) :=
  match exs with
  | [] => None
  | ex :: rest =>
      if sameTitle row ex then Some (pushSet s ex :: rest)
      else match pushToFound row s rest with
           | Some rest' => Some (ex :: rest')
           | None => None
           end
  end.

(** [row.x ? parse(row.x) : null] *)
Definition numericField (parse : string -> number) (v : option string)
  : option number :=
  match v with
  | Some (String c s) => Some (parse (String c s))
  | _ => None
  end.

(** Step 3 of the loop body: the set of the row on line [i]. *)
Definition buildSet (row : Row) (i : nat) (k : nat) : ParsedSet :=
  {| set_id := "csv_set_" +:+ show (field row "set_index") +:+ "_"
               +:+ pretty (clock k) +:+ "_" +:+ pretty i;
     index := orZero (Some (parseInt (show (field row "set_index"))));
     set_type := if truthy (field row "set_type") then field row "set_type" else None;
     weight_kg := numericField parseFloat (field row "weight_kg");
     reps := numericField parseInt (field row "reps");
     distance_km := numericField parseFloat (field row "distance_km");
     duration_seconds := numericField parseInt (field row "duration_seconds");
     rpe := numericField parseFloat (field row "rpe") |}.

(** [weight * reps] is added to the running volume when both are truthy. *)
Definition addVolume (s : ParsedSet) (v : option number) : option number :=
  if truthyNum (weight_kg s) && truthyNum (reps s)
  then Some (Num (orZero v + orZero (weight_kg s) * orZero (reps s))%Q)
  else v.

Definition updateWorkout (row : Row) (s : ParsedSet) (w : ParsedWorkout)
  : ParsedWorkout :=
  let exs :=
    match pushToFound row s (exercises w) with
    | Some exs' => exs'
    | None => exercises w ++ [pushSet s (newExercise row w)]
    end in
  {| id := id w; title := title w; start_time := start_time w;
     end_time := end_time w; description := description w;
     exercises := exs;
     estimated_volume_kg := addVolume s (estimated_volume_kg w) |}.

(** The loop body for a row that passed the field-count check. *)
Definition processRow (row : Row) (i : nat) (st : Map ParsedWorkout * nat)
  : Map ParsedWorkout * nat :=
  let '(m, k) := getOrCreateWorkout row (fst st) (snd st) in
  match mapGet m (workoutKey row) with
  | Some workout =>
      (mapSet m (workoutKey row) (updateWorkout row (buildSet row i k) workout), S k)
  | None => (m, k)
  end.

(** One iteration of the loop over the lines. *)
Definition processLine (headers : list string) (i : nat) (line : string)
           (st : Map ParsedWorkout * nat) : Map ParsedWorkout * nat :=
  match trim line with
  | EmptyString => st
  | lineData =>
      let values := parseCSVLine lineData in
      if negb (List.length values =? List.length headers)%nat then st
      else processRow (combine headers values) i st
  end.

Fixpoint processLines (headers : list string) (i : nat) (lines : list string)
         (st : Map ParsedWorkout * nat) : Map ParsedWorkout * nat :=
  match lines with
  | [] => st
  | line :: rest => processLines headers (S i) rest (processLine headers i line st)
  end.

(** [b.start_time - a.start_time <= 0] *)
Definition newestFirst (a b : ParsedWorkout) : bool :=
  start_time b - start_time a <=? 0.

(** The map of workouts when the loop of [parseCSV] ends. *)
Definition buildMap (csvContent : string) : string + Map ParsedWorkout :=
  match split newline (trim csvContent) with
  | [] => inl "CSV file is empty"
  | EmptyString :: _ => inl "CSV header is missing"
  | headerLine :: rest =>
      inr (fst (processLines (parseCSVLine headerLine) 1 rest ([], O)))
  end.

Definition parseCSV (csvContent : string) : string + list ParsedWorkout :=
  match buildMap csvContent with
  | inl e => inl e
  | inr workoutsMap => inr (sortBy newestFirst (mapValues workoutsMap))
  end.

End Environment.

(** *** The rows and keys of a parse *)

(** The lines of the file that reach the loop body, with their line numbers:
    those that are not blank and have as many fields as the header. *)
Fixpoint validRows (headers : list string) (i : nat) (lines : list string)
  : list (nat * Row) :=
  match lines with
  | [] => []
  | line :: rest =>
      match trim line with
      | EmptyString => validRows headers (S i) rest
      | lineData =>
          let values := parseCSVLine lineData in
          if negb (List.length values =? List.length headers)%nat
          then validRows headers (S i) rest
          else (i, combine headers values) :: validRows headers (S i) rest
      end
  end.

(** The rows of a file, when it has a header. *)
Definition rowsOf (csvContent : string) : list (nat * Row) :=
  match split newline (trim csvContent) with
  | headerLine :: rest => validRows (parseCSVLine headerLine) 1 rest
  | [] => []
  end.

(** The line [parseCSV] takes for the header. *)
Definition headerLineOf (csvContent : string) : string :=
  match split newline (trim csvContent) with
  | headerLine :: _ => headerLine
  | [] => EmptyString
  end.

(** The keys seen so far, in the order of their first row. *)
Definition addKey (keys : list string) (key : string) : list string :=
  if existsb (String.eqb key) keys then keys else keys ++ [key].

Definition distinctKeys (rows : list (nat * Row)) : list string :=
  fold_left (fun keys r => addKey keys (workoutKey (snd r))) rows [].

(** *** Lines and quotes *)

(** The string holds white space only, so that [trim] empties it. *)
Fixpoint blank (s : string) : bool :=
  match s with
  | EmptyString => true
  | String c s' => isWhite c && blank s'
  end.

(** The string holds no double quote. *)
Fixpoint quoteFree (s : string) : bool :=
  match s with
  | EmptyString => true
  | String c s' => negb (Ascii.eqb c dquote) && quoteFree s'
  end.

(** The fields of an unquoted text that continues the field [current]: the
    pieces between its commas, trimmed. *)
Definition fieldsOf (current text : string) : list string :=
  match split comma text with
  | h :: t => trim (current +:+ h) :: map trim t
  | [] => []
  end.

Definition quoted (s : string) : string :=
  String dquote (s +:+ String dquote EmptyString).

(** *** File utilities *)

(** A [File]: its name, its size in bytes and the text a [FileReader]
    delivers, [None] when reading fails. *)
Record File : Type := {
  name : string;
  size : Z;
  text : option string
}.

Definition readCSVFile (file : File) : string + string :=
  match text file with
  | Some content => inr content
  | None => inl "Failed to read file"
  end.

Definition notCSVMessage : string := "File must be a CSV file".
Definition tooLargeMessage : string := "File size must be less than 10MB".
Definition unsupportedUnitMessage : string :=
  "CSV must use 'weight_kg' not 'weight_lbs'. Please export with metric units.".
Definition missingColumnMessage : string := "CSV must contain 'weight_kg' column.".

Definition firstLineOf (content : string) : string :=
  match split newline content with
  | l :: _ => toLowerCase l
  | [] => EmptyString
  end.

Definition validateCSVFile (file : File) : string + bool :=
  if negb (endsWith (toLowerCase (name file)) ".csv") then inl notCSVMessage
  else if size file >? 10 * 1024 * 1024 then inl tooLargeMessage
  else match readCSVFile file with
       | inl e => inl e
       | inr content =>
           let firstLine := firstLineOf content in
           if includes firstLine "weight_lbs" then inl unsupportedUnitMessage
           else if negb (includes firstLine "weight_kg") then inl missingColumnMessage
           else inr true
       end.

End CsvParser.

(** ** csvCalculator.ts *)

Module CsvCalculator.
Import JS CsvParser.

(** The calculator's [Workout], [Exercise] and [Set] interfaces have the
    fields of the parser's records, whose values it receives. *)
Abbreviation Workout := ParsedWorkout.
Abbreviation Exercise := ParsedExercise.
Abbreviation WorkoutSet := ParsedSet.

(** [(set.weight_kg || 0) * (set.reps || 0)] *)
Definition setVolume (s : WorkoutSet) : Q :=
  (orZero (weight_kg s) * orZero (reps s))%Q.

Definition exerciseVolume (ex : Exercise) : Q :=
  fold_left (fun setAcc s => (setAcc + setVolume s)%Q) (sets ex) 0%Q.

Definition workoutVolume (w : Workout) : Q :=
  fold_left (fun exAcc ex => (exAcc + exerciseVolume ex)%Q) (exercises w) 0%Q.

Definition calculateTotalVolume (workouts : list Workout) : Z :=
  round (fold_left (fun acc w => (acc + workoutVolume w)%Q) workouts 0%Q).

(** *** Muscle distribution *)

Definition muscleGroups0 : gmap string nat :=
  list_to_map [("chest", O); ("back", O); ("shoulders", O); ("biceps", O);
               ("triceps", O); ("legs", O); ("core", O)].

(** The table [exerciseToMuscle], in the order [Object.entries] yields. *)
Definition exerciseToMuscle : list (string * list string) :=
  [ ("bench press", ["chest"]); ("incline bench", ["chest"]);
    ("decline bench", ["chest"]); ("chest press", ["chest"]);
    ("chest fly", ["chest"]); ("pec deck", ["chest"]);
    ("push up", ["chest"; "triceps"]); ("dips", ["chest"; "triceps"]);
    ("deadlift", ["back"; "legs"]); ("pull up", ["back"; "biceps"]);
    ("chin up", ["back"; "biceps"]); ("lat pulldown", ["back"]);
    ("seated row", ["back"]); ("cable row", ["back"]);
    ("bent over row", ["back"]); ("barbell row", ["back"]);
    ("t-bar row", ["back"]);
    ("shoulder press", ["shoulders"]); ("overhead press", ["shoulders"]);
    ("military press", ["shoulders"]); ("lateral raise", ["shoulders"]);
    ("front raise", ["shoulders"]); ("rear delt", ["shoulders"]);
    ("shrug", ["shoulders"]);
    ("bicep curl", ["biceps"]); ("biceps curl", ["biceps"]);
    ("hammer curl", ["biceps"]); ("preacher curl", ["biceps"]);
    ("reverse curl", ["biceps"]);
    ("tricep extension", ["triceps"]); ("triceps extension", ["triceps"]);
    ("tricep pushdown", ["triceps"]); ("triceps pushdown", ["triceps"]);
    ("skull crusher", ["triceps"]); ("overhead extension", ["triceps"]);
    ("squat", ["legs"]); ("leg press", ["legs"]); ("leg extension", ["legs"]);
    ("leg curl", ["legs"]); ("lunge", ["legs"]); ("calf raise", ["legs"]);
    ("romanian deadlift", ["legs"; "back"]);
    ("plank", ["core"]); ("crunch", ["core"]); ("sit up", ["core"]);
    ("ab wheel", ["core"]); ("russian twist", ["core"]);
    ("hanging leg raise", ["core"]) ].

(** [if (muscleGroups[m] !== undefined) muscleGroups[m] += setCount] *)
Definition credit (setCount : nat) (muscleGroups : gmap string nat) (m : string)
  : gmap string nat :=
  match muscleGroups !! m with
  | Some n => <[m := (n + setCount)%nat]> muscleGroups
  | None => muscleGroups
  end.

(** The pattern at which the inner loop breaks. *)
Definition firstMatch (name : string) : option (string * list string) :=
  find (fun pm => includes name (fst pm)) exerciseToMuscle.

Definition addExercise (muscleGroups : gmap string nat) (ex : Exercise)
  : gmap string nat :=
  let name := toLowerCase (exercise_title ex) in
  let setCount := List.length (sets ex) in
  match firstMatch name with
  | Some (_, muscles) => fold_left (credit setCount) muscles muscleGroups
  | None => muscleGroups
  end.

Definition addWorkout (muscleGroups : gmap string nat) (w : Workout)
  : gmap string nat :=
  fold_left addExercise (exercises w) muscleGroups.

Definition calculateMuscleDistribution (workouts : list Workout)
  : gmap string nat :=
  fold_left addWorkout workouts muscleGroups0.

(** *** Personal records *)

Record PRs : Type := {
  max1RM : Q;
  maxWeight : Q;
  maxReps : Q
}.

Definition zeroPRs : PRs := {| max1RM := 0; maxWeight := 0; maxReps := 0 |}.

Definition set1RM (p : PRs) (v : Q) : PRs :=
  {| max1RM := v; maxWeight := maxWeight p; maxReps := maxReps p |}.
Definition setWeight (p : PRs) (v : Q) : PRs :=
  {| max1RM := max1RM p; maxWeight := v; maxReps := maxReps p |}.
Definition setReps (p : PRs) (v : Q) : PRs :=
  {| max1RM := max1RM p; maxWeight := maxWeight p; maxReps := v |}.

(** Epley: [weight * (1 + reps / 30)] *)
Definition estimated1RM (weight reps : Q) : Q :=
  (weight * (1 + reps / inject_Z 30))%Q.

(** The body of the loop over the sets of an exercise, the same in
    [calculatePRsOverTime] and [calculatePRsGrouped]: the maxima after the
    set and its [prCount]. *)
Definition checkSet (currentPRs : PRs) (s : WorkoutSet) : PRs * nat :=
  let weight := orZero (weight_kg s) in
  let reps := orZero (reps s) in
  if Qgtb weight 0 && Qgtb reps 0 then
    let '(p1, c1) :=
      if Qgtb (estimated1RM weight reps) (max1RM currentPRs)
      then (set1RM currentPRs (estimated1RM weight reps), 1%nat)
      else (currentPRs, O) in
    let '(p2, c2) :=
      if Qgtb weight (maxWeight p1) then (setWeight p1 weight, S c1) else (p1, c1) in
    if Qgtb reps (maxReps p2) then (setReps p2 reps, S c2) else (p2, c2)
  else if Qgtb reps 0 && Qeq_bool weight 0 then
    if Qgtb reps (maxReps currentPRs) then (setReps currentPRs reps, 1%nat)
    else (currentPRs, O)
  else (currentPRs, O).

Definition trackSets (currentPRs : PRs) (ss : list WorkoutSet) : PRs * nat :=
  fold_left (fun st s => let '(p, c) := checkSet (fst st) s in (p, (snd st + c)%nat))
            ss (currentPRs, O).

(** The body of the loop over the exercises of a workout: the map of maxima
    after the exercise and the PR events of its sets. *)
Definition trackExercise (exercisePRs : gmap string PRs) (ex : Exercise)
  : gmap string PRs * nat :=
  let exerciseKey := toLowerCase (exercise_title ex) in
  let exercisePRs1 :=
    match exercisePRs !! exerciseKey with
    | Some _ => exercisePRs
    | None => <[exerciseKey := zeroPRs]> exercisePRs
    end in
  let currentPRs := default zeroPRs (exercisePRs1 !! exerciseKey) in
  let '(p, n) := trackSets currentPRs (sets ex) in
  (<[exerciseKey := p]> exercisePRs1, n).

(** [prsInWorkout] and the map of maxima after a workout. *)
Definition trackWorkout (exercisePRs : gmap string PRs) (w : Workout)
  : gmap string PRs * nat :=
  fold_left (fun st ex => let '(m, n) := trackExercise (fst st) ex in
                          (m, (snd st + n)%nat))
            (exercises w) (exercisePRs, O).

(** [a.start_time - b.start_time <= 0] *)
Definition oldestFirst (a b : Workout) : bool :=
  start_time a - start_time b <=? 0.

Definition rangeError : string := "RangeError: Invalid time value".

(** [map.set(key, (map.get(key) || 0) + n)] when [n > 0] *)
Definition addPRs (byKey : Map nat) (key : string) (n : nat) : Map nat :=
  match n with
  | O => byKey
  | S _ =>
      mapSet byKey key (match mapGet byKey key with Some c => c | None => O end + n)%nat
  end.

(** The loop over the sorted workouts.  [keyOf] gives the date or period of
    a start time and fails where [toISOString] throws. *)
Fixpoint trackAll (keyOf : Z -> option string) (sorted : list Workout)
         (exercisePRs : gmap string PRs) (byKey : Map nat) : string + Map nat :=
  match sorted with
  | [] => inr byKey
  | w :: rest =>
      match keyOf (start_time w * 1000) with
      | None => inl rangeError
      | Some key =>
          let '(m, n) := trackWorkout exercisePRs w in
          trackAll keyOf rest m (addPRs byKey key n)
      end
  end.

(** [a.date.localeCompare(b.date) <= 0]; on the dates of the years 0000 to
    9999 the comparison is that of the digits, position by position. *)
Definition dateOrder (a b : string * nat) : bool := String.leb (fst a) (fst b).

Definition calculatePRsOverTime (workouts : list Workout)
  : string + list (string * nat) :=
  match trackAll isoDate (sortBy oldestFirst workouts) ∅ [] with
  | inl e => inl e
  | inr prsByDate => inr (sortBy dateOrder prsByDate)
  end.

Inductive GroupBy : Type := week | month.

Section LocalTime.

(** [startOfWeek(new Date(ms)).toISOString().slice(0, 10)]: the Monday of
    the week in the time zone of the host; [None] where it throws. *)
Variable weekStart : Z -> option string.

Definition periodKey (groupBy : GroupBy) (ms : Z) : option string :=
  match groupBy with
  | week => weekStart ms
  | month => option_map (take 7) (isoDate ms)
  end.

Definition calculatePRsGrouped (workouts : list Workout) (groupBy : GroupBy)
  : string + Map nat :=
  trackAll (periodKey groupBy) (sortBy oldestFirst workouts) ∅ [].

End LocalTime.

(** *** The total volume as the specification words it *)

(** A field holds a number when it is neither [null] nor [NaN]. *)
Definition present (x : option number) : option Q :=
  match x with
  | Some (Num q) => Some q
  | _ => None
  end.

Definition allSets (workouts : list Workout) : list WorkoutSet :=
  flat_map (fun w => flat_map sets (exercises w)) workouts.

(** The sum of [weight_kg * reps] over the sets where both are present. *)
Fixpoint sumPresent (ss : list WorkoutSet) : Q :=
  match ss with
  | [] => 0%Q
  | s :: rest =>
      match present (weight_kg s), present (reps s) with
      | Some w, Some r => (w * r + sumPresent rest)%Q
      | _, _ => sumPresent rest
      end
  end.

(** The sum of [f] over a list. *)
Definition Qsum {A} (f : A -> Q) (l : list A) : Q :=
  fold_right (fun x acc => (f x + acc)%Q) 0%Q l.

(** *** Averages, ranking and the statistics record *)

Definition calculateAvgVolume (workouts : list Workout) : Z :=
  match workouts with
  | [] => 0
  | _ :: _ =>
      round (inject_Z (calculateTotalVolume workouts)
             / inject_Z (Z.of_nat (List.length workouts)))%Q
  end.

(** The value of the map [stats] of [calculateTopExercises]. *)
Record ExerciseStat : Type := {
  stat_volume : Q;
  stat_sets : nat
}.

(** The body of the loop over the exercises in [calculateTopExercises];
    [stats.get(title) || { volume: 0, sets: 0 }] is the entry or zero. *)
Definition addStat (stats : Map ExerciseStat) (ex : Exercise) : Map ExerciseStat :=
  let volume := exerciseVolume ex in
  let current :=
    match mapGet stats (exercise_title ex) with
    | Some c => c
    | None => {| stat_volume := 0; stat_sets := O |}
    end in
  mapSet stats (exercise_title ex)
         {| stat_volume := (stat_volume current + volume)%Q;
            stat_sets := (stat_sets current + List.length (sets ex))%nat |}.

Definition collectStats (workouts : list Workout) : Map ExerciseStat :=
  fold_left (fun stats w => fold_left addStat (exercises w) stats) workouts [].

(** [b.volume - a.volume <= 0] *)
Definition byVolume (a b : string * ExerciseStat) : bool :=
  Qle_bool (stat_volume (snd b) - stat_volume (snd a)) 0.

(** [l.slice(0, limit)] for an integer [limit]: a negative one counts from
    the end. *)
Definition slice0 {A} (limit : Z) (l : list A) : list A :=
  let len := Z.of_nat (List.length l) in
  let stop := if limit <? 0 then Z.max (len + limit) 0 else Z.min limit len in
  firstn (Z.to_nat stop) l.

Definition calculateTopExercises (workouts : list Workout) (limit : Z)
  : list (string * ExerciseStat) :=
  slice0 limit (sortBy byVolume (collectStats workouts)).

Record CSVStats : Type := {
  totalVolume : Z;
  avgVolumePerWorkout : Z;
  totalWorkouts : nat;
  totalSets : nat;
  totalReps : Q;
  muscleDistribution : gmap string nat;
  prsOverTime : list (string * nat);
  topExercises : list (string * ExerciseStat)
}.

Definition countSets (workouts : list Workout) : nat :=
  fold_left (fun sum w =>
               (sum + fold_left (fun s e => (s + List.length (sets e))%nat)
                                (exercises w) O)%nat)
            workouts O.

Definition sumReps (workouts : list Workout) : Q :=
  fold_left (fun sum w =>
               (sum + fold_left (fun s e =>
                                   (s + fold_left (fun r st => r + orZero (reps st))
                                                  (sets e) 0)%Q)
                                (exercises w) 0)%Q)
            workouts 0%Q.

(** [calculateCSVStats]; the call of [calculatePRsOverTime] may throw. *)
Definition calculateCSVStats (workouts : list Workout) : string + CSVStats :=
  let sets := countSets workouts in
  let reps := sumReps workouts in
  match calculatePRsOverTime workouts with
  | inl e => inl e
  | inr prs =>
      inr {| totalVolume := calculateTotalVolume workouts;
             avgVolumePerWorkout := calculateAvgVolume workouts;
             totalWorkouts := List.length workouts;
             totalSets := sets;
             totalReps := reps;
             muscleDistribution := calculateMuscleDistribution workouts;
             prsOverTime := prs;
             topExercises := calculateTopExercises workouts 10 |}
  end.

(** *** Measures used to state properties *)

Definition allExercises (workouts : list Workout) : list Exercise :=
  flat_map exercises workouts.

(** The sets an exercise adds to the muscle group [m]. *)
Definition muscleShare (m : string) (ex : Exercise) : nat :=
  match firstMatch (toLowerCase (exercise_title ex)) with
  | Some (_, muscles) => if decide (m ∈ muscles) then List.length (sets ex) else O
  | None => O
  end.

Definition natSum {A} (f : A -> nat) (l : list A) : nat :=
  fold_right (fun x acc => (f x + acc)%nat) O l.

(** The sets of a workout, over all its exercises. *)
Definition setsIn (w : Workout) : nat :=
  List.length (flat_map sets (exercises w)).

(** The titles of the exercises of a workout other than the default one. *)
Definition namedTitles (w : Workout) : list string :=
  List.filter (fun t => negb (String.eqb t "Unknown Exercise"))
              (map exercise_title (exercises w)).

(** The PR events of a list of workouts taken in order, from the maxima
    [exercisePRs]. *)
Fixpoint countEvents (sorted : list Workout) (exercisePRs : gmap string PRs) : nat :=
  match sorted with
  | [] => O
  | w :: rest =>
      (snd (trackWorkout exercisePRs w)
       + countEvents rest (fst (trackWorkout exercisePRs w)))%nat
  end.



(** The entries of the map of counts: keys met once, counts positive, and
    keys that [keyOf] gave for a workout of the run. *)
Definition goodCounts (keyOf : Z -> option string) (ws : list Workout)
           (byKey : Map nat) : Prop :=
  NoDup (mapKeys byKey)
  /\ Forall (fun kc => (0 < snd kc)%nat
                       /\ exists w, In w ws /\ keyOf (start_time w * 1000) = Some (fst kc))
            byKey.

(** No maximum of [p] is above the one of [q]. *)
Definition below (p q : PRs) : Prop :=
  (max1RM p <= max1RM q)%Q /\ (maxWeight p <= maxWeight q)%Q /\ (maxReps p <= maxReps q)%Q.

(** The start time is one a [Date] can hold. *)
Definition inDateRange (w : Workout) : bool :=
  Z.abs (start_time w * 1000) <=? maxTime.

(** The start time lies in the years 0000 to 9999, whose dates
    [toISOString] writes with four digits: [localeCompare] orders those as
    [String.leb] does. *)
Definition fourDigitYear (w : Workout) : bool :=
  (-62167219200 <=? start_time w) && (start_time w <=? 253402300799).

End CsvCalculator.

(** ** csvCalculator.ts on doubles *)

(** A JavaScript number is an IEEE 754 double.  [CsvCalculator] computes
    with the exact rational a field stands for, which is the result of the
    engine wherever no operation rounds.  The record detector and the total
    volume depend on the rounding: this module gives them with the arithmetic
    of the engine, on [SpecFloat], the specification of IEEE 754 arithmetic,
    at the precision and exponent range of binary64.  A field [Num q] holds
    the double nearest to [q], as [parseFloat] and a numeric literal give
    it. *)

Module Binary64.
Import JS CsvParser CsvCalculator.

Definition double : Type := SpecFloat.spec_float.

Definition prec : Z := 53.
Definition emax : Z := 1024.

Definition zero : double := SpecFloat.S754_zero false.

Definition add : double -> double -> double := SpecFloat.SFadd prec emax.
Definition mul : double -> double -> double := SpecFloat.SFmul prec emax.
Definition div : double -> double -> double := SpecFloat.SFdiv prec emax.

(** [a > b] *)
Definition gt (a b : double) : bool := SpecFloat.SFltb b a.

(** [a === 0] *)
Definition isZero (a : double) : bool := SpecFloat.SFeqb a zero.

(** The double of an integer, rounded to nearest, ties to even. *)
Definition ofZ (z : Z) : double := SpecFloat.binary_normalize prec emax z 0 false.

(** The double nearest to a rational, ties to even. *)
Definition ofQ (q : Q) : double :=
  match Qnum q with
  | Z0 => zero
  | Zpos n =>
      div (SpecFloat.S754_finite false n 0) (SpecFloat.S754_finite false (Qden q) 0)
  | Zneg n =>
      div (SpecFloat.S754_finite true n 0) (SpecFloat.S754_finite false (Qden q) 0)
  end.

Definition toDouble (x : number) : double :=
  match x with
  | Num q => ofQ q
  | NaN => SpecFloat.S754_nan
  end.

(** The falsy numbers: [NaN], [0] and [-0]. *)
Definition falsy (a : double) : bool :=
  match a with
  | SpecFloat.S754_nan | SpecFloat.S754_zero _ => true
  | _ => false
  end.

(** [x || 0] *)
Definition orZero (x : option number) : double :=
  match x with
  | Some v => if falsy (toDouble v) then zero else toDouble v
  | None => zero
  end.

(** A field that [|| 0] replaces by 0: it is [null], [NaN], [0] or [-0]. *)
Definition absent (x : option number) : bool :=
  match x with
  | Some v => falsy (toDouble v)
  | None => true
  end.

(** The sum a [reduce] builds from 0, from left to right. *)
Definition reduceSum {A} (f : A -> double) (l : list A) : double :=
  fold_left (fun acc x => add acc (f x)) l zero.

(** The rational a finite double is; 0 for the others. *)
Definition exact (a : double) : Q :=
  match a with
  | SpecFloat.S754_finite s m e =>
      let z := if s then Z.neg m else Z.pos m in
      if 0 <=? e then inject_Z (z * 2 ^ e) else z # Z.to_pos (2 ^ (- e))
  | _ => 0%Q
  end.

(** [Math.round]: the nearest integer, halves towards plus infinity; a
    value between -0.5 and 0 gives -0. *)
Definition mathRound (a : double) : double :=
  match a with
  | SpecFloat.S754_finite s m e =>
      if 0 <=? e then a
      else
        let z := if s then Z.neg m else Z.pos m in
        let n := (2 * z + 2 ^ (- e)) / 2 ^ (1 - e) in
        if n =? 0 then SpecFloat.S754_zero s else ofZ n
  | _ => a
  end.

(** *** Total volume *)

(** [(set.weight_kg || 0) * (set.reps || 0)] *)
Definition setVolume (s : WorkoutSet) : double :=
  mul (orZero (weight_kg s)) (orZero (reps s)).

Definition exerciseVolume (ex : Exercise) : double :=
  fold_left (fun setAcc s => add setAcc (setVolume s)) (sets ex) zero.

Definition workoutVolume (w : Workout) : double :=
  fold_left (fun exAcc ex => add exAcc (exerciseVolume ex)) (exercises w) zero.

Definition calculateTotalVolume (workouts : list Workout) : double :=
  mathRound (fold_left (fun acc w => add acc (workoutVolume w)) workouts zero).

(** *** Personal records *)

Record PRs : Type := {
  max1RM : double;
  maxWeight : double;
  maxReps : double
}.

Definition zeroPRs : PRs := {| max1RM := zero; maxWeight := zero; maxReps := zero |}.

Definition set1RM (p : PRs) (v : double) : PRs :=
  {| max1RM := v; maxWeight := maxWeight p; maxReps := maxReps p |}.
Definition setWeight (p : PRs) (v : double) : PRs :=
  {| max1RM := max1RM p; maxWeight := v; maxReps := maxReps p |}.
Definition setReps (p : PRs) (v : double) : PRs :=
  {| max1RM := max1RM p; maxWeight := maxWeight p; maxReps := v |}.

(** Epley: [weight * (1 + reps / 30)] *)
Definition estimated1RM (weight reps : double) : double :=
  mul weight (add (ofZ 1) (div reps (ofZ 30))).

(** The body of the loop over the sets of an exercise, the same in
    [calculatePRsOverTime] and [calculatePRsGrouped]: the maxima after the
    set and its [prCount]. *)
Definition checkSet (currentPRs : PRs) (s : WorkoutSet) : PRs * nat :=
  let weight := orZero (weight_kg s) in
  let reps := orZero (reps s) in
  if gt weight zero && gt reps zero then
    let '(p1, c1) :=
      if gt (estimated1RM weight reps) (max1RM currentPRs)
      then (set1RM currentPRs (estimated1RM weight reps), 1%nat)
      else (currentPRs, O) in
    let '(p2, c2) :=
      if gt weight (maxWeight p1) then (setWeight p1 weight, S c1) else (p1, c1) in
    if gt reps (maxReps p2) then (setReps p2 reps, S c2) else (p2, c2)
  else if gt reps zero && isZero weight then
    if gt reps (maxReps currentPRs) then (setReps currentPRs reps, 1%nat)
    else (currentPRs, O)
  else (currentPRs, O).

Definition trackSets (currentPRs : PRs) (ss : list WorkoutSet) : PRs * nat :=
  fold_left (fun st s => let '(p, c) := checkSet (fst st) s in (p, (snd st + c)%nat))
            ss (currentPRs, O).

(** The maxima an exercise key stands at: its entry, or the zeros a first
    visit sets. *)
Definition currentOf (exercisePRs : gmap string PRs) (exerciseKey : string) : PRs :=
  default zeroPRs (exercisePRs !! exerciseKey).

Section Engine.

(** [String.prototype.toLowerCase], the engine's. *)
Variable toLowerCase : string -> string.

(** The body of the loop over the exercises of a workout: the map of maxima
    after the exercise and the PR events of its sets. *)
Definition trackExercise (exercisePRs : gmap string PRs) (ex : Exercise)
  : gmap string PRs * nat :=
  let exerciseKey := toLowerCase (exercise_title ex) in
  let exercisePRs1 :=
    match exercisePRs !! exerciseKey with
    | Some _ => exercisePRs
    | None => <[exerciseKey := zeroPRs]> exercisePRs
    end in
  let currentPRs := default zeroPRs (exercisePRs1 !! exerciseKey) in
  let '(p, n) := trackSets currentPRs (sets ex) in
  (<[exerciseKey := p]> exercisePRs1, n).

(** The loop over the exercises of a workout. *)
Definition trackExercises (exercisePRs : gmap string PRs) (exs : list Exercise)
  : gmap string PRs * nat :=
  fold_left (fun st ex => let '(m, n) := trackExercise (fst st) ex in
                          (m, (snd st + n)%nat))
            exs (exercisePRs, O).

(** [prsInWorkout] and the map of maxima after a workout. *)
Definition trackWorkout (exercisePRs : gmap string PRs) (w : Workout)
  : gmap string PRs * nat :=
  trackExercises exercisePRs (exercises w).

(** The loop over the sorted workouts.  [keyOf] gives the date or period of
    a start time and fails where [toISOString] throws. *)
Fixpoint trackAll (keyOf : Z -> option string) (sorted : list Workout)
         (exercisePRs : gmap string PRs) (byKey : Map nat) : string + Map nat :=
  match sorted with
  | [] => inr byKey
  | w :: rest =>
      match keyOf (start_time w * 1000) with
      | None => inl rangeError
      | Some key =>
          let '(m, n) := trackWorkout exercisePRs w in
          trackAll keyOf rest m (addPRs byKey key n)
      end
  end.

Definition calculatePRsOverTime (workouts : list Workout)
  : string + list (string * nat) :=
  match trackAll isoDate (sortBy oldestFirst workouts) ∅ [] with
  | inl e => inl e
  | inr prsByDate => inr (sortBy dateOrder prsByDate)
  end.

Definition calculatePRsGrouped (weekStart : Z -> option string)
           (workouts : list Workout) (groupBy : GroupBy) : string + Map nat :=
  trackAll (periodKey weekStart groupBy) (sortBy oldestFirst workouts) ∅ [].

(** The key of an exercise, and the sets filed under a key by a list of
    exercises, in their order. *)
Definition keyOfExercise (ex : Exercise) : string := toLowerCase (exercise_title ex).

Definition keySets (exerciseKey : string) (exs : list Exercise) : list WorkoutSet :=
  flat_map sets
           (List.filter (fun ex => String.eqb (keyOfExercise ex) exerciseKey) exs).

End Engine.

(** [v] if it strictly exceeds the maximum [m], else [m]. *)
Definition raised (v m : double) : double := if gt v m then v else m.



End Binary64.

(** ** Login.vue: the upload handler *)

Module Login.
Import JS CsvParser.

Inductive Outcome : Type :=
| Rejected (csvError : string)
| Loaded (workouts : list ParsedWorkout).

(** [message || fallback] *)
Definition messageOr (message fallback : string) : string :=
  match message with
  | EmptyString => fallback
  | _ => message
  end.

Section Handler.

(** The translation function of the view. *)
Variable t : string -> string.

(** [handleCSVUpload], with the parser it calls after validation as
    [parse]. *)
Definition handleCSVUploadWith (parse : string -> string + list ParsedWorkout)
           (csvFile : option File) : Outcome :=
  match csvFile with
  | None => Rejected (t "login.csv.errors.noFile")
  | Some file =>
      match validateCSVFile file with
      | inl message => Rejected (messageOr message (t "login.csv.errors.invalidFile"))
      | inr false => Rejected (t "login.csv.errors.invalidFile")
      | inr true =>
          match readCSVFile file with
          | inl message => Rejected (messageOr message (t "login.csv.errors.uploadFailed"))
          | inr content =>
              match parse content with
              | inl message =>
                  Rejected (messageOr message (t "login.csv.errors.uploadFailed"))
              | inr [] => Rejected (t "login.csv.errors.emptyFile")
              | inr workouts => Loaded workouts
              end
          end
      end
  end.

Definition handleCSVUpload (clock : nat -> Z) (dateParse : string -> option Z)
  : option File -> Outcome :=
  handleCSVUploadWith (parseCSV clock dateParse).

End Handler.

End Login.

(** ** Workouts_List.vue: the list of workouts *)

Module WorkoutsList.
Import JS CsvParser.

(** [allWorkoutsSorted]: [(b.start_time || 0) - (a.start_time || 0)], the
    comparator of [parseCSV] on integer start times. *)
Definition allWorkoutsSorted (workouts : list ParsedWorkout) : list ParsedWorkout :=
  sortBy newestFirst workouts.

(** [findIndex]: the position of the first element that satisfies [p]. *)
Fixpoint findIndex {A} (p : A -> bool) (l : list A) : option nat :=
  match l with
  | [] => None
  | x :: t => if p x then Some O
              else match findIndex p t with
                   | Some i => Some (S i)
                   | None => None
                   end
  end.

(** [workoutIndex]: the number shown for a workout, [None] for the mark
    shown when the id is unknown. *)
Definition workoutIndex (workouts : list ParsedWorkout) (workoutId : string)
  : option nat :=
  let sorted := allWorkoutsSorted workouts in
  match findIndex (fun w => String.eqb (id w) workoutId) sorted with
  | None => None
  | Some idx => Some (List.length sorted - idx)%nat
  end.

(** The values of [filterRange]. *)
Inductive FilterRange : Type :=
| RangeAll | Range1w | Range1m | Range3m | Range6m | Range12m.

Definition rangeDays (r : FilterRange) : Z :=
  match r with
  | Range1w => 7
  | Range1m => 30
  | Range3m => 90
  | Range6m => 180
  | Range12m => 360
  | RangeAll => 90
  end.

(** [nowSec - days * 24 * 3600], with [now] the reading of [Date.now()]. *)
Definition cutoff (r : FilterRange) (now : Z) : Z :=
  now / 1000 - rangeDays r * 24 * 3600.

Definition filteredWorkouts (r : FilterRange) (now : Z)
           (workouts : list ParsedWorkout) : list ParsedWorkout :=
  match r with
  | RangeAll => allWorkoutsSorted workouts
  | _ => List.filter (fun w => cutoff r now <=? start_time w)
                     (allWorkoutsSorted workouts)
  end.

(** [totalSets] of the view: the sets of one workout. *)
Definition totalSets (workout : ParsedWorkout) : nat :=
  fold_left (fun s ex => (s + List.length (sets ex))%nat) (exercises workout) O.

End WorkoutsList.

(** ** Sample data *)

Module Fixtures.
Import JS CsvParser.

(** A set with a weight and a number of repetitions and nothing else. *)
Definition liftSet (weight reps : Q) : ParsedSet :=
  {| set_id := "set"; index := 0; set_type := Some "normal";
     weight_kg := Some (Num weight); reps := Some (Num reps);
     distance_km := None; duration_seconds := None; rpe := None |}.

(** A set with only a number of repetitions recorded. *)
Definition bodyweightSet (reps : Q) : ParsedSet :=
  {| set_id := "set"; index := 0; set_type := Some "normal";
     weight_kg := None; reps := Some (Num reps);
     distance_km := None; duration_seconds := None; rpe := None |}.

Definition exerciseOf (title : string) (ss : list ParsedSet) : ParsedExercise :=
  {| exercise_id := "exercise"; exercise_title := title; superset_id := None;
     notes := None; sets := ss; exercise_url := None |}.

Definition workoutAt (start : Z) (exs : list ParsedExercise) : ParsedWorkout :=
  {| id := "workout"; title := "Workout"; start_time := start; end_time := None;
     description := None; exercises := exs; estimated_volume_kg := None |}.

(** 16 December 2025, 15:06 UTC, in seconds. *)
Definition dec16 : Z := 1765897560.

(** A clock that advances one millisecond per reading. *)
Definition sampleClock (k : nat) : Z := 1700000000000 + Z.of_nat k.

(** A date parser that knows two ISO dates and nothing else. *)
Definition sampleDates (s : string) : option Z :=
  if String.eqb s "2025-01-02" then Some 1735776000000
  else if String.eqb s "2025-01-03" then Some 1735862400000
  else None.

(** Three rows of two workouts, the older workout first. *)
Definition twoWorkoutsCsv : string :=
  "title,start_time,exercise_title,weight_kg,reps
Legs,2025-01-02,Squat,100,5
Push,2025-01-03,Bench Press,60,8
Legs,2025-01-02,Squat,110,3".

(** A row whose numeric cells hold words. *)
Definition wordsRow : Row :=
  [("title", "Legs"); ("start_time", "2025-01-02"); ("exercise_title", "Squat");
   ("set_index", "0"); ("weight_kg", "abc"); ("reps", "five");
   ("distance_km", "far"); ("duration_seconds", "long"); ("rpe", "hard")].

(** The two spellings of one instant. *)
Definition dezDate : string := "16 Dez 2025, 15:06".
Definition decDate : string := "16 Dec 2025, 15:06".

(** A date parser that reads the English spelling of that instant, as UTC. *)
Definition englishDates (s : string) : option Z :=
  if String.eqb s decDate then Some 1765897560000 else None.

(** A date parser that accepts nothing. *)
Definition noDates (s : string) : option Z := None.

(** One row whose start time is no date. *)
Definition badDateCsv : string :=
  "title,start_time,exercise_title,weight_kg,reps
Legs,someday,Squat,100,5".

(** An export in pounds, under a name that ends in .csv and under one that
    does not, and an export without a weight column. *)
Definition poundsText : string :=
  "title,start_time,exercise_title,weight_lbs,reps
Legs,2025-01-02,Squat,225,5".

Definition poundsFile : File :=
  {| name := "workouts.csv"; size := 76; text := Some poundsText |}.

Definition poundsTextFile : File :=
  {| name := "workouts.txt"; size := 76; text := Some poundsText |}.

Definition noWeightFile : File :=
  {| name := "Workouts.CSV"; size := 57;
     text := Some "title,start_time,exercise_title,reps
Legs,2025-01-02,Squat,5" |}.



(** Two rows whose titles and start times differ and whose keys agree. *)
Definition collidingCsv : string :=
  "title,start_time,exercise_title,weight_kg,reps
A_B,C,Squat,100,5
A,B_C,Bench Press,60,8".

(** An export in kilograms, the same under a size over the limit, a file
    that cannot be read, and an export that ends after its header. *)
Definition kgFile : File :=
  {| name := "workouts.csv"; size := 120; text := Some twoWorkoutsCsv |}.

Definition largeFile : File :=
  {| name := "workouts.csv"; size := 20000000; text := Some twoWorkoutsCsv |}.

Definition unreadableFile : File :=
  {| name := "workouts.csv"; size := 120; text := None |}.

Definition headerOnlyFile : File :=
  {| name := "empty.csv"; size := 46;
     text := Some "title,start_time,exercise_title,weight_kg,reps" |}.

(** Two sessions on consecutive days, each under an id of its own. *)
Definition session (i : string) (start : Z) (exs : list ParsedExercise) : ParsedWorkout :=
  {| id := i; title := "Workout"; start_time := start; end_time := None;
     description := None; exercises := exs; estimated_volume_kg := None |}.

Definition monday : ParsedWorkout :=
  session "a" dec16 [exerciseOf "Bench Press" [liftSet 100 10; liftSet 100 8]].

Definition tuesday : ParsedWorkout :=
  session "b" (dec16 + 86400) [exerciseOf "Squat" [liftSet 120 5]].

(** A start time no [Date] can hold. *)
Definition beyondTime : ParsedWorkout := workoutAt (10 ^ 16) [].

(** A week that always starts on 15 December 2025. *)
Definition sampleWeek (ms : Z) : option string := Some "2025-12-15".

End Fixtures.

(** ** Properties *)

Import JS CsvParser CsvCalculator Login Fixtures.

(** *** Personal records *)

Lemma trackSets_from (p : PRs) (n : nat) (ss : list WorkoutSet) :
  fold_left (fun st s => let '(p', c) := checkSet (fst st) s in (p', (snd st + c)%nat))
            ss (p, n)
  = (fst (trackSets p ss), (n + snd (trackSets p ss))%nat).
Proof.
  revert p n. induction ss as [| s ss IH]; intros p n.
  - cbn. f_equal. lia.
  - unfold trackSets. cbn [fold_left fst snd].
    destruct (checkSet p s) as [p1 c] eqn:E.
    rewrite (IH p1 (n + c)%nat), (IH p1 (0 + c)%nat). cbn [fst snd]. f_equal. lia.
Qed.

Lemma trackSets_cons (p : PRs) (s : WorkoutSet) (ss : list WorkoutSet) :
  trackSets p (s :: ss)
  = (fst (trackSets (fst (checkSet p s)) ss),
     (snd (checkSet p s) + snd (trackSets (fst (checkSet p s)) ss))%nat).
Proof.
  unfold trackSets at 1. cbn [fold_left fst snd].
  destruct (checkSet p s) as [p1 c]. rewrite trackSets_from. reflexivity.
Qed.


(** *** Total volume *)

Section Volume.


Lemma sumPresent_app (l1 l2 : list WorkoutSet) :
  (sumPresent (l1 ++ l2) == sumPresent l1 + sumPresent l2)%Q.
Proof.
  induction l1 as [| s l1 IH]; cbn [app sumPresent].
  - ring.
  - destruct (present (weight_kg s)), (present (reps s)); rewrite IH; ring.
Qed.

End Volume.

(** *** Muscle distribution *)

Section Muscles.


Lemma credit_lookup (n : nat) (g : gmap string nat) (k m : string) :
  credit n g k !! m
  = if decide (m = k) then (fun c => (c + n)%nat) <$> g !! m else g !! m.
Proof.
  unfold credit. destruct (decide (m = k)) as [-> | Hne].
  - destruct (g !! k) as [c |] eqn:E; cbn.
    + rewrite lookup_insert_eq. reflexivity.
    + rewrite E. reflexivity.
  - destruct (g !! k) as [c |]; [| reflexivity].
    rewrite lookup_insert_ne by congruence. reflexivity.
Qed.

Lemma credit_all_lookup (n : nat) (ms : list string) (g : gmap string nat) (m : string) :
  NoDup ms ->
  fold_left (credit n) ms g !! m
  = if decide (m ∈ ms) then (fun c => (c + n)%nat) <$> g !! m else g !! m.
Proof.
  intros Hnd. revert g. induction Hnd as [| k ms Hk Hnd IH]; intros g; cbn [fold_left].
  - destruct (decide (m ∈ [])) as [Hin | _]; [inversion Hin | reflexivity].
  - rewrite IH, credit_lookup.
    destruct (decide (m = k)) as [-> | Hne].
    + destruct (decide (k ∈ ms)) as [Hin | _]; [contradiction |].
      destruct (decide (k ∈ k :: ms)) as [_ | Hout]; [reflexivity |].
      exfalso. apply Hout. left.
    + destruct (decide (m ∈ ms)) as [Hin | Hout];
        destruct (decide (m ∈ k :: ms)) as [Hin' | Hout']; try reflexivity.
      * exfalso. apply Hout'. right. exact Hin.
      * exfalso. apply elem_of_cons in Hin' as [? | ?]; contradiction.
Qed.

Lemma table_muscles_NoDup :
  Forall (fun pm : string * list string => NoDup (snd pm)) exerciseToMuscle.
Proof.
  apply (bool_decide_unpack _). vm_compute. reflexivity.
Qed.

Lemma firstMatch_NoDup (name p : string) (ms : list string) :
  firstMatch name = Some (p, ms) -> NoDup ms.
Proof.
  intros H. apply find_some in H as [Hin _].
  pose proof table_muscles_NoDup as Hall.
  rewrite Forall_forall in Hall. apply (Hall (p, ms)).
  apply list_elem_of_In. exact Hin.
Qed.

Lemma addExercise_lookup (g : gmap string nat) (ex : Exercise)
      (p : string) (ms : list string) (m : string) :
  firstMatch (toLowerCase (exercise_title ex)) = Some (p, ms) ->
  addExercise g ex !! m
  = if decide (m ∈ ms)
    then (fun c => (c + List.length (sets ex))%nat) <$> g !! m
    else g !! m.
Proof.
  intros H. unfold addExercise. rewrite H.
  apply credit_all_lookup. exact (firstMatch_NoDup _ _ _ H).
Qed.


End Muscles.

Section MuscleKeys.





End MuscleKeys.

(** *** Sorting *)

Section Sorting.

Context {A : Type} (le : A -> A -> bool).

Lemma insertBy_perm (x : A) (l : list A) : Permutation (insertBy le x l) (x :: l).
Proof.
  induction l as [| y t IH]; cbn.
  - reflexivity.
  - destruct (le x y); [reflexivity |].
    rewrite IH. apply perm_swap.
Qed.

Lemma sortBy_perm (l : list A) : Permutation (sortBy le l) l.
Proof.
  induction l as [| x l IH]; cbn.
  - reflexivity.
  - fold (sortBy le l). rewrite insertBy_perm, IH. reflexivity.
Qed.

Hypothesis le_total : forall a b, le a b = false -> le b a = true.
Hypothesis le_trans : forall a b c, le a b = true -> le b c = true -> le a c = true.

Lemma insertBy_sorted (x : A) (l : list A) :
  StronglySorted (fun a b => le a b = true) l ->
  StronglySorted (fun a b => le a b = true) (insertBy le x l).
Proof.
  induction 1 as [| y t Hs IH Hy]; cbn.
  - constructor; constructor.
  - destruct (le x y) eqn:E.
    + constructor; [constructor; assumption |].
      constructor; [exact E |].
      eapply Forall_impl; [exact Hy |]. intros z Hz. cbn in Hz. eauto.
    + constructor; [exact IH |].
      rewrite (insertBy_perm x t). constructor; [auto | exact Hy].
Qed.

Lemma sortBy_sorted (l : list A) :
  StronglySorted (fun a b => le a b = true) (sortBy le l).
Proof.
  induction l as [| x l IH]; cbn.
  - constructor.
  - apply insertBy_sorted, IH.
Qed.

End Sorting.

Lemma StronglySorted_weaken {A} (R R' : A -> A -> Prop) (l : list A) :
  (forall a b, R a b -> R' a b) -> StronglySorted R l -> StronglySorted R' l.
Proof.
  intros HR. induction 1 as [| x l Hs IH Hx]; constructor; [exact IH |].
  eapply Forall_impl; [exact Hx |]. intros y Hy. apply HR, Hy.
Qed.

(** *** The map of workouts *)

Section WorkoutsMap.

Context {V : Type}.

Lemma mapHas_keys (m : Map V) (k : string) :
  mapHas m k = existsb (String.eqb k) (mapKeys m).
Proof.
  unfold mapHas. induction m as [| [k' v] m IH]; cbn; [reflexivity |].
  rewrite (String.eqb_sym k k'). destruct (String.eqb k' k); [reflexivity | exact IH].
Qed.

Lemma mapKeys_set (m : Map V) (k : string) (v : V) :
  mapKeys (mapSet m k v) = addKey (mapKeys m) k.
Proof.
  unfold addKey. induction m as [| [k' v'] m IH]; cbn; [reflexivity |].
  rewrite (String.eqb_sym k k'). destruct (String.eqb k' k) eqn:E; cbn.
  - reflexivity.
  - unfold mapKeys in IH. rewrite IH.
    destruct (existsb (String.eqb k) (map fst m)); reflexivity.
Qed.

Lemma mapGet_set (m : Map V) (k : string) (v : V) :
  mapGet (mapSet m k v) k = Some v.
Proof.
  induction m as [| [k' v'] m IH]; cbn.
  - rewrite String.eqb_refl. reflexivity.
  - destruct (String.eqb k' k) eqn:E; cbn; rewrite E; [reflexivity | exact IH].
Qed.

Lemma existsb_eqb_elem (k : string) (ks : list string) :
  existsb (String.eqb k) ks = true <-> k ∈ ks.
Proof.
  rewrite existsb_exists. split.
  - intros (x & Hin & E). apply String.eqb_eq in E. subst x.
    apply list_elem_of_In. exact Hin.
  - intros Hin. exists k. split; [apply list_elem_of_In; exact Hin | apply String.eqb_refl].
Qed.

Lemma addKey_NoDup (ks : list string) (k : string) : NoDup ks -> NoDup (addKey ks k).
Proof.
  intros Hnd. unfold addKey. destruct (existsb (String.eqb k) ks) eqn:E; [exact Hnd |].
  apply NoDup_app. repeat split; [exact Hnd | | apply NoDup_singleton].
  intros x Hx Hx'. apply list_elem_of_singleton in Hx'. subst x.
  apply existsb_eqb_elem in Hx. congruence.
Qed.

Lemma addKey_elem (ks : list string) (k x : string) :
  x ∈ addKey ks k <-> x ∈ ks \/ x = k.
Proof.
  unfold addKey. destruct (existsb (String.eqb k) ks) eqn:E.
  - apply existsb_eqb_elem in E. split; [auto |]. intros [H | ->]; assumption.
  - rewrite elem_of_app, list_elem_of_singleton. reflexivity.
Qed.

End WorkoutsMap.

Section Builder.

Variable clock : nat -> Z.
Variable dateParse : string -> option Z.

Lemma getOrCreateWorkout_keys (row : Row) (m : Map ParsedWorkout) (k : nat) :
  mapKeys (fst (getOrCreateWorkout clock dateParse row m k))
  = addKey (mapKeys m) (workoutKey row).
Proof.
  unfold getOrCreateWorkout.
  destruct (mapHas m (workoutKey row)) eqn:E.
  - cbn [fst]. unfold addKey. rewrite <- mapHas_keys, E. reflexivity.
  - destruct (parseDate clock dateParse (field row "start_time") (S k)) as [start k1].
    destruct (truthy (field row "end_time"));
      [destruct (parseDate clock dateParse (field row "end_time") k1) as [e k'] |];
      cbn [fst]; apply mapKeys_set.
Qed.

Lemma getOrCreateWorkout_has (row : Row) (m : Map ParsedWorkout) (k : nat) :
  mapHas m (workoutKey row) = true ->
  getOrCreateWorkout clock dateParse row m k = (m, k).
Proof. intros H. unfold getOrCreateWorkout. rewrite H. reflexivity. Qed.

Lemma getOrCreateWorkout_get (row : Row) (m : Map ParsedWorkout) (k : nat) :
  exists w,
    mapGet (fst (getOrCreateWorkout clock dateParse row m k)) (workoutKey row) = Some w.
Proof.
  unfold getOrCreateWorkout.
  destruct (mapHas m (workoutKey row)) eqn:E.
  - cbn [fst]. unfold mapHas in E.
    destruct (mapGet m (workoutKey row)) as [w |]; [eauto | discriminate].
  - destruct (parseDate clock dateParse (field row "start_time") (S k)) as [start k1].
    destruct (truthy (field row "end_time"));
      [destruct (parseDate clock dateParse (field row "end_time") k1) as [e k'] |];
      cbn [fst]; rewrite mapGet_set; eauto.
Qed.

Lemma addKey_idem (ks : list string) (k : string) : addKey (addKey ks k) k = addKey ks k.
Proof.
  unfold addKey at 1.
  replace (existsb (String.eqb k) (addKey ks k)) with true; [reflexivity |].
  symmetry. apply existsb_eqb_elem, addKey_elem. right. reflexivity.
Qed.

Lemma processRow_keys (row : Row) (i : nat) (st : Map ParsedWorkout * nat) :
  mapKeys (fst (processRow clock dateParse row i st))
  = addKey (mapKeys (fst st)) (workoutKey row).
Proof.
  unfold processRow.
  pose proof (getOrCreateWorkout_keys row (fst st) (snd st)) as Hk.
  destruct (getOrCreateWorkout_get row (fst st) (snd st)) as [w Hw].
  destruct (getOrCreateWorkout clock dateParse row (fst st) (snd st)) as [m k].
  cbn [fst] in *. rewrite Hw. cbn [fst].
  rewrite mapKeys_set, Hk. apply addKey_idem.
Qed.

Lemma processLines_rows (headers : list string) (i : nat) (lines : list string)
      (st : Map ParsedWorkout * nat) :
  processLines clock dateParse headers i lines st
  = fold_left (fun st r => processRow clock dateParse (snd r) (fst r) st)
              (validRows headers i lines) st.
Proof.
  revert i st. induction lines as [| line rest IH]; intros i st; cbn [processLines validRows].
  - reflexivity.
  - rewrite IH. unfold processLine.
    destruct (trim line) as [| c s]; [reflexivity |].
    destruct (negb (List.length (parseCSVLine (String c s)) =? List.length headers)%nat);
      reflexivity.
Qed.

Lemma fold_rows_keys (rows : list (nat * Row)) (st : Map ParsedWorkout * nat) :
  mapKeys (fst (fold_left (fun st r => processRow clock dateParse (snd r) (fst r) st)
                          rows st))
  = fold_left (fun keys r => addKey keys (workoutKey (snd r))) rows (mapKeys (fst st)).
Proof.
  revert st. induction rows as [| r rows IH]; intros st; cbn [fold_left].
  - reflexivity.
  - rewrite IH, processRow_keys. reflexivity.
Qed.

Lemma fold_addKey_NoDup (rows : list (nat * Row)) (keys : list string) :
  NoDup keys ->
  NoDup (fold_left (fun keys r => addKey keys (workoutKey (snd r))) rows keys).
Proof.
  revert keys. induction rows as [| r rows IH]; intros keys H; cbn [fold_left].
  - exact H.
  - apply IH, addKey_NoDup, H.
Qed.

Lemma fold_addKey_elem (rows : list (nat * Row)) (keys : list string) (x : string) :
  x ∈ fold_left (fun keys r => addKey keys (workoutKey (snd r))) rows keys
  <-> x ∈ keys \/ exists r, r ∈ rows /\ workoutKey (snd r) = x.
Proof.
  revert keys. induction rows as [| r rows IH]; intros keys; cbn [fold_left].
  - split; [auto |]. intros [H | (r & Hr & _)]; [exact H | inversion Hr].
  - rewrite IH, addKey_elem. split.
    + intros [[H | ->] | (r' & Hr' & E)]; [auto | |].
      * right. exists r. split; [left | reflexivity].
      * right. exists r'. split; [right; exact Hr' | exact E].
    + intros [H | (r' & Hr' & E)]; [auto |].
      apply elem_of_cons in Hr' as [-> | Hr'].
      * left. right. symmetry. exact E.
      * right. exists r'. split; assumption.
Qed.

Lemma buildMap_keys (csvContent : string) (m : Map ParsedWorkout) :
  buildMap clock dateParse csvContent = inr m ->
  mapKeys m = distinctKeys (rowsOf csvContent).
Proof.
  unfold buildMap, rowsOf, distinctKeys.
  destruct (split newline (trim csvContent)) as [| headerLine rest]; [discriminate |].
  destruct headerLine as [| c s]; [discriminate |].
  intros [= <-]. rewrite processLines_rows, fold_rows_keys. reflexivity.
Qed.

Lemma newestFirst_total (a b : ParsedWorkout) :
  newestFirst a b = false -> newestFirst b a = true.
Proof. unfold newestFirst. intros H. apply Z.leb_gt in H. apply Z.leb_le. lia. Qed.

Lemma newestFirst_trans (a b c : ParsedWorkout) :
  newestFirst a b = true -> newestFirst b c = true -> newestFirst a c = true.
Proof.
  unfold newestFirst. intros H1 H2.
  apply Z.leb_le in H1, H2. apply Z.leb_le. lia.
Qed.

End Builder.

Lemma split_nonempty (sep : ascii) (s : string) : split sep s <> [].
Proof.
  destruct s as [| c s]; cbn; [discriminate |].
  destruct (Ascii.eqb c sep); [discriminate |].
  destruct (split sep s); discriminate.
Qed.

Lemma parseCSV_header (clock : nat -> Z) (dateParse : string -> option Z)
      (csvContent : string) :
  (headerLineOf csvContent = EmptyString
   /\ parseCSV clock dateParse csvContent = inl "CSV header is missing")
  \/ (headerLineOf csvContent <> EmptyString
      /\ exists workouts, parseCSV clock dateParse csvContent = inr workouts).
Proof.
  unfold parseCSV, buildMap, headerLineOf.
  pose proof (split_nonempty newline (trim csvContent)) as Hne.
  destruct (split newline (trim csvContent)) as [| headerLine rest]; [congruence |].
  destruct headerLine; [left; split; reflexivity | right; split; [discriminate | eauto]].
Qed.

(** Runs [parseCSV] on a given text for an arbitrary clock and date parser:
    the text is evaluated, and each call of [parseDate] the evaluation meets
    is replaced by its two results. *)
Ltac run_parser :=
  cbv -[parseDate pretty];
  repeat match goal with
         | |- context [parseDate ?c ?d ?s ?k] =>
             destruct (parseDate c d s k) as [? ?]; cbv -[parseDate pretty]
         end.

(** C9. The key of a row is its title, an underscore and its start time,
    both as written.  The rows (A_B, C) and (A, B_C) differ in title and in
    start time and have the one key A_B_C; whatever the clock and the date
    parser, [parseCSV] folds them into a single workout, titled by the first
    row and holding the exercises and sets of both. *)
Theorem C9_key_collision :
  (forall row : Row,
      workoutKey row
      = show (field row "title") +:+ "_" +:+ show (field row "start_time"))
  /\ map (fun r => (field (snd r) "title", field (snd r) "start_time",
                    workoutKey (snd r)))
         (rowsOf collidingCsv)
     = [(Some "A_B", Some "C", "A_B_C"); (Some "A", Some "B_C", "A_B_C")]
  /\ (forall (clock : nat -> Z) (dateParse : string -> option Z),
         exists w,
           parseCSV clock dateParse collidingCsv = inr [w]
           /\ title w = "A_B"
           /\ map exercise_title (exercises w) = ["Squat"; "Bench Press"]
           /\ map weight_kg (flat_map sets (exercises w))
              = [Some (Num 100); Some (Num 60)]
           /\ estimated_volume_kg w = Some (Num 980)).
Proof.
  split; [| split].
  - intros row. reflexivity.
  - vm_compute. reflexivity.
  - intros clock dateParse. run_parser.
    eexists. split; [reflexivity |].
    cbv -[pretty]. repeat split.
Qed.

(** *** Numeric fields *)

Section NumericFields.

Lemma noDigit_trimStart (s : string) : noDigit s = true -> noDigit (trimStart s) = true.
Proof.
  induction s as [| c s IH]; cbn [trimStart noDigit]; [trivial |].
  destruct (digitVal c) eqn:E; [discriminate |].
  intros H. destruct (isWhite c); [exact (IH H) |].
  cbn [noDigit]. rewrite E. exact H.
Qed.

Lemma noDigit_scanSign (s : string) :
  noDigit s = true -> noDigit (snd (scanSign s)) = true.
Proof.
  destruct s as [| c s]; cbn [scanSign noDigit]; [trivial |].
  destruct (digitVal c) eqn:E; [discriminate |].
  intros H. destruct (Ascii.eqb c "-"); [exact H |].
  destruct (Ascii.eqb c "+"); [exact H |].
  cbn [snd noDigit]. rewrite E. exact H.
Qed.

Lemma scanDigits_noDigit (s : string) (acc : Z) (n : nat) :
  noDigit s = true -> scanDigits digitVal 10 s acc n = (acc, n, s).
Proof.
  destruct s as [| c s]; cbn [scanDigits noDigit]; [reflexivity |].
  destruct (digitVal c); [discriminate | reflexivity].
Qed.

Lemma noDigit_tail (c : ascii) (s : string) :
  noDigit (String c s) = true -> noDigit s = true.
Proof. cbn [noDigit]. destruct (digitVal c); [discriminate | trivial]. Qed.

Lemma parseFloat_noDigit (v : string) : noDigit v = true -> parseFloat v = NaN.
Proof.
  intros H. unfold parseFloat.
  pose proof (noDigit_scanSign _ (noDigit_trimStart _ H)) as Hs.
  destruct (scanSign (trimStart v)) as [neg s]. cbn [snd] in Hs.
  rewrite (scanDigits_noDigit s 0 O Hs).
  destruct s as [| c s']; [reflexivity |].
  destruct (Ascii.eqb c "."); [| reflexivity].
  rewrite (scanDigits_noDigit s' 0 O (noDigit_tail c s' Hs)). reflexivity.
Qed.

Lemma noDigit_not_hex (s : string) :
  noDigit s = true -> startsWith s "0x" || startsWith s "0X" = false.
Proof.
  destruct s as [| c s]; [reflexivity |]. cbn [noDigit startsWith].
  destruct (Ascii.eqb "0" c) eqn:E; [| reflexivity].
  apply Ascii.eqb_eq in E. subst c. cbn. discriminate.
Qed.

Lemma parseInt_noDigit (v : string) : noDigit v = true -> parseInt v = NaN.
Proof.
  intros H. unfold parseInt.
  pose proof (noDigit_scanSign _ (noDigit_trimStart _ H)) as Hs.
  destruct (scanSign (trimStart v)) as [neg s]. cbn [snd] in Hs.
  rewrite (noDigit_not_hex s Hs), (scanDigits_noDigit s 0 O Hs). reflexivity.
Qed.

End NumericFields.

(** C4, as the code has it.  Each of the five numeric fields of a set is
    [null] when the cell is empty or missing, and the result of [parseFloat]
    (weight, distance, RPE) or [parseInt] (repetitions, duration) otherwise:
    never [null] for a cell that is not empty.  A cell without any digit
    parses to NaN, a value that is neither [null] nor zero, unless
    [parseFloat] reads it as an infinity; no field raises. *)
Theorem C4_numeric_fields :
  (forall (clock : nat -> Z) (row : Row) (i k : nat),
      let s := buildSet clock row i k in
      weight_kg s = numericField parseFloat (field row "weight_kg")
      /\ reps s = numericField parseInt (field row "reps")
      /\ distance_km s = numericField parseFloat (field row "distance_km")
      /\ duration_seconds s = numericField parseInt (field row "duration_seconds")
      /\ rpe s = numericField parseFloat (field row "rpe"))
  /\ (forall parse : string -> number,
         numericField parse None = None /\ numericField parse (Some EmptyString) = None)
  /\ (forall (parse : string -> number) (v : string),
         v <> EmptyString -> numericField parse (Some v) = Some (parse v))
  /\ (forall v : string,
         v <> EmptyString -> noDigit v = true ->
         numericField parseInt (Some v) = Some NaN
         /\ (infinityLiteral v = false ->
             numericField parseFloat (Some v) = Some NaN)).
Proof.
  assert (Hsome : forall (parse : string -> number) (v : string),
             v <> EmptyString -> numericField parse (Some v) = Some (parse v)).
  { intros parse [| c v] Hv; [congruence | reflexivity]. }
  split; [| split; [| split]].
  - intros clock row i k. cbn. repeat split.
  - intros parse. split; reflexivity.
  - exact Hsome.
  - intros v Hv Hd.
    rewrite !(Hsome _ v Hv), (parseFloat_noDigit v Hd), (parseInt_noDigit v Hd).
    split; [reflexivity | intros _; reflexivity].
Qed.

Lemma C4_numeric_fields_witness :
  ("abc" <> EmptyString /\ noDigit "abc" = true /\ infinityLiteral "abc" = false
   /\ numericField parseFloat (Some "abc") = Some NaN)
  /\ ("12.5" <> EmptyString
      /\ numericField parseFloat (Some "12.5") = Some (Num (25 # 2))).
Proof.
  destruct C4_numeric_fields as (_ & _ & Hsome & Hwords).
  split.
  - split; [discriminate | split; [reflexivity | split; [reflexivity |]]].
    exact (proj2 (Hwords "abc" ltac:(discriminate) eq_refl) eq_refl).
  - split; [discriminate |].
    rewrite (Hsome parseFloat "12.5" ltac:(discriminate)). reflexivity.
Defined.

(** The claim C4 fails on a row whose cells hold words: the fields of its
    set are NaN, not [null]. *)
Lemma C4_counterexample :
  let s := buildSet sampleClock wordsRow 1 O in
  field wordsRow "weight_kg" = Some "abc"
  /\ noDigit "abc" = true
  /\ weight_kg s = Some NaN /\ weight_kg s <> None
  /\ reps s = Some NaN /\ reps s <> None
  /\ distance_km s = Some NaN
  /\ duration_seconds s = Some NaN
  /\ rpe s = Some NaN.
Proof. vm_compute. repeat split; discriminate. Qed.

(** *** Dates *)

Section Dates.

Variable clock : nat -> Z.
Variable dateParse : string -> option Z.

Lemma parseDate_valid (s : string) (ms : Z) (k : nat) :
  dateParse (normalizeDate s) = Some ms ->
  parseDate clock dateParse (Some s) k = (ms / 1000, k).
Proof. intros H. unfold parseDate, parseDate_try. rewrite H. reflexivity. Qed.

Lemma parseDate_invalid (s : string) (k : nat) :
  dateParse (normalizeDate s) = None ->
  parseDate clock dateParse (Some s) k = (clock k / 1000, S k).
Proof. intros H. unfold parseDate, parseDate_try. rewrite H. reflexivity. Qed.

Lemma parseDate_undefined (k : nat) :
  parseDate clock dateParse None k = (clock k / 1000, S k).
Proof. reflexivity. Qed.

End Dates.

(** C8. [parseDate] returns a number of seconds for every argument: an
    exception of its body is caught and answered with the current reading of
    the clock in seconds, as is a string the engine does not take for a date;
    a date gives its instant.  So no date makes [parseCSV] fail: it returns
    for every input with a header line, whatever the date parser; a row with
    a start time that is no date becomes a workout dated now, and the volume
    and the record timeline are computed from it. *)
Theorem C8_parseDate_never_raises :
  (forall (clock : nat -> Z) (dateParse : string -> option Z)
          (dateString : option string) (k : nat),
      match parseDate_try clock dateParse dateString k with
      | (inl _, k') => parseDate clock dateParse dateString k = (clock k' / 1000, S k')
      | (inr seconds, k') => parseDate clock dateParse dateString k = (seconds, k')
      end)
  /\ (forall (clock : nat -> Z) (dateParse : string -> option Z) (k : nat),
         parseDate clock dateParse None k = (clock k / 1000, S k))
  /\ (forall (clock : nat -> Z) (dateParse : string -> option Z) (s : string) (k : nat),
         dateParse (normalizeDate s) = None ->
         parseDate clock dateParse (Some s) k = (clock k / 1000, S k))
  /\ (forall (clock : nat -> Z) (dateParse : string -> option Z)
             (s : string) (ms : Z) (k : nat),
         dateParse (normalizeDate s) = Some ms ->
         parseDate clock dateParse (Some s) k = (ms / 1000, k))
  /\ (forall (clock : nat -> Z) (dateParse : string -> option Z) (csvContent : string),
         headerLineOf csvContent <> EmptyString ->
         exists workouts, parseCSV clock dateParse csvContent = inr workouts)
  /\ (exists w,
         parseCSV sampleClock noDates badDateCsv = inr [w]
         /\ start_time w = sampleClock 1 / 1000
         /\ calculateTotalVolume [w] = 500
         /\ calculatePRsOverTime [w] = inr [("2023-11-14", 3%nat)]).
Proof.
  split; [| split; [| split; [| split; [| split]]]].
  - intros clock dateParse dateString k. unfold parseDate.
    destruct (parseDate_try clock dateParse dateString k) as [[e | seconds] k'];
      reflexivity.
  - intros. apply parseDate_undefined.
  - intros clock dateParse s k H. exact (parseDate_invalid clock dateParse s k H).
  - intros clock dateParse s ms k H. exact (parseDate_valid clock dateParse s ms k H).
  - intros clock dateParse csvContent Hheader.
    destruct (parseCSV_header clock dateParse csvContent) as [[H _] | [_ H]];
      [contradiction | exact H].
  - eexists. split; [vm_compute; reflexivity |]. vm_compute. repeat split.
Qed.

Lemma C8_parseDate_never_raises_witness :
  noDates (normalizeDate "someday") = None
  /\ parseDate sampleClock noDates (Some "someday") 1 = (1700000000, 2%nat)
  /\ englishDates (normalizeDate dezDate) = Some 1765897560000
  /\ parseDate sampleClock englishDates (Some dezDate) 1 = (dec16, 1%nat)
  /\ headerLineOf badDateCsv <> EmptyString
  /\ exists workouts, parseCSV sampleClock noDates badDateCsv = inr workouts.
Proof.
  destruct C8_parseDate_never_raises as (_ & _ & Hbad & Hgood & Htotal & _).
  assert (H1 : noDates (normalizeDate "someday") = None) by reflexivity.
  assert (H2 : englishDates (normalizeDate dezDate) = Some 1765897560000)
    by (vm_compute; reflexivity).
  assert (H3 : headerLineOf badDateCsv <> EmptyString) by (vm_compute; discriminate).
  split; [exact H1 |].
  split; [rewrite (Hbad sampleClock noDates "someday" 1%nat H1); reflexivity |].
  split; [exact H2 |].
  split; [rewrite (Hgood sampleClock englishDates dezDate _ 1%nat H2); reflexivity |].
  split; [exact H3 |].
  exact (Htotal sampleClock noDates badDateCsv H3).
Defined.

(** *** Validation of the file *)

(** C3, as the code has it.  For a file that can be read, whose name ends
    in .csv and whose size is at most 10 MiB: when the lower-cased first line
    contains weight_lbs the file is rejected with the message on the unit,
    and when it contains neither weight_lbs nor weight_kg with the message on
    the missing column.  The upload handler answers a rejected file with that
    message whatever the parser would do, so no row is parsed; an accepted
    file has weight_kg and no weight_lbs in its first line; and the parser
    reads the weight from the weight_kg cell only, so a row without one has no
    weight: nothing is converted. *)
Theorem C3_header_validation :
  (forall (file : File) (content : string),
      endsWith (toLowerCase (name file)) ".csv" = true ->
      size file <= 10 * 1024 * 1024 ->
      text file = Some content ->
      includes (firstLineOf content) "weight_lbs" = true ->
      validateCSVFile file = inl unsupportedUnitMessage)
  /\ (forall (file : File) (content : string),
         endsWith (toLowerCase (name file)) ".csv" = true ->
         size file <= 10 * 1024 * 1024 ->
         text file = Some content ->
         includes (firstLineOf content) "weight_lbs" = false ->
         includes (firstLineOf content) "weight_kg" = false ->
         validateCSVFile file = inl missingColumnMessage)
  /\ (forall (t : string -> string) (parse : string -> string + list ParsedWorkout)
             (file : File) (message : string),
         validateCSVFile file = inl message ->
         handleCSVUploadWith t parse (Some file)
         = Rejected (messageOr message (t "login.csv.errors.invalidFile")))
  /\ (forall (file : File) (ok : bool),
         validateCSVFile file = inr ok ->
         ok = true
         /\ exists content,
             text file = Some content
             /\ includes (firstLineOf content) "weight_lbs" = false
             /\ includes (firstLineOf content) "weight_kg" = true)
  /\ (forall (clock : nat -> Z) (row : Row) (i k : nat),
         field row "weight_kg" = None ->
         weight_kg (buildSet clock row i k) = None).
Proof.
  split; [| split; [| split; [| split]]].
  - intros file content Hname Hsize Htext Hlbs.
    unfold validateCSVFile, readCSVFile. rewrite Hname, Htext. cbn [negb].
    replace (size file >? 10 * 1024 * 1024) with false
      by (symmetry; rewrite Z.gtb_ltb; apply Z.ltb_ge; exact Hsize).
    rewrite Hlbs. reflexivity.
  - intros file content Hname Hsize Htext Hlbs Hkg.
    unfold validateCSVFile, readCSVFile. rewrite Hname, Htext. cbn [negb].
    replace (size file >? 10 * 1024 * 1024) with false
      by (symmetry; rewrite Z.gtb_ltb; apply Z.ltb_ge; exact Hsize).
    rewrite Hlbs, Hkg. reflexivity.
  - intros t parse file message H. unfold handleCSVUploadWith. rewrite H. reflexivity.
  - intros file ok. unfold validateCSVFile, readCSVFile.
    destruct (negb (endsWith (toLowerCase (name file)) ".csv")); [discriminate |].
    destruct (size file >? 10 * 1024 * 1024); [discriminate |].
    destruct (text file) as [content |]; [| discriminate].
    destruct (includes (firstLineOf content) "weight_lbs") eqn:Hlbs; [discriminate |].
    destruct (includes (firstLineOf content) "weight_kg") eqn:Hkg; [| discriminate].
    intros [= <-]. split; [reflexivity |]. exists content. repeat split; assumption.
  - intros clock row i k H. cbn. rewrite H. reflexivity.
Qed.

Lemma C3_header_validation_witness :
  (endsWith (toLowerCase (name poundsFile)) ".csv" = true
   /\ size poundsFile <= 10 * 1024 * 1024
   /\ includes (firstLineOf poundsText) "weight_lbs" = true
   /\ validateCSVFile poundsFile = inl unsupportedUnitMessage)
  /\ validateCSVFile noWeightFile = inl missingColumnMessage
  /\ handleCSVUpload (fun key => key) sampleClock sampleDates (Some poundsFile)
     = Rejected unsupportedUnitMessage
  /\ validateCSVFile
       {| name := "workouts.csv"; size := 70;
          text := Some "title,start_time,exercise_title,weight_kg,reps" |}
     = inr true
  /\ weight_kg (buildSet sampleClock [("weight_lbs", "225"); ("reps", "5")] 1 O) = None.
Proof.
  destruct C3_header_validation as (Hlbs & Hmissing & Hhandler & Hok & Hnone).
  assert (H1 : endsWith (toLowerCase (name poundsFile)) ".csv" = true) by reflexivity.
  assert (H2 : size poundsFile <= 10 * 1024 * 1024) by (vm_compute; discriminate).
  assert (H3 : includes (firstLineOf poundsText) "weight_lbs" = true)
    by (vm_compute; reflexivity).
  assert (H4 : validateCSVFile poundsFile = inl unsupportedUnitMessage)
    by exact (Hlbs poundsFile poundsText H1 H2 eq_refl H3).
  split; [repeat split; assumption |].
  split.
  { refine (Hmissing noWeightFile _ _ _ eq_refl _ _);
      [reflexivity | vm_compute; discriminate | vm_compute; reflexivity
       | vm_compute; reflexivity]. }
  split; [unfold handleCSVUpload; rewrite (Hhandler _ _ poundsFile _ H4); reflexivity |].
  split.
  { destruct (validateCSVFile
                {| name := "workouts.csv"; size := 70;
                   text := Some "title,start_time,exercise_title,weight_kg,reps" |})
      as [e | ok] eqn:E; [vm_compute in E; discriminate |].
    destruct (Hok _ ok E) as [-> _]. reflexivity. }
  exact (Hnone sampleClock [("weight_lbs", "225"); ("reps", "5")] 1%nat O eq_refl).
Defined.

(** The claim C3 fails on a file in pounds whose name does not end in .csv:
    it is rejected for its name, not for its unit. *)
Lemma C3_counterexample :
  includes (firstLineOf poundsText) "weight_lbs" = true
  /\ text poundsTextFile = Some poundsText
  /\ validateCSVFile poundsTextFile = inl notCSVMessage
  /\ validateCSVFile poundsTextFile <> inl unsupportedUnitMessage.
Proof. vm_compute. repeat split; discriminate. Qed.

(** *** Keys of the record state *)

Section RecordKeys.



(** What [trackExercise] reads and writes: the entry at the lower-cased
    title, a fresh one counting as zero. *)
Lemma trackExercise_key (prs : gmap string PRs) (ex : Exercise) :
  let key := toLowerCase (exercise_title ex) in
  let start := default zeroPRs (prs !! key) in
  trackExercise prs ex
  = (<[key := fst (trackSets start (sets ex))]> prs, snd (trackSets start (sets ex))).
Proof.
  intros key start. subst start. unfold trackExercise. fold key.
  destruct (prs !! key) as [p |] eqn:E.
  - rewrite ?E. unfold default. cbn [from_option Datatypes.id].
    destruct (trackSets p (sets ex)) as [p' n]. reflexivity.
  - rewrite lookup_insert_eq. unfold default. cbn [from_option Datatypes.id].
    destruct (trackSets zeroPRs (sets ex)) as [p' n]. cbn [fst snd].
    rewrite insert_insert_eq. reflexivity.
Qed.

End RecordKeys.

(** ** Further properties of the code *)

(** *** Lines and cells *)

Section Lines.

Lemma append_cons (c : ascii) (s t : string) : String c s +:+ t = String c (s +:+ t).
Proof. reflexivity. Qed.

Lemma append_nil (t : string) : EmptyString +:+ t = t.
Proof. reflexivity. Qed.

Lemma append_empty (s : string) : s +:+ EmptyString = s.
Proof.
  induction s as [| c s IH]; [reflexivity |]. rewrite append_cons, IH. reflexivity.
Qed.

Lemma append_assoc (a b c : string) : (a +:+ b) +:+ c = a +:+ (b +:+ c).
Proof.
  induction a as [| x a IH]; [reflexivity |]. rewrite !append_cons, IH. reflexivity.
Qed.

Lemma fieldsOf_cons (current : string) (c : ascii) (text : string) :
  fieldsOf current (String c text)
  = if Ascii.eqb c comma
    then trim current :: fieldsOf EmptyString text
    else fieldsOf (current +:+ String c EmptyString) text.
Proof.
  unfold fieldsOf. cbn [split].
  pose proof (split_nonempty comma text) as Hne.
  destruct (Ascii.eqb c comma); destruct (split comma text) as [| h t]; try congruence.
  - rewrite append_empty, append_nil. reflexivity.
  - rewrite append_assoc, append_cons, append_nil. reflexivity.
Qed.

Lemma fieldsOf_nil (current : string) : fieldsOf current EmptyString = [trim current].
Proof. unfold fieldsOf. cbn [split map]. rewrite append_empty. reflexivity. Qed.

Lemma loop_plain (text : string) (result : list string) (current : string) :
  quoteFree text = true ->
  parseCSVLine_loop text result current false = result ++ fieldsOf current text.
Proof.
  revert result current. induction text as [| c text IH]; intros result current Hq.
  - rewrite fieldsOf_nil. reflexivity.
  - cbn [quoteFree] in Hq. apply andb_true_iff in Hq as [Hc Hq].
    apply negb_true_iff in Hc. cbn [parseCSVLine_loop]. rewrite Hc, fieldsOf_cons.
    destruct (Ascii.eqb c comma); cbn [andb negb]; rewrite (IH _ _ Hq).
    + rewrite <- app_assoc. reflexivity.
    + reflexivity.
Qed.

Lemma loop_plain_comma (text rest : string) (result : list string) (current : string) :
  quoteFree text = true ->
  parseCSVLine_loop (text +:+ String comma rest) result current false
  = parseCSVLine_loop rest (result ++ fieldsOf current text) EmptyString false.
Proof.
  revert result current. induction text as [| c text IH]; intros result current Hq.
  - rewrite fieldsOf_nil, append_nil. cbn [parseCSVLine_loop].
    replace (Ascii.eqb comma dquote) with false by reflexivity.
    rewrite Ascii.eqb_refl. reflexivity.
  - cbn [quoteFree] in Hq. apply andb_true_iff in Hq as [Hc Hq].
    apply negb_true_iff in Hc. rewrite append_cons. cbn [parseCSVLine_loop].
    rewrite Hc, fieldsOf_cons.
    destruct (Ascii.eqb c comma); cbn [andb negb]; rewrite (IH _ _ Hq).
    + rewrite <- app_assoc. reflexivity.
    + reflexivity.
Qed.

Lemma loop_quoted (s rest : string) (result : list string) (current : string) :
  quoteFree s = true ->
  startsWith rest (String dquote EmptyString) = false ->
  parseCSVLine_loop (s +:+ String dquote rest) result current true
  = parseCSVLine_loop rest result (current +:+ s) false.
Proof.
  revert current. induction s as [| c s IH]; intros current Hq Hrest.
  - rewrite append_nil, append_empty. cbn [parseCSVLine_loop]. rewrite Ascii.eqb_refl.
    destruct rest as [| c' rest']; [reflexivity |].
    cbn [startsWith] in Hrest. rewrite Ascii.eqb_sym.
    destruct (Ascii.eqb dquote c'); [destruct rest'; discriminate | reflexivity].
  - cbn [quoteFree] in Hq. apply andb_true_iff in Hq as [Hc Hq].
    apply negb_true_iff in Hc. rewrite append_cons. cbn [parseCSVLine_loop]. rewrite Hc.
    rewrite andb_false_r. rewrite (IH _ Hq Hrest), append_assoc. reflexivity.
Qed.

(** X1. A line that holds no double quote is cut at every comma and each
    piece is trimmed: [parseCSVLine] returns the trimmed pieces of the
    line, one more than the line has commas. *)
Theorem X1_unquoted_line (line : string) :
  quoteFree line = true ->
  parseCSVLine line = map trim (split comma line)
  /\ List.length (parseCSVLine line)
     = S (List.length (List.filter (Ascii.eqb comma) (list_ascii_of_string line))).
Proof.
  intros Hq. unfold parseCSVLine. rewrite (loop_plain line [] EmptyString Hq).
  cbn [app]. unfold fieldsOf.
  pose proof (split_nonempty comma line) as Hne.
  assert (Hlen : List.length (split comma line)
                 = S (List.length (List.filter (Ascii.eqb comma) (list_ascii_of_string line)))).
  { clear. induction line as [| c line IH]; [reflexivity |].
    cbn [split list_ascii_of_string List.filter]. rewrite (Ascii.eqb_sym comma c).
    pose proof (split_nonempty comma line) as Hne.
    destruct (Ascii.eqb c comma); cbn [List.length]; [rewrite IH; reflexivity |].
    destruct (split comma line) as [| h t]; [congruence |]. exact IH. }
  destruct (split comma line) as [| h t]; [congruence |].
  rewrite append_nil. split; [reflexivity |].
  rewrite <- Hlen. cbn [List.length map]. rewrite length_map. reflexivity.
Qed.

Lemma X1_unquoted_line_witness :
  quoteFree "Legs, 2025-01-02 ,Squat,100,5" = true
  /\ parseCSVLine "Legs, 2025-01-02 ,Squat,100,5"
     = ["Legs"; "2025-01-02"; "Squat"; "100"; "5"]
  /\ List.length (parseCSVLine "Legs, 2025-01-02 ,Squat,100,5") = 5%nat.
Proof.
  split; [reflexivity |].
  destruct (X1_unquoted_line "Legs, 2025-01-02 ,Squat,100,5" eq_refl) as [H1 H2].
  split; [rewrite H1; reflexivity | rewrite H2; reflexivity].
Defined.

Lemma quoted_then (s rest : string) :
  quoted s +:+ rest = String dquote (s +:+ String dquote rest).
Proof. unfold quoted. rewrite append_cons, append_assoc. reflexivity. Qed.

(** X2. A quoted field keeps its commas.  Between unquoted text, a
    non-empty field written in double quotes and holding none itself gives
    one value, its content without the quotes and trimmed; the text before
    and after it is cut at its commas as usual. *)
Theorem X2_quoted_field (a s b : string) :
  quoteFree a = true -> quoteFree s = true -> quoteFree b = true ->
  s <> EmptyString ->
  parseCSVLine (a +:+ String comma (quoted s +:+ String comma b))
  = fieldsOf EmptyString a ++ [trim s] ++ fieldsOf EmptyString b.
Proof.
  intros Ha Hs Hb Hne. unfold parseCSVLine.
  rewrite (loop_plain_comma a _ [] EmptyString Ha). cbn [app].
  rewrite quoted_then.
  destruct s as [| c s']; [congruence |].
  pose proof Hs as Hs'. cbn [quoteFree] in Hs'. apply andb_true_iff in Hs' as [Hc Hs'].
  apply negb_true_iff in Hc.
  rewrite append_cons. cbn [parseCSVLine_loop]. rewrite Ascii.eqb_refl, Hc. cbn [negb].
  rewrite andb_false_r.
  rewrite (loop_quoted s' (String comma b) _ _ Hs' eq_refl).
  rewrite append_nil, append_cons, append_nil. cbn [parseCSVLine_loop].
  replace (Ascii.eqb comma dquote) with false by reflexivity.
  rewrite Ascii.eqb_refl. cbn [andb negb].
  rewrite (loop_plain b _ EmptyString Hb), <- app_assoc. reflexivity.
Qed.

Lemma X2_quoted_field_witness :
  parseCSVLine ("Legs" +:+ String comma (quoted "Squat, high bar" +:+ String comma "100,5"))
  = ["Legs"; "Squat, high bar"; "100"; "5"].
Proof.
  rewrite (X2_quoted_field "Legs" "Squat, high bar" "100,5" eq_refl eq_refl eq_refl);
    [reflexivity | discriminate].
Defined.

Lemma loop_empty_quotes (rest : string) (result : list string) (current : string)
      (inQuotes : bool) :
  parseCSVLine_loop (String dquote (String dquote rest)) result current inQuotes
  = parseCSVLine_loop rest result (current +:+ String dquote EmptyString) inQuotes.
Proof. cbn [parseCSVLine_loop]. rewrite Ascii.eqb_refl. reflexivity. Qed.

Lemma isWhite_dquote : isWhite dquote = false.
Proof. reflexivity. Qed.

Lemma trimEnd_idem (s : string) : trimEnd (trimEnd s) = trimEnd s.
Proof.
  induction s as [| c s IH]; [reflexivity |]. cbn [trimEnd].
  destruct (trimEnd s) as [| d t] eqn:E.
  - destruct (isWhite c) eqn:W; [reflexivity |]. cbn [trimEnd]. rewrite W. reflexivity.
  - cbn [trimEnd] in *. rewrite IH. reflexivity.
Qed.

Lemma trimEnd_head (c : ascii) (s : string) :
  isWhite c = false -> exists t, trimEnd (String c s) = String c t.
Proof.
  intros W. cbn [trimEnd]. destruct (trimEnd s) as [| d t]; rewrite ?W; eauto.
Qed.

Lemma trimStart_head (s : string) :
  trimStart s = EmptyString
  \/ exists c t, trimStart s = String c t /\ isWhite c = false.
Proof.
  induction s as [| c s IH]; [left; reflexivity |]. cbn [trimStart].
  destruct (isWhite c) eqn:W; [exact IH | right; eauto].
Qed.

Lemma trim_idem (s : string) : trim (trim s) = trim s.
Proof.
  unfold trim. destruct (trimStart_head s) as [E | (c & t & E & W)]; rewrite E.
  - reflexivity.
  - destruct (trimEnd_head c t W) as [u Hu]. rewrite Hu.
    cbn [trimStart]. rewrite W, <- Hu. apply trimEnd_idem.
Qed.

(** X3. What [cleanString] returns is the trimmed cell, and it is never
    empty and never a lone double quote; cleaning a cleaned value changes
    nothing.  The lone double quote is what [parseCSVLine] yields for a cell
    written as two double quotes, since the pair is read as an escaped quote,
    and [cleanString] turns it into null. *)
Theorem X3_cleanString :
  (forall (val : option string) (t : string),
      cleanString val = Some t ->
      t <> EmptyString /\ t <> String dquote EmptyString /\ trim t = t
      /\ exists s, val = Some s /\ t = trim s)
  /\ (forall val : option string, cleanString (cleanString val) = cleanString val)
  /\ (forall (a b : string),
         quoteFree a = true -> quoteFree b = true ->
         parseCSVLine (a +:+ String comma (quoted EmptyString +:+ String comma b))
         = fieldsOf EmptyString a ++ [String dquote EmptyString] ++ fieldsOf EmptyString b)
  /\ cleanString (Some (String dquote EmptyString)) = None.
Proof.
  assert (Hsome : forall val t, cleanString val = Some t ->
             t <> EmptyString /\ t <> String dquote EmptyString /\ trim t = t
             /\ exists s, val = Some s /\ t = trim s).
  { intros [[| c s] |] t; cbn [cleanString]; try discriminate.
    destruct (String.eqb (trim (String c s)) EmptyString) eqn:E1; [discriminate |].
    destruct (String.eqb (trim (String c s)) (String dquote EmptyString)) eqn:E2;
      [discriminate |].
    cbn [orb]. intros [= <-].
    apply String.eqb_neq in E1, E2.
    repeat split; [exact E1 | exact E2 | apply trim_idem | eauto]. }
  split; [exact Hsome |]. split; [| split].
  - intros val. destruct (cleanString val) as [t |] eqn:E; [| reflexivity].
    destruct (Hsome val t E) as (H1 & H2 & H3 & _).
    destruct t as [| c t']; [congruence |]. cbn [cleanString]. rewrite H3.
    apply String.eqb_neq in H1, H2. rewrite H1, H2. reflexivity.
  - intros a b Ha Hb. unfold parseCSVLine.
    rewrite (loop_plain_comma a _ [] EmptyString Ha). cbn [app].
    rewrite quoted_then, append_nil.
    rewrite loop_empty_quotes, append_nil. cbn [parseCSVLine_loop].
    replace (Ascii.eqb comma dquote) with false by reflexivity.
    rewrite Ascii.eqb_refl. cbn [andb negb].
    rewrite (loop_plain b _ EmptyString Hb), <- app_assoc. reflexivity.
  - reflexivity.
Qed.

Lemma X3_cleanString_witness :
  (cleanString (Some "  warm up ") = Some "warm up"
   /\ trim "warm up" = "warm up")
  /\ parseCSVLine ("Legs" +:+ String comma (quoted EmptyString +:+ String comma "5"))
     = ["Legs"; String dquote EmptyString; "5"].
Proof.
  destruct X3_cleanString as (H1 & _ & H3 & _).
  split.
  - split; [reflexivity |].
    destruct (H1 (Some "  warm up ") "warm up" eq_refl) as (_ & _ & Ht & _). exact Ht.
  - rewrite (H3 "Legs" "5" eq_refl eq_refl). reflexivity.
Defined.

End Lines.

(** *** Validation, case by case *)

(** X4. The outcomes of [validateCSVFile], in the order of its checks: a
    name that does not end in .csv gives the first message whatever the rest;
    behind it a size over 10 MiB gives the second; behind both a file that
    cannot be read gives the reader's message.  The function returns [true]
    exactly for a readable file with such a name and size whose lower-cased
    first line contains weight_kg and not weight_lbs, and it never returns
    [false]. *)
Theorem X4_validation_cases :
  (forall file : File,
      endsWith (toLowerCase (name file)) ".csv" = false ->
      validateCSVFile file = inl notCSVMessage)
  /\ (forall file : File,
         endsWith (toLowerCase (name file)) ".csv" = true ->
         10 * 1024 * 1024 < size file ->
         validateCSVFile file = inl tooLargeMessage)
  /\ (forall file : File,
         endsWith (toLowerCase (name file)) ".csv" = true ->
         size file <= 10 * 1024 * 1024 ->
         text file = None ->
         validateCSVFile file = inl "Failed to read file")
  /\ (forall file : File,
         validateCSVFile file = inr true
         <-> endsWith (toLowerCase (name file)) ".csv" = true
             /\ size file <= 10 * 1024 * 1024
             /\ exists content,
                 text file = Some content
                 /\ includes (firstLineOf content) "weight_lbs" = false
                 /\ includes (firstLineOf content) "weight_kg" = true)
  /\ (forall file : File, validateCSVFile file <> inr false).
Proof.
  split; [| split; [| split; [| split]]].
  - intros file H. unfold validateCSVFile. rewrite H. reflexivity.
  - intros file H Hs. unfold validateCSVFile. rewrite H. cbn [negb].
    replace (size file >? 10 * 1024 * 1024) with true
      by (symmetry; apply Z.gtb_lt; exact Hs).
    reflexivity.
  - intros file H Hs Ht. unfold validateCSVFile, readCSVFile. rewrite H, Ht. cbn [negb].
    replace (size file >? 10 * 1024 * 1024) with false
      by (symmetry; rewrite Z.gtb_ltb; apply Z.ltb_ge; exact Hs).
    reflexivity.
  - intros file. unfold validateCSVFile, readCSVFile. split.
    + destruct (endsWith (toLowerCase (name file)) ".csv"); [| discriminate]. cbn [negb].
      destruct (size file >? 10 * 1024 * 1024) eqn:Hs; [discriminate |].
      destruct (text file) as [content |]; [| discriminate].
      destruct (includes (firstLineOf content) "weight_lbs") eqn:Hl; [discriminate |].
      destruct (includes (firstLineOf content) "weight_kg") eqn:Hk; [| discriminate].
      intros _. split; [reflexivity |].
      split; [rewrite Z.gtb_ltb in Hs; apply Z.ltb_ge in Hs; exact Hs |].
      exists content. repeat split; assumption.
    + intros (Hn & Hs & content & Ht & Hl & Hk). rewrite Hn, Ht. cbn [negb].
      replace (size file >? 10 * 1024 * 1024) with false
        by (symmetry; rewrite Z.gtb_ltb; apply Z.ltb_ge; exact Hs).
      rewrite Hl, Hk. reflexivity.
  - intros file. unfold validateCSVFile, readCSVFile.
    destruct (negb (endsWith (toLowerCase (name file)) ".csv")); [discriminate |].
    destruct (size file >? 10 * 1024 * 1024); [discriminate |].
    destruct (text file) as [content |]; [| discriminate].
    destruct (includes (firstLineOf content) "weight_lbs"); [discriminate |].
    destruct (includes (firstLineOf content) "weight_kg"); discriminate.
Qed.

Lemma X4_validation_cases_witness :
  validateCSVFile poundsTextFile = inl notCSVMessage
  /\ validateCSVFile largeFile = inl tooLargeMessage
  /\ validateCSVFile unreadableFile = inl "Failed to read file"
  /\ validateCSVFile kgFile = inr true.
Proof.
  destruct X4_validation_cases as (H1 & H2 & H3 & H4 & _).
  split; [exact (H1 poundsTextFile eq_refl) |].
  split; [apply (H2 largeFile eq_refl); vm_compute; reflexivity |].
  split; [apply (H3 unreadableFile eq_refl); [vm_compute; discriminate | reflexivity] |].
  apply (H4 kgFile).
  split; [reflexivity |]. split; [vm_compute; discriminate |].
  exists twoWorkoutsCsv. split; [reflexivity |]. split; reflexivity.
Defined.

(** *** Invariants of the workouts the builder holds *)

Section MapInvariants.

Context {V : Type}.

Lemma mapGet_set_ne (m : Map V) (k k' : string) (v : V) :
  k' <> k -> mapGet (mapSet m k v) k' = mapGet m k'.
Proof.
  intros Hne. induction m as [| [k0 v0] m IH]; cbn.
  - destruct (String.eqb k k') eqn:E; [apply String.eqb_eq in E; congruence | reflexivity].
  - destruct (String.eqb k0 k) eqn:E; cbn.
    + apply String.eqb_eq in E. subst k0.
      destruct (String.eqb k k') eqn:E'; [apply String.eqb_eq in E'; congruence | reflexivity].
    + rewrite IH. reflexivity.
Qed.

Lemma mapValues_set_Forall (P : V -> Prop) (m : Map V) (k : string) (v : V) :
  Forall P (mapValues m) -> P v -> Forall P (mapValues (mapSet m k v)).
Proof.
  intros Hm Hv. induction m as [| [k0 v0] m IH]; cbn.
  - constructor; [exact Hv | constructor].
  - cbn in Hm. apply Forall_cons in Hm as [H0 Hm].
    destruct (String.eqb k0 k); cbn; constructor; auto.
Qed.

Lemma mapGet_Forall (P : V -> Prop) (m : Map V) (k : string) (v : V) :
  Forall P (mapValues m) -> mapGet m k = Some v -> P v.
Proof.
  intros Hm. induction m as [| [k0 v0] m IH]; cbn; [discriminate |].
  cbn in Hm. apply Forall_cons in Hm as [H0 Hm].
  destruct (String.eqb k0 k); [intros [= <-]; exact H0 | exact (IH Hm)].
Qed.

Lemma natSum_set_some (f : V -> nat) (m : Map V) (k : string) (v w : V) :
  mapGet m k = Some w ->
  (natSum f (mapValues (mapSet m k v)) + f w = natSum f (mapValues m) + f v)%nat.
Proof.
  induction m as [| [k0 v0] m IH]; cbn [mapGet mapSet]; [discriminate |].
  destruct (String.eqb k0 k).
  - intros [= <-]. change (f v + natSum f (mapValues m) + f v0
                           = f v0 + natSum f (mapValues m) + f v)%nat. lia.
  - intros H. specialize (IH H).
    change (f v0 + natSum f (mapValues (mapSet m k v)) + f w
            = f v0 + natSum f (mapValues m) + f v)%nat. lia.
Qed.

Lemma natSum_set_none (f : V -> nat) (m : Map V) (k : string) (v : V) :
  mapGet m k = None ->
  natSum f (mapValues (mapSet m k v)) = (natSum f (mapValues m) + f v)%nat.
Proof.
  induction m as [| [k0 v0] m IH]; cbn [mapGet mapSet].
  - intros _. change (f v + 0 = 0 + f v)%nat. lia.
  - destruct (String.eqb k0 k); [discriminate |].
    intros H. specialize (IH H).
    change (f v0 + natSum f (mapValues (mapSet m k v))
            = f v0 + natSum f (mapValues m) + f v)%nat. lia.
Qed.

End MapInvariants.

Lemma natSum_perm {A} (f : A -> nat) (l l' : list A) :
  Permutation l l' -> natSum f l = natSum f l'.
Proof. unfold natSum. induction 1; cbn [fold_right]; lia. Qed.

Lemma natSum_app {A} (f : A -> nat) (l l' : list A) :
  natSum f (l ++ l') = (natSum f l + natSum f l')%nat.
Proof.
  unfold natSum. induction l as [| x l IH]; cbn [app fold_right]; [reflexivity | lia].
Qed.

Section BuilderInvariants.

Variable clock : nat -> Z.
Variable dateParse : string -> option Z.

(** What [getOrCreateWorkout] does to the map: nothing, or one new workout
    without exercises and with volume zero, under the key of the row. *)
Lemma getOrCreateWorkout_cases (row : Row) (m : Map ParsedWorkout) (k : nat) :
  (mapHas m (workoutKey row) = true
   /\ getOrCreateWorkout clock dateParse row m k = (m, k))
  \/ (mapGet m (workoutKey row) = None
      /\ exists w k',
          getOrCreateWorkout clock dateParse row m k = (mapSet m (workoutKey row) w, k')
          /\ exercises w = []
          /\ estimated_volume_kg w = Some (Num 0)
          /\ title w = orDefault (field row "title") "Unnamed Workout"
          /\ description w = cleanString (field row "description")).
Proof.
  unfold getOrCreateWorkout. destruct (mapHas m (workoutKey row)) eqn:E.
  - left. split; reflexivity.
  - right. split.
    { unfold mapHas in E. destruct (mapGet m (workoutKey row)); [discriminate | reflexivity]. }
    destruct (parseDate clock dateParse (field row "start_time") (S k)) as [start k1].
    destruct (truthy (field row "end_time"));
      [destruct (parseDate clock dateParse (field row "end_time") k1) as [e k'] |];
      eexists; eexists; repeat split.
Qed.

(** The step of the loop, seen from the workout of the row: it is the
    workout found or created, updated with the set of the row. *)
Lemma processRow_cases (row : Row) (i k : nat) (m : Map ParsedWorkout) :
  (exists w,
      mapGet m (workoutKey row) = Some w
      /\ processRow clock dateParse row i (m, k)
         = (mapSet m (workoutKey row) (updateWorkout row (buildSet clock row i k) w), S k))
  \/ (mapGet m (workoutKey row) = None
      /\ exists w k',
          exercises w = [] /\ estimated_volume_kg w = Some (Num 0)
          /\ title w = orDefault (field row "title") "Unnamed Workout"
          /\ description w = cleanString (field row "description")
          /\ processRow clock dateParse row i (m, k)
             = (mapSet m (workoutKey row)
                  (updateWorkout row (buildSet clock row i k') w), S k')).
Proof.
  unfold processRow. cbn [fst snd].
  destruct (getOrCreateWorkout_cases row m k) as [[Hhas Hg] | (Hnone & w & k' & Hg & Hw)].
  - left. rewrite Hg. unfold mapHas in Hhas.
    destruct (mapGet m (workoutKey row)) as [w |] eqn:E; [| discriminate].
    exists w. split; reflexivity.
  - right. split; [exact Hnone |]. exists w, k'. rewrite Hg, mapGet_set.
    destruct Hw as (H1 & H2 & H3 & H4). repeat split; try assumption.
    f_equal. clear. induction m as [| [k0 v0] m IH]; cbn.
    + rewrite String.eqb_refl. reflexivity.
    + destruct (String.eqb k0 (workoutKey row)) eqn:E; cbn; rewrite E; [reflexivity |].
      rewrite IH. reflexivity.
Qed.

(** An invariant of the workouts in the map: it holds of a fresh workout and
    is kept when a set is put into a workout. *)
Lemma processRow_Forall (P : ParsedWorkout -> Prop) :
  (forall w, exercises w = [] -> estimated_volume_kg w = Some (Num 0) -> P w) ->
  (forall row s w, P w -> P (updateWorkout row s w)) ->
  forall row i st,
    Forall P (mapValues (fst st)) ->
    Forall P (mapValues (fst (processRow clock dateParse row i st))).
Proof.
  intros Hnew Hupd row i [m k] Hm. cbn [fst] in Hm.
  destruct (processRow_cases row i k m) as [(w & Hw & ->) | (_ & w & k' & H1 & H2 & _ & _ & ->)];
    cbn [fst]; apply mapValues_set_Forall; try assumption; apply Hupd.
  - exact (mapGet_Forall P m _ w Hm Hw).
  - apply Hnew; assumption.
Qed.

Lemma fold_rows_Forall (P : ParsedWorkout -> Prop) :
  (forall w, exercises w = [] -> estimated_volume_kg w = Some (Num 0) -> P w) ->
  (forall row s w, P w -> P (updateWorkout row s w)) ->
  forall rows st,
    Forall P (mapValues (fst st)) ->
    Forall P (mapValues (fst (fold_left
                                (fun st r => processRow clock dateParse (snd r) (fst r) st)
                                rows st))).
Proof.
  intros Hnew Hupd rows. induction rows as [| r rows IH]; intros st Hst;
    cbn [fold_left]; [exact Hst |].
  apply IH. apply processRow_Forall; assumption.
Qed.

Lemma parseCSV_values (csvContent : string) (workouts : list ParsedWorkout) :
  parseCSV clock dateParse csvContent = inr workouts ->
  Permutation workouts
    (mapValues (fst (fold_left
                       (fun st r => processRow clock dateParse (snd r) (fst r) st)
                       (rowsOf csvContent) ([], O)))).
Proof.
  unfold parseCSV, buildMap, rowsOf.
  destruct (split newline (trim csvContent)) as [| headerLine rest]; [discriminate |].
  destruct headerLine as [| c s]; [discriminate |].
  intros [= <-]. rewrite processLines_rows. apply sortBy_perm.
Qed.

Lemma parseCSV_Forall (P : ParsedWorkout -> Prop) :
  (forall w, exercises w = [] -> estimated_volume_kg w = Some (Num 0) -> P w) ->
  (forall row s w, P w -> P (updateWorkout row s w)) ->
  forall csvContent workouts,
    parseCSV clock dateParse csvContent = inr workouts -> Forall P workouts.
Proof.
  intros Hnew Hupd csvContent workouts Hparse.
  rewrite (parseCSV_values _ _ Hparse).
  apply fold_rows_Forall; [assumption | assumption | constructor].
Qed.

End BuilderInvariants.

(** *** Sets, volume and titles of the parsed workouts *)

Section RowEffects.

Lemma pushToFound_sets (row : Row) (s : ParsedSet) (exs exs' : list ParsedExercise) :
  pushToFound row s exs = Some exs' ->
  List.length (flat_map sets exs') = S (List.length (flat_map sets exs))
  /\ map exercise_title exs' = map exercise_title exs
  /\ (sumPresent (flat_map sets exs') == sumPresent (flat_map sets exs) + sumPresent [s])%Q.
Proof.
  revert exs'. induction exs as [| ex exs IH]; intros exs'; cbn [pushToFound];
    [discriminate |].
  destruct (sameTitle row ex).
  - intros [= <-]. cbn [flat_map pushSet sets map exercise_title].
    rewrite !length_app. cbn [List.length]. split; [lia |]. split; [reflexivity |].
    rewrite !sumPresent_app. ring.
  - destruct (pushToFound row s exs) as [rest' |]; [| discriminate].
    intros [= <-]. destruct (IH rest' eq_refl) as (H1 & H2 & H3).
    cbn [flat_map map]. rewrite !length_app, H1, H2. split; [lia |].
    split; [reflexivity |]. rewrite !sumPresent_app, H3. ring.
Qed.

Lemma pushToFound_none (row : Row) (s : ParsedSet) (exs : list ParsedExercise) :
  pushToFound row s exs = None <-> Forall (fun ex => sameTitle row ex = false) exs.
Proof.
  induction exs as [| ex exs IH]; cbn [pushToFound].
  - split; [constructor | reflexivity].
  - destruct (sameTitle row ex) eqn:E.
    + split; [discriminate |]. intros H. apply Forall_cons in H as [H _]. congruence.
    + destruct (pushToFound row s exs) as [rest' |].
      * split; [discriminate |]. intros H. apply Forall_cons in H as [_ H].
        apply IH in H. discriminate.
      * split; [| reflexivity]. intros _. constructor; [exact E | apply IH; reflexivity].
Qed.

Lemma updateWorkout_sets (row : Row) (s : ParsedSet) (w : ParsedWorkout) :
  setsIn (updateWorkout row s w) = S (setsIn w).
Proof.
  unfold setsIn, updateWorkout. cbn [exercises].
  destruct (pushToFound row s (exercises w)) as [exs' |] eqn:E.
  - exact (proj1 (pushToFound_sets _ _ _ _ E)).
  - rewrite flat_map_app, length_app. cbn. lia.
Qed.

End RowEffects.

Section ParsedWorkouts.

Variable clock : nat -> Z.
Variable dateParse : string -> option Z.

Lemma processRow_count (row : Row) (i : nat) (st : Map ParsedWorkout * nat) :
  natSum setsIn (mapValues (fst (processRow clock dateParse row i st)))
  = S (natSum setsIn (mapValues (fst st))).
Proof.
  destruct st as [m k]. cbn [fst].
  destruct (processRow_cases clock dateParse row i k m)
    as [(w & Hw & ->) | (Hnone & w & k' & H1 & _ & _ & _ & ->)]; cbn [fst].
  - pose proof (natSum_set_some setsIn m (workoutKey row)
                  (updateWorkout row (buildSet clock row i k) w) w Hw) as H.
    rewrite updateWorkout_sets in H. lia.
  - rewrite (natSum_set_none setsIn m _ _ Hnone), updateWorkout_sets.
    unfold setsIn at 2. rewrite H1. cbn. lia.
Qed.

Lemma fold_rows_count (rows : list (nat * Row)) (st : Map ParsedWorkout * nat) :
  natSum setsIn (mapValues (fst (fold_left
                                   (fun st r => processRow clock dateParse (snd r) (fst r) st)
                                   rows st)))
  = (natSum setsIn (mapValues (fst st)) + List.length rows)%nat.
Proof.
  revert st. induction rows as [| r rows IH]; intros st; cbn [fold_left List.length];
    [lia |].
  rewrite IH, processRow_count. lia.
Qed.

Lemma allSets_length (workouts : list Workout) :
  List.length (allSets workouts) = natSum setsIn workouts.
Proof.
  unfold allSets, natSum. induction workouts as [| w ws IH]; cbn [flat_map fold_right];
    [reflexivity |].
  rewrite length_app, IH. reflexivity.
Qed.

(** X5. Every row that reaches the loop body of [parseCSV] adds exactly
    one set: the sets of the returned workouts are as many as the non-empty
    lines after the header that have as many values as the header. *)
Theorem X5_one_set_per_row (csvContent : string) (workouts : list ParsedWorkout) :
  parseCSV clock dateParse csvContent = inr workouts ->
  List.length (allSets workouts) = List.length (rowsOf csvContent).
Proof.
  intros Hparse. rewrite allSets_length.
  rewrite (natSum_perm setsIn _ _ (parseCSV_values clock dateParse _ _ Hparse)).
  rewrite fold_rows_count. reflexivity.
Qed.

Lemma orDefault_nonempty (v : option string) (d : string) :
  d <> EmptyString -> orDefault v d <> EmptyString.
Proof. intros Hd. destruct v as [[| c s] |]; cbn; congruence. Qed.

Lemma filter_snoc {A} (p : A -> bool) (l : list A) (x : A) :
  List.filter p (l ++ [x]) = List.filter p l ++ (if p x then [x] else []).
Proof.
  induction l as [| y l IH]; cbn [app List.filter]; [destruct (p x); reflexivity |].
  rewrite IH. destruct (p y); reflexivity.
Qed.

Lemma updateWorkout_titles (row : Row) (s : ParsedSet) (w : ParsedWorkout) :
  Forall (fun t => t <> EmptyString) (map exercise_title (exercises w)) ->
  NoDup (namedTitles w) ->
  Forall (fun t => t <> EmptyString)
         (map exercise_title (exercises (updateWorkout row s w)))
  /\ NoDup (namedTitles (updateWorkout row s w)).
Proof.
  intros Hne Hnd. unfold namedTitles, updateWorkout in *. cbn [exercises].
  destruct (pushToFound row s (exercises w)) as [exs' |] eqn:E.
  - destruct (pushToFound_sets _ _ _ _ E) as (_ & Ht & _). rewrite Ht. split; assumption.
  - apply pushToFound_none in E. rewrite map_app. cbn [map pushSet exercise_title newExercise].
    split.
    + apply Forall_app. split; [exact Hne |]. constructor; [| constructor].
      apply orDefault_nonempty. discriminate.
    + rewrite filter_snoc.
      destruct (negb (String.eqb (orDefault (field row "exercise_title") "Unknown Exercise")
                                 "Unknown Exercise")) eqn:Hd;
        [| rewrite app_nil_r; exact Hnd].
      apply NoDup_app. repeat split; [exact Hnd | | apply NoDup_singleton].
      intros t Hin Hin'. apply list_elem_of_singleton in Hin'. subst t.
      apply list_elem_of_In, filter_In in Hin as [Hin _].
      apply in_map_iff in Hin as (ex & Hex & Hin).
      rewrite Forall_forall in E. specialize (E ex (proj2 (list_elem_of_In _ _) Hin)).
      unfold sameTitle in E.
      destruct (field row "exercise_title") as [[| c t] |]; cbn [orDefault] in *;
        try (cbn in Hd; discriminate).
      rewrite Hex, String.eqb_refl in E. discriminate.
Qed.

(** X7. In a parsed workout no exercise has an empty title, and no title
    other than the default one occurs twice.  A row without an exercise
    title never joins an existing exercise: it always appends a new exercise
    titled Unknown Exercise, so that title can repeat. *)
Theorem X7_exercise_titles :
  (forall (csvContent : string) (workouts : list ParsedWorkout),
      parseCSV clock dateParse csvContent = inr workouts ->
      Forall (fun w => Forall (fun t => t <> EmptyString)
                              (map exercise_title (exercises w))
                       /\ NoDup (namedTitles w)) workouts)
  /\ (forall (row : Row) (s : ParsedSet) (w : ParsedWorkout),
         truthy (field row "exercise_title") = false ->
         Forall (fun t => t <> EmptyString) (map exercise_title (exercises w)) ->
         exercises (updateWorkout row s w)
         = exercises w ++ [pushSet s (newExercise row w)]
         /\ exercise_title (pushSet s (newExercise row w)) = "Unknown Exercise").
Proof.
  split.
  - intros csvContent workouts Hparse.
    refine (parseCSV_Forall clock dateParse _ _ _ csvContent workouts Hparse).
    + intros w He _. unfold namedTitles. rewrite He. split; constructor.
    + intros row s w [H1 H2]. apply updateWorkout_titles; assumption.
  - intros row s w Hfalse Hne. unfold updateWorkout. cbn [exercises].
    assert (E : pushToFound row s (exercises w) = None).
    { apply pushToFound_none. rewrite Forall_forall. intros ex Hex.
      unfold sameTitle. destruct (field row "exercise_title") as [[| c t] |];
        [| discriminate | reflexivity].
      apply String.eqb_neq. rewrite Forall_forall in Hne. apply Hne.
      apply list_elem_of_In, in_map, list_elem_of_In, Hex. }
    rewrite E. split; [reflexivity |].
    cbn [pushSet exercise_title newExercise].
    destruct (field row "exercise_title") as [[| c t] |]; [reflexivity | discriminate | reflexivity].
Qed.

(** X8. A row changes the workout of its own key and no other.  If the
    workout exists, its id, title, start and end time and description stay as
    the first row of the key set them; if not, the new workout takes title
    and description from the row and holds the one set of the row. *)
Theorem X8_rows_touch_one_workout (row : Row) (i k : nat) (m : Map ParsedWorkout) :
  let m' := fst (processRow clock dateParse row i (m, k)) in
  (forall key, key <> workoutKey row -> mapGet m' key = mapGet m key)
  /\ (forall w, mapGet m (workoutKey row) = Some w ->
                exists w',
                  mapGet m' (workoutKey row) = Some w'
                  /\ id w' = id w /\ title w' = title w
                  /\ start_time w' = start_time w /\ end_time w' = end_time w
                  /\ description w' = description w)
  /\ (mapGet m (workoutKey row) = None ->
      exists w',
        mapGet m' (workoutKey row) = Some w'
        /\ title w' = orDefault (field row "title") "Unnamed Workout"
        /\ description w' = cleanString (field row "description")
        /\ setsIn w' = 1%nat).
Proof.
  intros m'. subst m'.
  destruct (processRow_cases clock dateParse row i k m)
    as [(w & Hw & ->) | (Hnone & w & k' & H1 & H2 & H3 & H4 & ->)]; cbn [fst].
  - split; [intros key Hkey; apply mapGet_set_ne; exact Hkey |]. split.
    + intros w0 Hw0. rewrite Hw in Hw0. injection Hw0 as <-.
      eexists. split; [apply mapGet_set |]. repeat split.
    + intros Hnone. congruence.
  - split; [intros key Hkey; apply mapGet_set_ne; exact Hkey |]. split.
    + intros w0 Hw0. congruence.
    + intros _. eexists. split; [apply mapGet_set |].
      split; [exact H3 | split; [exact H4 |]].
      rewrite updateWorkout_sets. unfold setsIn. rewrite H1. reflexivity.
Qed.

End ParsedWorkouts.

Lemma X5_one_set_per_row_witness :
  exists workouts,
    parseCSV sampleClock sampleDates twoWorkoutsCsv = inr workouts
    /\ List.length (allSets workouts) = 3%nat.
Proof.
  assert (Hparse : { ws | parseCSV sampleClock sampleDates twoWorkoutsCsv = inr ws }).
  { eexists. vm_compute. reflexivity. }
  destruct Hparse as (ws & Hparse). exists ws. split; [exact Hparse |].
  rewrite (X5_one_set_per_row sampleClock sampleDates twoWorkoutsCsv ws Hparse).
  reflexivity.
Defined.

Lemma X7_exercise_titles_witness :
  (exists workouts,
      parseCSV sampleClock sampleDates twoWorkoutsCsv = inr workouts
      /\ Forall (fun w => Forall (fun t => t <> EmptyString)
                                 (map exercise_title (exercises w))
                          /\ NoDup (namedTitles w)) workouts)
  /\ map exercise_title
         (exercises (updateWorkout [("title", "Legs")] (liftSet 100 5)
                       (workoutAt dec16 [exerciseOf "Squat" []])))
     = ["Squat"; "Unknown Exercise"].
Proof.
  destruct (X7_exercise_titles sampleClock sampleDates) as (H1 & H2).
  split.
  - assert (Hparse : { ws | parseCSV sampleClock sampleDates twoWorkoutsCsv = inr ws }).
    { eexists. vm_compute. reflexivity. }
    destruct Hparse as (ws & Hparse). exists ws. split; [exact Hparse |].
    exact (H1 twoWorkoutsCsv ws Hparse).
  - destruct (H2 [("title", "Legs")] (liftSet 100 5)
                 (workoutAt dec16 [exerciseOf "Squat" []]) eq_refl) as [He Ht].
    + constructor; [discriminate | constructor].
    + rewrite He, map_app. cbn [map]. rewrite Ht. reflexivity.
Defined.

Lemma X8_rows_touch_one_workout_witness :
  (exists w',
      mapGet (fst (processRow sampleClock sampleDates
                     [("title", "Legs"); ("start_time", "2025-01-02")] 1
                     ([("Legs_2025-01-02", workoutAt dec16 [])], O)))
             "Legs_2025-01-02" = Some w'
      /\ start_time w' = dec16)
  /\ mapGet (fst (processRow sampleClock sampleDates
                    [("title", "Legs"); ("start_time", "2025-01-02")] 1
                    ([("Push_2025-01-03", workoutAt dec16 [])], O)))
            "Push_2025-01-03" = Some (workoutAt dec16 [])
  /\ exists w',
      mapGet (fst (processRow sampleClock sampleDates
                     [("title", "Legs"); ("start_time", "2025-01-02")] 1 ([], O)))
             "Legs_2025-01-02" = Some w'
      /\ title w' = "Legs" /\ setsIn w' = 1%nat.
Proof.
  split; [| split].
  - pose proof (X8_rows_touch_one_workout sampleClock sampleDates
                  [("title", "Legs"); ("start_time", "2025-01-02")] 1%nat O
                  [("Legs_2025-01-02", workoutAt dec16 [])]) as H.
    cbv zeta in H. destruct H as (_ & H & _).
    destruct (H (workoutAt dec16 []) eq_refl) as (w' & Hget & _ & _ & Hs & _).
    exists w'. split; [exact Hget | exact Hs].
  - pose proof (X8_rows_touch_one_workout sampleClock sampleDates
                  [("title", "Legs"); ("start_time", "2025-01-02")] 1%nat O
                  [("Push_2025-01-03", workoutAt dec16 [])]) as H.
    cbv zeta in H. destruct H as (H & _ & _).
    refine (eq_trans (H "Push_2025-01-03" _) _); [| reflexivity].
    intros E. vm_compute in E. discriminate E.
  - pose proof (X8_rows_touch_one_workout sampleClock sampleDates
                  [("title", "Legs"); ("start_time", "2025-01-02")] 1%nat O []) as H.
    cbv zeta in H. destruct H as (_ & _ & H).
    destruct (H eq_refl) as (w' & Hget & Ht & _ & Hn).
    exists w'. split; [exact Hget |]. split; [exact Ht | exact Hn].
Defined.

(** *** Average volume *)




(** *** Ranking of the exercises *)

Section Ranking.

Lemma fold_left_flat_map {A B S} (f : S -> B -> S) (g : A -> list B) (l : list A) (s : S) :
  fold_left (fun acc x => fold_left f (g x) acc) l s = fold_left f (flat_map g l) s.
Proof.
  revert s. induction l as [| x l IH]; intros s; cbn [fold_left flat_map]; [reflexivity |].
  rewrite fold_left_app. apply IH.
Qed.















End Ranking.





(** *** The record timeline *)

Section Timeline.

Lemma isoDate_None (ms : Z) : isoDate ms = None <-> maxTime < Z.abs ms.
Proof.
  unfold isoDate. destruct (Z.abs ms <=? maxTime) eqn:E.
  - apply Z.leb_le in E. destruct (civil (ms / 86400000)) as [[y m] d].
    split; [discriminate | lia].
  - apply Z.leb_gt in E. split; [intros _; exact E | reflexivity].
Qed.

Lemma inDateRange_isoDate (w : Workout) :
  inDateRange w = false <-> isoDate (start_time w * 1000) = None.
Proof.
  unfold inDateRange. rewrite isoDate_None, Z.leb_gt. reflexivity.
Qed.

Lemma trackAll_inl (keyOf : Z -> option string) (l : list Workout)
      (prs : gmap string PRs) (byKey : Map nat) :
  (exists e, trackAll keyOf l prs byKey = inl e)
  <-> Exists (fun w => keyOf (start_time w * 1000) = None) l.
Proof.
  revert prs byKey. induction l as [| w l IH]; intros prs byKey; cbn [trackAll].
  - split; [intros [e H]; discriminate | intros H; inversion H].
  - destruct (keyOf (start_time w * 1000)) as [key |] eqn:E.
    + destruct (trackWorkout prs w) as [m n]. rewrite IH. split.
      * intros H. right. exact H.
      * intros H. apply Exists_cons in H as [H | H]; [congruence | exact H].
    + split; [intros _; left; exact E | intros _; eauto].
Qed.

Lemma trackAll_error (keyOf : Z -> option string) (l : list Workout)
      (prs : gmap string PRs) (byKey : Map nat) (e : string) :
  trackAll keyOf l prs byKey = inl e -> e = rangeError.
Proof.
  revert prs byKey. induction l as [| w l IH]; intros prs byKey; cbn [trackAll];
    [discriminate |].
  destruct (keyOf (start_time w * 1000)) as [key |]; [| congruence].
  destruct (trackWorkout prs w) as [m n]. apply IH.
Qed.

End Timeline.

(** X12. [calculatePRsOverTime] throws exactly when some workout has a
    start time that no [Date] can hold, and then with the RangeError of
    [toISOString]; it checks every workout, also those without sets.
    [calculateCSVStats] fails in exactly the same cases. *)
Theorem X12_timeline_range_error (workouts : list Workout) :
  (calculatePRsOverTime workouts = inl rangeError
   <-> Exists (fun w => inDateRange w = false) workouts)
  /\ (Forall (fun w => inDateRange w = true) workouts ->
      exists timeline, calculatePRsOverTime workouts = inr timeline)
  /\ (forall e, calculatePRsOverTime workouts = inl e -> e = rangeError)
  /\ ((exists e, calculateCSVStats workouts = inl e)
      <-> Exists (fun w => inDateRange w = false) workouts).
Proof.
  assert (Hex : (exists e, trackAll isoDate (sortBy oldestFirst workouts) ∅ [] = inl e)
                <-> Exists (fun w => inDateRange w = false) workouts).
  { rewrite trackAll_inl.
    rewrite (Exists_exists (fun w => isoDate _ = None)), (Exists_exists (fun w => inDateRange w = false)).
    split; intros (w & Hin & Hw); exists w; split.
    - apply list_elem_of_In. apply list_elem_of_In in Hin.
      exact (Permutation_in _ (sortBy_perm oldestFirst workouts) Hin).
    - apply inDateRange_isoDate, Hw.
    - apply list_elem_of_In. apply list_elem_of_In in Hin.
      exact (Permutation_in _ (Permutation_sym (sortBy_perm oldestFirst workouts)) Hin).
    - apply inDateRange_isoDate, Hw. }
  assert (Herr : forall e, calculatePRsOverTime workouts = inl e -> e = rangeError).
  { intros e. unfold calculatePRsOverTime.
    destruct (trackAll isoDate (sortBy oldestFirst workouts) ∅ []) as [e' | tl] eqn:E;
      [| discriminate].
    intros [= <-]. exact (trackAll_error _ _ _ _ _ E). }
  assert (Hiff : (exists e, calculatePRsOverTime workouts = inl e)
                 <-> Exists (fun w => inDateRange w = false) workouts).
  { rewrite <- Hex. unfold calculatePRsOverTime.
    destruct (trackAll isoDate (sortBy oldestFirst workouts) ∅ []) as [e' | tl];
      split; intros [e H]; try discriminate; eauto. }
  split; [| split; [| split]].
  - rewrite <- Hiff. split; [eauto |]. intros [e H]. rewrite H. f_equal. exact (Herr e H).
  - intros Hall. destruct (calculatePRsOverTime workouts) as [e | tl] eqn:E; [| eauto].
    exfalso. assert (Hx : Exists (fun w => inDateRange w = false) workouts)
      by (apply Hiff; eauto).
    apply Exists_exists in Hx as (w & Hin & Hw). rewrite Forall_forall in Hall.
    specialize (Hall w Hin). cbn in Hall. congruence.
  - exact Herr.
  - rewrite <- Hiff. unfold calculateCSVStats.
    destruct (calculatePRsOverTime workouts) as [e | tl];
      split; intros [e' H]; try discriminate; eauto.
Qed.

Lemma X12_timeline_range_error_witness :
  calculatePRsOverTime [monday; beyondTime] = inl rangeError
  /\ exists timeline, calculatePRsOverTime [monday; tuesday] = inr timeline.
Proof.
  split.
  - apply (proj1 (X12_timeline_range_error [monday; beyondTime])).
    apply Exists_cons_tl, Exists_cons_hd. reflexivity.
  - apply (proj1 (proj2 (X12_timeline_range_error [monday; tuesday]))).
    constructor; [reflexivity |]. constructor; [reflexivity | constructor].
Defined.

Section TimelineShape.

Lemma mapSet_Forall_pairs {V} (P : string * V -> Prop) (m : Map V) (k : string) (v : V) :
  Forall P m -> P (k, v) -> Forall P (mapSet m k v).
Proof.
  intros Hm Hv. induction m as [| [k0 v0] m IH]; cbn [mapSet].
  - constructor; [exact Hv | constructor].
  - apply Forall_cons in Hm as [H0 Hm].
    destruct (String.eqb k0 k) eqn:E.
    + apply String.eqb_eq in E. subst k0. constructor; assumption.
    + constructor; auto.
Qed.

Lemma addPRs_good (keyOf : Z -> option string) (ws : list Workout) (byKey : Map nat)
      (w : Workout) (key : string) (n : nat) :
  In w ws -> keyOf (start_time w * 1000) = Some key ->
  goodCounts keyOf ws byKey -> goodCounts keyOf ws (addPRs byKey key n).
Proof.
  intros Hin Hkey [Hnd Hall]. destruct n as [| n]; cbn [addPRs]; [split; assumption |].
  split.
  - rewrite mapKeys_set. apply addKey_NoDup, Hnd.
  - apply mapSet_Forall_pairs; [exact Hall |]. cbn [fst snd]. split; [lia | eauto].
Qed.

Lemma trackAll_good (keyOf : Z -> option string) (ws l : list Workout)
      (prs : gmap string PRs) (byKey result : Map nat) :
  (forall w, In w l -> In w ws) ->
  goodCounts keyOf ws byKey ->
  trackAll keyOf l prs byKey = inr result -> goodCounts keyOf ws result.
Proof.
  revert prs byKey. induction l as [| w l IH]; intros prs byKey Hsub Hgood;
    cbn [trackAll].
  - intros [= <-]. exact Hgood.
  - destruct (keyOf (start_time w * 1000)) as [key |] eqn:E; [| discriminate].
    destruct (trackWorkout prs w) as [m n]. apply IH.
    + intros w' Hw'. apply Hsub. right. exact Hw'.
    + apply (addPRs_good keyOf ws byKey w); [apply Hsub; left; reflexivity | exact E | exact Hgood].
Qed.

Lemma natSum_pairs_set (m : Map nat) (k : string) (n : nat) :
  natSum snd (mapSet m k (match mapGet m k with Some c => c | None => O end + n)%nat)
  = (natSum snd m + n)%nat.
Proof.
  unfold natSum. induction m as [| [k0 v0] m IH]; cbn [mapGet mapSet fold_right snd].
  - lia.
  - destruct (String.eqb k0 k); cbn [fold_right snd]; [lia | rewrite IH; lia].
Qed.

Lemma trackAll_sum (keyOf : Z -> option string) (l : list Workout)
      (prs : gmap string PRs) (byKey result : Map nat) :
  trackAll keyOf l prs byKey = inr result ->
  natSum snd result = (natSum snd byKey + countEvents l prs)%nat.
Proof.
  revert prs byKey. induction l as [| w l IH]; intros prs byKey;
    cbn [trackAll countEvents].
  - intros [= <-]. lia.
  - destruct (keyOf (start_time w * 1000)) as [key |]; [| discriminate].
    destruct (trackWorkout prs w) as [m n]. cbn [fst snd]. intros H.
    rewrite (IH _ _ H). destruct n as [| n]; cbn [addPRs]; [lia |].
    rewrite natSum_pairs_set. lia.
Qed.

Context {A : Type} (le : A -> A -> bool).
Hypothesis le_total : forall a b, le a b = false -> le b a = true.

Lemma insertBy_Sorted (x : A) (l : list A) :
  Sorted (fun a b => le a b = true) l -> Sorted (fun a b => le a b = true) (insertBy le x l).
Proof.
  induction l as [| y t IH]; intros Hs; cbn [insertBy].
  - repeat constructor.
  - destruct (le x y) eqn:E.
    + constructor; [exact Hs | constructor; exact E].
    + inversion Hs as [| ? ? Ht Hy]; subst. specialize (IH Ht).
      constructor; [exact IH |].
      destruct t as [| z t']; cbn [insertBy].
      * constructor. apply le_total, E.
      * destruct (le x z); constructor; [apply le_total, E |].
        inversion Hy; assumption.
Qed.

Lemma sortBy_Sorted (l : list A) : Sorted (fun a b => le a b = true) (sortBy le l).
Proof.
  induction l as [| x l IH]; cbn; [constructor | apply insertBy_Sorted, IH].
Qed.

End TimelineShape.

Lemma dateOrder_total (a b : string * nat) : dateOrder a b = false -> dateOrder b a = true.
Proof.
  unfold dateOrder. intros H.
  destruct (String.leb_total (fst a) (fst b)) as [H' | H']; [congruence | exact H'].
Qed.

(** X13. The timeline of [calculatePRsOverTime] has one entry per date;
    every count is positive and every date is the UTC date of one of the
    workouts.  When the workouts lie in the years 0000 to 9999, it is in
    ascending order of the date strings. *)
Theorem X13_timeline_shape (workouts : list Workout) (timeline : list (string * nat)) :
  calculatePRsOverTime workouts = inr timeline ->
  NoDup (map fst timeline)
  /\ (Forall (fun w => fourDigitYear w = true) workouts ->
      Sorted (fun a b => String.leb (fst a) (fst b) = true) timeline)
  /\ Forall (fun dc => (0 < snd dc)%nat
                       /\ exists w, In w workouts
                                    /\ isoDate (start_time w * 1000) = Some (fst dc))
            timeline.
Proof.
  unfold calculatePRsOverTime.
  destruct (trackAll isoDate (sortBy oldestFirst workouts) ∅ []) as [e | byDate] eqn:E;
    [discriminate |].
  intros [= <-].
  assert (Hgood : goodCounts isoDate workouts byDate).
  { refine (trackAll_good isoDate workouts _ _ _ _ _ _ E).
    - intros w Hw. exact (Permutation_in _ (sortBy_perm oldestFirst workouts) Hw).
    - split; constructor. }
  destruct Hgood as [Hnd Hall].
  pose proof (sortBy_perm dateOrder byDate) as Hperm.
  split; [| split].
  - rewrite (Permutation_map fst Hperm). exact Hnd.
  - intros _. exact (sortBy_Sorted dateOrder dateOrder_total byDate).
  - rewrite Hperm. exact Hall.
Qed.

Lemma X13_timeline_shape_witness :
  exists timeline,
    calculatePRsOverTime [tuesday; monday] = inr timeline
    /\ NoDup (map fst timeline)
    /\ Sorted (fun a b => String.leb (fst a) (fst b) = true) timeline.
Proof.
  assert (H : { tl | calculatePRsOverTime [tuesday; monday] = inr tl }).
  { eexists. vm_compute. reflexivity. }
  destruct H as (tl & H). exists tl. split; [exact H |].
  destruct (X13_timeline_shape [tuesday; monday] tl H) as (H1 & H2 & _).
  split; [exact H1 |]. apply H2.
  constructor; [reflexivity |]. constructor; [reflexivity | constructor].
Defined.

(** X14. Grouping does not change how many personal records are counted:
    the counts of [calculatePRsGrouped], for weeks or months and whatever the
    local week start, add up to the same number as the counts of
    [calculatePRsOverTime], the number of events met walking through the
    workouts from the oldest. *)
Theorem X14_events_whatever_the_grouping
        (weekStart : Z -> option string) (groupBy : GroupBy) (workouts : list Workout)
        (timeline : list (string * nat)) (grouped : Map nat) :
  calculatePRsOverTime workouts = inr timeline ->
  calculatePRsGrouped weekStart workouts groupBy = inr grouped ->
  natSum snd timeline = countEvents (sortBy oldestFirst workouts) ∅
  /\ natSum snd grouped = natSum snd timeline.
Proof.
  unfold calculatePRsOverTime, calculatePRsGrouped.
  destruct (trackAll isoDate (sortBy oldestFirst workouts) ∅ []) as [e | byDate] eqn:E;
    [discriminate |].
  intros [= <-] Hg.
  rewrite (natSum_perm snd _ _ (sortBy_perm dateOrder byDate)).
  rewrite (trackAll_sum _ _ _ _ _ E), (trackAll_sum _ _ _ _ _ Hg).
  split; reflexivity.
Qed.

Lemma X14_events_whatever_the_grouping_witness :
  exists timeline grouped,
    calculatePRsOverTime [monday; tuesday] = inr timeline
    /\ calculatePRsGrouped sampleWeek [monday; tuesday] week = inr grouped
    /\ natSum snd grouped = natSum snd timeline.
Proof.
  assert (H : { tl | calculatePRsOverTime [monday; tuesday] = inr tl }).
  { eexists. vm_compute. reflexivity. }
  assert (G : { g | calculatePRsGrouped sampleWeek [monday; tuesday] week = inr g }).
  { eexists. vm_compute. reflexivity. }
  destruct H as (tl & H). destruct G as (g & G). exists tl, g.
  split; [exact H |]. split; [exact G |].
  exact (proj2 (X14_events_whatever_the_grouping sampleWeek week [monday; tuesday] tl g H G)).
Defined.

(** *** Records only go up *)

Section Monotone.

Lemma below_refl (p : PRs) : below p p.
Proof. repeat split; apply Qle_refl. Qed.

Lemma below_trans (p q r : PRs) : below p q -> below q r -> below p r.
Proof.
  intros (H1 & H2 & H3) (H4 & H5 & H6).
  repeat split; eapply Qle_trans; eassumption.
Qed.

Lemma Qgtb_lt (a b : Q) : Qgtb a b = true -> (b <= a)%Q.
Proof.
  unfold Qgtb. intros H. apply negb_true_iff in H.
  apply Qlt_le_weak, Qnot_le_lt. intros Hle. apply Qle_bool_iff in Hle. congruence.
Qed.

Lemma checkSet_below (cur : PRs) (s : WorkoutSet) :
  below cur (fst (checkSet cur s))
  /\ (snd (checkSet cur s) <= 3)%nat
  /\ (snd (checkSet cur s) = O -> fst (checkSet cur s) = cur).
Proof.
  unfold checkSet. destruct cur as [m1 mw mr].
  set (w := orZero (weight_kg s)). set (r := orZero (reps s)).
  destruct (Qgtb w 0 && Qgtb r 0).
  - cbn [max1RM maxWeight maxReps].
    destruct (Qgtb (estimated1RM w r) m1) eqn:E1;
      cbn [set1RM setWeight setReps max1RM maxWeight maxReps];
      destruct (Qgtb w mw) eqn:E2;
      cbn [set1RM setWeight setReps max1RM maxWeight maxReps];
      destruct (Qgtb r mr) eqn:E3; cbn [fst snd];
      (split; [repeat split; cbn [max1RM maxWeight maxReps];
               first [apply Qle_refl | apply Qgtb_lt; assumption]
              | split; [lia | first [discriminate | reflexivity]]]).
  - destruct (Qgtb r 0 && Qeq_bool w 0); [| cbn; split; [apply below_refl | split; [lia | reflexivity]]].
    cbn [maxReps]. destruct (Qgtb r mr) eqn:E3; cbn [fst snd setReps];
      (split; [repeat split; cbn [max1RM maxWeight maxReps];
               first [apply Qle_refl | apply Qgtb_lt; assumption]
              | split; [lia | first [discriminate | reflexivity]]]).
Qed.

Lemma trackSets_below (cur : PRs) (ss : list WorkoutSet) :
  below cur (fst (trackSets cur ss))
  /\ (snd (trackSets cur ss) <= 3 * List.length ss)%nat.
Proof.
  revert cur. induction ss as [| s ss IH]; intros cur.
  - cbn. split; [apply below_refl | lia].
  - rewrite trackSets_cons. cbn [fst snd List.length].
    destruct (checkSet_below cur s) as (H1 & H2 & _).
    destruct (IH (fst (checkSet cur s))) as [H3 H4].
    split; [exact (below_trans _ _ _ H1 H3) | lia].
Qed.

Lemma trackExercise_count (prs : gmap string PRs) (ex : Exercise) :
  (snd (trackExercise prs ex) <= 3 * List.length (sets ex))%nat.
Proof. rewrite trackExercise_key. cbn [snd]. apply trackSets_below. Qed.

Lemma trackWorkout_count (prs : gmap string PRs) (w : Workout) :
  (snd (trackWorkout prs w) <= 3 * setsIn w)%nat.
Proof.
  unfold trackWorkout, setsIn.
  assert (H : forall exs st,
             (snd (fold_left (fun st ex => let '(m, n) := trackExercise (fst st) ex in
                                           (m, (snd st + n)%nat)) exs st)
              <= snd st + 3 * List.length (flat_map sets exs))%nat).
  { induction exs as [| ex exs IH]; intros st; cbn [fold_left flat_map]; [lia |].
    pose proof (trackExercise_count (fst st) ex) as Hc.
    destruct (trackExercise (fst st) ex) as [m n]. cbn [snd] in Hc.
    specialize (IH (m, (snd st + n)%nat)). cbn [snd] in IH.
    rewrite length_app. lia. }
  specialize (H (exercises w) (prs, O)). cbn [snd] in H. lia.
Qed.

Lemma countEvents_bound (l : list Workout) (prs : gmap string PRs) :
  (countEvents l prs <= 3 * natSum setsIn l)%nat.
Proof.
  revert prs. induction l as [| w l IH]; intros prs; cbn [countEvents]; [cbn; lia |].
  pose proof (trackWorkout_count prs w). specialize (IH (fst (trackWorkout prs w))).
  change (natSum setsIn (w :: l)) with (setsIn w + natSum setsIn l)%nat. lia.
Qed.

End Monotone.

(** X15. The tracked maxima never go down.  A set raises each of the three
    maxima or leaves it, counts at most three events, and counts none only if
    it leaves the maxima as they were; so a timeline never holds more than
    three events per set of the input. *)
Theorem X15_records_only_rise :
  (forall (cur : PRs) (s : WorkoutSet),
      (max1RM cur <= max1RM (fst (checkSet cur s)))%Q
      /\ (maxWeight cur <= maxWeight (fst (checkSet cur s)))%Q
      /\ (maxReps cur <= maxReps (fst (checkSet cur s)))%Q
      /\ (snd (checkSet cur s) <= 3)%nat
      /\ (snd (checkSet cur s) = O -> fst (checkSet cur s) = cur))
  /\ (forall (cur : PRs) (ss : list WorkoutSet),
         (max1RM cur <= max1RM (fst (trackSets cur ss)))%Q
         /\ (maxWeight cur <= maxWeight (fst (trackSets cur ss)))%Q
         /\ (maxReps cur <= maxReps (fst (trackSets cur ss)))%Q
         /\ (snd (trackSets cur ss) <= 3 * List.length ss)%nat)
  /\ (forall (workouts : list Workout) (timeline : list (string * nat)),
         calculatePRsOverTime workouts = inr timeline ->
         (natSum snd timeline <= 3 * List.length (allSets workouts))%nat).
Proof.
  split; [| split].
  - intros cur s. destruct (checkSet_below cur s) as ((H1 & H2 & H3) & H4 & H5).
    repeat split; assumption.
  - intros cur ss. destruct (trackSets_below cur ss) as ((H1 & H2 & H3) & H4).
    repeat split; assumption.
  - intros workouts timeline. unfold calculatePRsOverTime.
    destruct (trackAll isoDate (sortBy oldestFirst workouts) ∅ []) as [e | byDate] eqn:E;
      [discriminate |].
    intros [= <-].
    rewrite (natSum_perm snd _ _ (sortBy_perm dateOrder byDate)).
    rewrite (trackAll_sum _ _ _ _ _ E).
    pose proof (countEvents_bound (sortBy oldestFirst workouts) ∅) as Hb.
    rewrite (natSum_perm setsIn _ _ (sortBy_perm oldestFirst workouts)) in Hb.
    rewrite allSets_length. cbn [natSum fold_right]. lia.
Qed.

Lemma X15_records_only_rise_witness :
  exists timeline,
    calculatePRsOverTime [monday; tuesday] = inr timeline
    /\ (natSum snd timeline <= 3 * List.length (allSets [monday; tuesday]))%nat.
Proof.
  assert (H : { tl | calculatePRsOverTime [monday; tuesday] = inr tl }).
  { eexists. vm_compute. reflexivity. }
  destruct H as (tl & H). exists tl. split; [exact H |].
  destruct X15_records_only_rise as (_ & _ & Hb). exact (Hb [monday; tuesday] tl H).
Defined.

(** *** The distribution as a sum *)

Section Distribution.

Lemma fmap_plus_0 (x : option nat) : (fun c => (c + 0)%nat) <$> x = x.
Proof. destruct x as [c |]; cbn; [f_equal; lia | reflexivity]. Qed.

Lemma fmap_plus_plus (a b : nat) (x : option nat) :
  (fun c => (c + b)%nat) <$> ((fun c => (c + a)%nat) <$> x)
  = (fun c => (c + (a + b))%nat) <$> x.
Proof. destruct x as [c |]; cbn; [f_equal; lia | reflexivity]. Qed.

Lemma addExercise_share (g : gmap string nat) (ex : Exercise) (m : string) :
  addExercise g ex !! m = (fun c => (c + muscleShare m ex)%nat) <$> g !! m.
Proof.
  unfold muscleShare.
  destruct (firstMatch (toLowerCase (exercise_title ex))) as [[p ms] |] eqn:E.
  - rewrite (addExercise_lookup g ex p ms m E).
    destruct (decide (m ∈ ms)); [reflexivity | rewrite fmap_plus_0; reflexivity].
  - unfold addExercise. rewrite E, fmap_plus_0. reflexivity.
Qed.

Lemma fold_addExercise_share (exs : list Exercise) (g : gmap string nat) (m : string) :
  fold_left addExercise exs g !! m
  = (fun c => (c + natSum (muscleShare m) exs)%nat) <$> g !! m.
Proof.
  revert g. induction exs as [| ex exs IH]; intros g; cbn [fold_left].
  - cbn. rewrite fmap_plus_0. reflexivity.
  - rewrite IH, addExercise_share, fmap_plus_plus. reflexivity.
Qed.

Lemma distribution_flat (workouts : list Workout) :
  calculateMuscleDistribution workouts
  = fold_left addExercise (allExercises workouts) muscleGroups0.
Proof.
  unfold calculateMuscleDistribution, allExercises, addWorkout.
  apply fold_left_flat_map.
Qed.

Lemma allExercises_perm (ws ws' : list Workout) :
  Permutation ws ws' -> Permutation (allExercises ws) (allExercises ws').
Proof.
  unfold allExercises. induction 1; cbn [flat_map].
  - reflexivity.
  - apply Permutation_app_head. assumption.
  - rewrite !app_assoc. apply Permutation_app_tail, Permutation_app_comm.
  - etransitivity; eassumption.
Qed.

End Distribution.

(** X16. The muscle distribution is a sum over exercises: the count of each
    of the seven groups is the number of sets of the exercises whose first
    matching pattern credits that group, there is no other key, and the
    order of the workouts does not matter. *)
Theorem X16_distribution_is_a_sum :
  (forall (workouts : list Workout) (m : string),
      In m ["chest"; "back"; "shoulders"; "biceps"; "triceps"; "legs"; "core"] ->
      calculateMuscleDistribution workouts !! m
      = Some (natSum (muscleShare m) (allExercises workouts)))
  /\ (forall (workouts : list Workout) (m : string),
         ~ In m ["chest"; "back"; "shoulders"; "biceps"; "triceps"; "legs"; "core"] ->
         calculateMuscleDistribution workouts !! m = None)
  /\ (forall ws ws' : list Workout,
         Permutation ws ws' ->
         calculateMuscleDistribution ws = calculateMuscleDistribution ws').
Proof.
  assert (Hform : forall (workouts : list Workout) (m : string),
             calculateMuscleDistribution workouts !! m
             = (fun c => (c + natSum (muscleShare m) (allExercises workouts))%nat)
                 <$> muscleGroups0 !! m).
  { intros. rewrite distribution_flat. apply fold_addExercise_share. }
  split; [| split].
  - intros workouts m Hin. rewrite Hform.
    cbn [In] in Hin.
    destruct Hin as [<- | [<- | [<- | [<- | [<- | [<- | [<- | []]]]]]]]; reflexivity.
  - intros workouts m Hout. rewrite Hform.
    replace (muscleGroups0 !! m) with (@None nat); [reflexivity |].
    symmetry. unfold muscleGroups0. apply not_elem_of_list_to_map_1.
    intros Hin. apply Hout. apply list_elem_of_In in Hin. exact Hin.
  - intros ws ws' Hperm. apply map_eq. intros m. rewrite !Hform.
    rewrite (natSum_perm _ _ _ (allExercises_perm _ _ Hperm)). reflexivity.
Qed.

Lemma X16_distribution_is_a_sum_witness :
  calculateMuscleDistribution [monday; tuesday] !! "chest" = Some 2%nat
  /\ calculateMuscleDistribution [monday; tuesday] !! "arms" = None
  /\ calculateMuscleDistribution [monday; tuesday]
     = calculateMuscleDistribution [tuesday; monday].
Proof.
  destruct X16_distribution_is_a_sum as (H1 & H2 & H3).
  split; [| split].
  - rewrite (H1 [monday; tuesday] "chest"); [reflexivity | left; reflexivity].
  - apply H2. cbn [In]. intros H.
    repeat (destruct H as [H | H]; [discriminate H |]). exact H.
  - apply H3, perm_swap.
Defined.

(** *** The statistics record *)

Section Statistics.


Lemma natSum_ext {A} (f g : A -> nat) (l : list A) :
  (forall x, f x = g x) -> natSum f l = natSum g l.
Proof.
  intros H. unfold natSum. induction l as [| x l IH]; cbn [fold_right]; [reflexivity |].
  rewrite IH, H. reflexivity.
Qed.












End Statistics.



(** *** The list of workouts *)

Section ListView.

Lemma sortBy_fixed {A} (le : A -> A -> bool) (l : list A) :
  StronglySorted (fun a b => le a b = true) l -> sortBy le l = l.
Proof.
  induction 1 as [| x l Hs IH Hx]; [reflexivity |].
  change (sortBy le (x :: l)) with (insertBy le x (sortBy le l)). rewrite IH.
  destruct l as [| y t]; [reflexivity |].
  cbn [insertBy]. inversion Hx as [| ? ? Hy _]; subst. rewrite Hy. reflexivity.
Qed.

Lemma filter_prefix (c : Z) (l : list ParsedWorkout) :
  StronglySorted (fun a b => newestFirst a b = true) l ->
  exists n, List.filter (fun w => c <=? start_time w) l = firstn n l
            /\ Forall (fun w => c <= start_time w) (firstn n l)
            /\ Forall (fun w => start_time w < c) (skipn n l).
Proof.
  induction 1 as [| x l Hs IH Hx].
  - exists O. cbn. repeat split; constructor.
  - cbn [List.filter]. destruct (c <=? start_time x) eqn:E.
    + destruct IH as (n & Hf & Hin & Hout). exists (S n). cbn [firstn skipn].
      rewrite Hf. repeat split; [| exact Hout].
      constructor; [apply Z.leb_le, E | exact Hin].
    + exists O. cbn [firstn skipn]. apply Z.leb_gt in E.
      assert (Hall : Forall (fun w => start_time w < c) l).
      { eapply List.Forall_impl; [| exact Hx]. cbn. intros w Hw.
        unfold newestFirst in Hw. apply Z.leb_le in Hw. lia. }
      repeat split; [| constructor | constructor; assumption].
      clear -Hall. induction Hall as [| y t Hy _ IH]; [reflexivity |].
      cbn [List.filter]. destruct (c <=? start_time y) eqn:E; [| exact IH].
      apply Z.leb_le in E. lia.
Qed.

Lemma sorted_view (workouts : list ParsedWorkout) :
  StronglySorted (fun a b => newestFirst a b = true) (WorkoutsList.allWorkoutsSorted workouts).
Proof. exact (sortBy_sorted newestFirst newestFirst_total newestFirst_trans workouts). Qed.

Lemma findIndex_None {A} (p : A -> bool) (l : list A) :
  WorkoutsList.findIndex p l = None <-> Forall (fun x => p x = false) l.
Proof.
  induction l as [| x l IH]; cbn [WorkoutsList.findIndex].
  - split; [constructor | reflexivity].
  - destruct (p x) eqn:E.
    + split; [discriminate |]. intros H. inversion H; congruence.
    + destruct (WorkoutsList.findIndex p l) as [i |].
      * split; [discriminate |]. intros H. inversion H as [| ? ? _ Hl]; subst.
        apply IH in Hl. discriminate.
      * split; [| reflexivity]. intros _. constructor; [exact E | apply IH; reflexivity].
Qed.

Lemma findIndex_Some {A} (p : A -> bool) (l : list A) (i : nat) :
  WorkoutsList.findIndex p l = Some i ->
  (i < List.length l)%nat
  /\ (exists x, nth_error l i = Some x /\ p x = true)
  /\ Forall (fun x => p x = false) (firstn i l).
Proof.
  revert i. induction l as [| x l IH]; intros i; cbn [WorkoutsList.findIndex]; [discriminate |].
  destruct (p x) eqn:E.
  - intros [= <-]. cbn. repeat split; [lia | exists x; split; [reflexivity | exact E] | constructor].
  - destruct (WorkoutsList.findIndex p l) as [j |]; [| discriminate].
    intros [= <-]. destruct (IH j eq_refl) as (Hlt & Hx & Hb).
    cbn [List.length nth_error firstn]. repeat split; [lia | exact Hx |].
    constructor; assumption.
Qed.

Lemma findIndex_unique (workouts : list ParsedWorkout) (i : nat) (w : ParsedWorkout) :
  NoDup (map id workouts) ->
  nth_error workouts i = Some w ->
  WorkoutsList.findIndex (fun v => String.eqb (id v) (id w)) workouts = Some i.
Proof.
  revert i. induction workouts as [| x l IH]; intros i Hnd Hn; [destruct i; discriminate |].
  cbn [map] in Hnd. inversion Hnd as [| ? ? Hx Hl]; subst.
  destruct i as [| i]; cbn [nth_error] in Hn; cbn [WorkoutsList.findIndex].
  - injection Hn as ->. rewrite String.eqb_refl. reflexivity.
  - destruct (String.eqb (id x) (id w)) eqn:E.
    + apply String.eqb_eq in E. exfalso. apply Hx. rewrite E.
      apply list_elem_of_In, in_map. eapply nth_error_In, Hn.
    + rewrite (IH i Hl Hn). reflexivity.
Qed.

End ListView.

(** X18. The date filter of the list view keeps a prefix of the list
    sorted newest first: the workouts it keeps start at or after the cutoff
    and all those it drops start before it.  It shows only workouts of the
    store, a longer range shows whatever a shorter one does, and for the
    range all the view shows the output of [parseCSV] in the order the
    parser gave it. *)
Theorem X18_range_filter :
  (forall r now workouts,
      exists n,
        WorkoutsList.filteredWorkouts r now workouts
        = firstn n (WorkoutsList.allWorkoutsSorted workouts)
        /\ (r <> WorkoutsList.RangeAll ->
            Forall (fun w => WorkoutsList.cutoff r now <= start_time w)
                   (WorkoutsList.filteredWorkouts r now workouts)
            /\ Forall (fun w => start_time w < WorkoutsList.cutoff r now)
                      (skipn n (WorkoutsList.allWorkoutsSorted workouts))))
  /\ (forall r now workouts w,
         In w (WorkoutsList.filteredWorkouts r now workouts) -> In w workouts)
  /\ (forall r r' now workouts w,
         r <> WorkoutsList.RangeAll ->
         WorkoutsList.rangeDays r <= WorkoutsList.rangeDays r' ->
         In w (WorkoutsList.filteredWorkouts r now workouts) ->
         In w (WorkoutsList.filteredWorkouts r' now workouts))
  /\ (forall clock dateParse csv now workouts,
         parseCSV clock dateParse csv = inr workouts ->
         WorkoutsList.filteredWorkouts WorkoutsList.RangeAll now workouts = workouts).
Proof.
  assert (Hsub : forall r now workouts w,
             In w (WorkoutsList.filteredWorkouts r now workouts) ->
             In w (WorkoutsList.allWorkoutsSorted workouts)
             /\ (r <> WorkoutsList.RangeAll -> WorkoutsList.cutoff r now <= start_time w)).
  { intros r now workouts w. unfold WorkoutsList.filteredWorkouts.
    destruct r; try (intros H; apply filter_In in H; destruct H as [H1 H2];
                     split; [exact H1 | intros _; apply Z.leb_le, H2]).
    intros H. split; [exact H | intros Hr; contradiction]. }
  split; [| split; [| split]].
  - intros r now workouts.
    destruct (filter_prefix (WorkoutsList.cutoff r now) _ (sorted_view workouts))
      as (n & Hf & Hin & Hout).
    destruct r; try (exists n; unfold WorkoutsList.filteredWorkouts; rewrite Hf;
                     split; [reflexivity | intros _; split; assumption]).
    exists (List.length (WorkoutsList.allWorkoutsSorted workouts)).
    unfold WorkoutsList.filteredWorkouts. rewrite firstn_all.
    split; [reflexivity | intros Hr; contradiction].
  - intros r now workouts w Hw. destruct (Hsub r now workouts w Hw) as [H _].
    unfold WorkoutsList.allWorkoutsSorted in H.
    exact (Permutation_in _ (sortBy_perm newestFirst workouts) H).
  - intros r r' now workouts w Hr Hd Hw. destruct (Hsub r now workouts w Hw) as [H Hc].
    specialize (Hc Hr).
    assert (Hc' : WorkoutsList.cutoff r' now <= start_time w).
    { unfold WorkoutsList.cutoff in *. lia. }
    unfold WorkoutsList.filteredWorkouts.
    destruct r'; try (apply filter_In; split; [exact H | apply Z.leb_le, Hc']).
    exact H.
  - intros clock dateParse csv now workouts Hp.
    unfold WorkoutsList.filteredWorkouts, WorkoutsList.allWorkoutsSorted.
    apply sortBy_fixed.
    unfold parseCSV in Hp.
    destruct (buildMap clock dateParse csv) as [e | m]; [discriminate Hp |].
    injection Hp as <-.
    exact (sortBy_sorted newestFirst newestFirst_total newestFirst_trans _).
Qed.

Lemma X18_range_filter_witness :
  In tuesday (WorkoutsList.filteredWorkouts WorkoutsList.Range1m
                ((dec16 + 90000) * 1000) [monday; tuesday])
  /\ exists workouts,
      parseCSV sampleClock sampleDates twoWorkoutsCsv = inr workouts
      /\ WorkoutsList.filteredWorkouts WorkoutsList.RangeAll 0 workouts = workouts.
Proof.
  destruct X18_range_filter as (_ & _ & H3 & H4).
  split.
  - apply (H3 WorkoutsList.Range1w WorkoutsList.Range1m); [discriminate | |].
    + vm_compute. discriminate.
    + vm_compute. left. reflexivity.
  - assert (Hparse : { ws | parseCSV sampleClock sampleDates twoWorkoutsCsv = inr ws }).
    { eexists. vm_compute. reflexivity. }
    destruct Hparse as (ws & Hparse). exists ws. split; [exact Hparse |].
    exact (H4 sampleClock sampleDates twoWorkoutsCsv 0 ws Hparse).
Defined.

(** X19. The number shown for a workout: the unknown mark exactly when
    no workout has the id; otherwise a number from 1 to the number of
    workouts that points at a workout with that id, counted from the oldest.
    When the ids are distinct the workout at position [i] of the list sorted
    newest first has the number total minus [i], so the newest has the
    total. *)
Theorem X19_workout_number :
  (forall workouts workoutId,
      WorkoutsList.workoutIndex workouts workoutId = None
      <-> ~ In workoutId (map id workouts))
  /\ (forall workouts workoutId n,
         WorkoutsList.workoutIndex workouts workoutId = Some n ->
         (1 <= n <= List.length workouts)%nat
         /\ exists w, nth_error (WorkoutsList.allWorkoutsSorted workouts)
                                (List.length workouts - n) = Some w
                      /\ id w = workoutId)
  /\ (forall workouts i w,
         NoDup (map id workouts) ->
         nth_error (WorkoutsList.allWorkoutsSorted workouts) i = Some w ->
         WorkoutsList.workoutIndex workouts (id w) = Some (List.length workouts - i)%nat).
Proof.
  assert (Hlen : forall workouts,
             List.length (WorkoutsList.allWorkoutsSorted workouts) = List.length workouts).
  { intros workouts. apply Permutation_length, sortBy_perm. }
  split; [| split].
  - intros workouts workoutId. unfold WorkoutsList.workoutIndex.
    destruct (WorkoutsList.findIndex _ _) as [i |] eqn:E.
    + split; [discriminate |]. intros Hn. exfalso. apply Hn.
      destruct (findIndex_Some _ _ _ E) as (_ & (x & Hx & Hp) & _).
      apply String.eqb_eq in Hp. subst workoutId. apply in_map.
      apply nth_error_In in Hx.
      exact (Permutation_in _ (sortBy_perm newestFirst workouts) Hx).
    + split; [| reflexivity]. intros _ Hin.
      apply findIndex_None in E. apply in_map_iff in Hin. destruct Hin as (w & Hid & Hw).
      apply (Permutation_in _ (Permutation_sym (sortBy_perm newestFirst workouts))) in Hw.
      rewrite List.Forall_forall in E. specialize (E w Hw). cbn in E.
      rewrite Hid, String.eqb_refl in E. discriminate.
  - intros workouts workoutId n. unfold WorkoutsList.workoutIndex.
    destruct (WorkoutsList.findIndex _ _) as [i |] eqn:E; [| discriminate].
    intros [= <-]. destruct (findIndex_Some _ _ _ E) as (Hlt & (x & Hx & Hp) & _).
    rewrite Hlen in *. split; [lia |].
    exists x. apply String.eqb_eq in Hp. split; [| exact Hp].
    replace (List.length workouts - (List.length workouts - i))%nat with i by lia.
    exact Hx.
  - intros workouts i w Hnd Hn. unfold WorkoutsList.workoutIndex.
    rewrite (findIndex_unique (WorkoutsList.allWorkoutsSorted workouts) i w); [| | exact Hn].
    + rewrite Hlen. reflexivity.
    + rewrite (Permutation_map id (sortBy_perm newestFirst workouts)). exact Hnd.
Qed.

Lemma X19_workout_number_witness :
  WorkoutsList.workoutIndex [monday; tuesday] "b" = Some 2%nat
  /\ WorkoutsList.workoutIndex [monday; tuesday] "a" = Some 1%nat
  /\ WorkoutsList.workoutIndex [monday; tuesday] "c" = None.
Proof.
  destruct X19_workout_number as (H1 & _ & H3).
  assert (Hnd : NoDup (map id [monday; tuesday])).
  { apply (bool_decide_unpack _). vm_compute. reflexivity. }
  split; [| split].
  - exact (H3 [monday; tuesday] 0%nat tuesday Hnd eq_refl).
  - exact (H3 [monday; tuesday] 1%nat monday Hnd eq_refl).
  - apply H1. cbn [map In]. intros H.
    repeat (destruct H as [H | H]; [discriminate H |]). exact H.
Defined.

(** *** A validated file in the upload handler *)

Section Upload.

Lemma trimEnd_blank (s : string) : trimEnd s = EmptyString <-> blank s = true.
Proof.
  induction s as [| c s IH]; cbn [trimEnd blank]; [tauto |].
  destruct (trimEnd s) as [| c' t].
  - destruct (isWhite c); cbn [andb].
    + split; [intros _; apply IH; reflexivity | reflexivity].
    + split; discriminate.
  - split; [discriminate |]. intros H. apply andb_true_iff in H. destruct H as [_ H].
    apply IH in H. discriminate.
Qed.

Lemma trimStart_blank (s : string) : blank (trimStart s) = blank s.
Proof.
  induction s as [| c s IH]; cbn [trimStart blank]; [reflexivity |].
  destruct (isWhite c) eqn:E; cbn [andb]; [exact IH |].
  cbn [blank]. rewrite E. reflexivity.
Qed.

Lemma trim_blank (s : string) : trim s = EmptyString <-> blank s = true.
Proof. unfold trim. rewrite trimEnd_blank, trimStart_blank. reflexivity. Qed.

Lemma trimStart_first (s : string) (c : ascii) (r : string) :
  trimStart s = String c r -> isWhite c = false.
Proof.
  induction s as [| a s IH]; cbn [trimStart]; [discriminate |].
  destruct (isWhite a) eqn:E; [exact IH |]. intros [= <- _]. exact E.
Qed.

Lemma trimEnd_first (a : ascii) (s : string) (c : ascii) (r : string) :
  trimEnd (String a s) = String c r -> c = a.
Proof.
  cbn [trimEnd]. destruct (trimEnd s); [destruct (isWhite a); [discriminate |] |];
    intros [= -> _]; reflexivity.
Qed.

Lemma trim_head (s : string) (c : ascii) (r : string) :
  trim s = String c r -> isWhite c = false.
Proof.
  unfold trim. destruct (trimStart s) as [| a u] eqn:E; [discriminate |].
  intros H. apply trimEnd_first in H. subst c. exact (trimStart_first s a u E).
Qed.

Lemma headerLineOf_blank (content : string) :
  headerLineOf content = EmptyString -> blank content = true.
Proof.
  unfold headerLineOf. intros H. apply trim_blank.
  destruct (trim content) as [| c r] eqn:E; [reflexivity |].
  exfalso. pose proof (trim_head content c r E) as Hc.
  cbn [split] in H. destruct (Ascii.eqb c newline) eqn:En.
  - apply Ascii.eqb_eq in En. subst c. vm_compute in Hc. discriminate.
  - destruct (split newline r); discriminate.
Qed.

Lemma blank_split (s : string) :
  blank s = true -> Forall (fun l => blank l = true) (split newline s).
Proof.
  induction s as [| c s IH]; cbn [blank split]; intros H.
  - constructor; [reflexivity | constructor].
  - apply andb_true_iff in H. destruct H as [Hc Hs]. specialize (IH Hs).
    destruct (Ascii.eqb c newline).
    + constructor; [reflexivity | exact IH].
    + destruct (split newline s) as [| h t].
      * constructor; [cbn; rewrite Hc; reflexivity | constructor].
      * inversion IH; subst. constructor; [cbn [blank]; rewrite Hc; assumption | assumption].
Qed.

Lemma isWhite_lower (c : ascii) : isWhite (lowerChar c) = isWhite c.
Proof. destruct c as [[] [] [] [] [] [] [] []]; vm_compute; reflexivity. Qed.

Lemma blank_lower (s : string) : blank (toLowerCase s) = blank s.
Proof.
  induction s as [| c s IH]; cbn [toLowerCase blank]; [reflexivity |].
  rewrite isWhite_lower, IH. reflexivity.
Qed.

Lemma blank_includes (s : string) (a : ascii) (p : string) :
  isWhite a = false -> blank s = true -> includes s (String a p) = false.
Proof.
  intros Ha. induction s as [| c s IH]; cbn [blank includes startsWith]; [reflexivity |].
  intros H. apply andb_true_iff in H. destruct H as [Hc Hs].
  destruct (Ascii.eqb a c) eqn:E.
  - apply Ascii.eqb_eq in E. subst c. congruence.
  - cbn [orb]. exact (IH Hs).
Qed.

Lemma validated_header (file : File) (content : string) :
  validateCSVFile file = inr true ->
  readCSVFile file = inr content ->
  headerLineOf content <> EmptyString.
Proof.
  unfold validateCSVFile. intros Hv Hr Hh.
  destruct (negb (endsWith (toLowerCase (name file)) ".csv")); [discriminate |].
  destruct (size file >? 10 * 1024 * 1024); [discriminate |].
  rewrite Hr in Hv. cbv zeta in Hv.
  destruct (includes (firstLineOf content) "weight_lbs"); [discriminate |].
  destruct (includes (firstLineOf content) "weight_kg") eqn:E; [| discriminate].
  apply headerLineOf_blank, blank_split in Hh.
  unfold firstLineOf in E.
  destruct (split newline content) as [| l ls]; [discriminate |].
  inversion Hh as [| ? ? Hl _]; subst.
  rewrite (blank_includes (toLowerCase l) "w" "eight_kg") in E;
    [discriminate | reflexivity | rewrite blank_lower; exact Hl].
Qed.

Lemma addKey_nonempty (keys : list string) (key : string) : addKey keys key <> [].
Proof.
  unfold addKey. destruct (existsb (String.eqb key) keys) eqn:E.
  - destruct keys; [discriminate | discriminate].
  - destruct keys; discriminate.
Qed.

Lemma fold_addKey_nonempty (rows : list (nat * Row)) (keys : list string) :
  keys <> [] -> fold_left (fun keys r => addKey keys (workoutKey (snd r))) rows keys <> [].
Proof.
  revert keys. induction rows as [| r rows IH]; intros keys Hne; cbn [fold_left];
    [exact Hne |].
  apply IH, addKey_nonempty.
Qed.

Lemma distinctKeys_nil (rows : list (nat * Row)) : distinctKeys rows = [] <-> rows = [].
Proof.
  unfold distinctKeys. split; [| intros ->; reflexivity].
  destruct rows as [| r rows]; [reflexivity |]. cbn [fold_left]. intros H.
  exfalso. exact (fold_addKey_nonempty rows _ (addKey_nonempty [] _) H).
Qed.

Lemma parseCSV_empty (clock : nat -> Z) (dateParse : string -> option Z)
      (content : string) (workouts : list ParsedWorkout) :
  parseCSV clock dateParse content = inr workouts ->
  (workouts = [] <-> rowsOf content = []).
Proof.
  unfold parseCSV. destruct (buildMap clock dateParse content) as [e | m] eqn:E;
    [discriminate |].
  intros [= <-]. rewrite <- distinctKeys_nil, <- (buildMap_keys clock dateParse content m E).
  pose proof (Permutation_length (sortBy_perm newestFirst (mapValues m))) as Hl.
  unfold mapValues, mapKeys in *. rewrite length_map in Hl.
  split; intros H.
  - rewrite H in Hl. destruct m; [reflexivity | discriminate].
  - destruct m; [| discriminate]. reflexivity.
Qed.

End Upload.

(** X20. A file accepted by [validateCSVFile] never makes [parseCSV]
    throw, since a first line that contains weight_kg is a header.  The
    upload of such a file is rejected as empty when no line after the header
    is a valid row, and loads the parsed workouts otherwise; and workouts are
    loaded only from a file that was accepted, read and parsed and has a
    valid row. *)
Theorem X20_upload_outcome (t : string -> string) (clock : nat -> Z)
        (dateParse : string -> option Z) :
  (forall file content,
      validateCSVFile file = inr true ->
      readCSVFile file = inr content ->
      (exists workouts, parseCSV clock dateParse content = inr workouts)
      /\ (rowsOf content = [] ->
          handleCSVUpload t clock dateParse (Some file)
          = Rejected (t "login.csv.errors.emptyFile"))
      /\ (rowsOf content <> [] ->
          exists workouts,
            handleCSVUpload t clock dateParse (Some file) = Loaded workouts
            /\ parseCSV clock dateParse content = inr workouts
            /\ workouts <> []))
  /\ (forall csvFile workouts,
         handleCSVUpload t clock dateParse csvFile = Loaded workouts ->
         exists file content,
           csvFile = Some file
           /\ validateCSVFile file = inr true
           /\ readCSVFile file = inr content
           /\ parseCSV clock dateParse content = inr workouts
           /\ rowsOf content <> []).
Proof.
  split.
  - intros file content Hv Hr.
    destruct (parseCSV_header clock dateParse content) as [[Hh _] | [_ [ws Hp]]];
      [exfalso; exact (validated_header file content Hv Hr Hh) |].
    pose proof (parseCSV_empty clock dateParse content ws Hp) as He.
    split; [exists ws; exact Hp |].
    unfold handleCSVUpload, handleCSVUploadWith. rewrite Hv, Hr, Hp.
    split.
    + intros H0. apply He in H0. subst ws. reflexivity.
    + intros Hne. exists ws. destruct ws as [| w ws'].
      * exfalso. apply Hne, He. reflexivity.
      * repeat split. discriminate.
  - intros csvFile ws. unfold handleCSVUpload, handleCSVUploadWith.
    destruct csvFile as [file |]; [| discriminate].
    destruct (validateCSVFile file) as [e | [|]] eqn:Hv; try discriminate.
    destruct (readCSVFile file) as [e | content] eqn:Hr; [discriminate |].
    destruct (parseCSV clock dateParse content) as [e | ws'] eqn:Hp; [discriminate |].
    destruct ws' as [| w ws'']; [discriminate |].
    intros [= <-]. exists file, content. repeat split; try assumption.
    intros H0. apply (parseCSV_empty clock dateParse content _ Hp) in H0. discriminate.
Qed.

Lemma X20_upload_outcome_witness :
  (exists workouts,
      handleCSVUpload (fun key => key) sampleClock sampleDates (Some kgFile) = Loaded workouts
      /\ workouts <> [])
  /\ handleCSVUpload (fun key => key) sampleClock sampleDates (Some headerOnlyFile)
     = Rejected "login.csv.errors.emptyFile".
Proof.
  destruct (X20_upload_outcome (fun key => key) sampleClock sampleDates) as (H & _).
  split.
  - assert (Hv : validateCSVFile kgFile = inr true) by (vm_compute; reflexivity).
    destruct (H kgFile twoWorkoutsCsv Hv eq_refl) as (_ & _ & Hl).
    destruct Hl as (ws & Hu & _ & Hne); [vm_compute; discriminate |].
    exists ws. split; [exact Hu | exact Hne].
  - assert (Hv : validateCSVFile headerOnlyFile = inr true) by (vm_compute; reflexivity).
    destruct (H headerOnlyFile "title,start_time,exercise_title,weight_kg,reps" Hv eq_refl)
      as (_ & He & _).
    apply He. reflexivity.
Defined.

(** *** Dates that need no translation *)

Section Months.

Lemma startsWith_drop (s p : string) :
  startsWith s p = true -> p +:+ drop (String.length p) s = s.
Proof.
  revert s. induction p as [| a p IH]; intros s; [reflexivity |].
  destruct s as [| b s]; cbn [startsWith]; [discriminate |].
  destruct (Ascii.eqb a b) eqn:E; [| discriminate].
  apply Ascii.eqb_eq in E. subst b. intros H.
  cbn [String.length drop]. rewrite append_cons, (IH s H). reflexivity.
Qed.

Lemma replace_same (s p : string) : replace s p p = s.
Proof.
  induction s as [| c s IH]; cbn [replace].
  - destruct p; reflexivity.
  - destruct (startsWith (String c s) p) eqn:E.
    + exact (startsWith_drop _ _ E).
    + rewrite IH. reflexivity.
Qed.

End Months.

(** X21. A date string that contains none of the four German
    abbreviations that differ from the English ones is handed to [Date]
    unchanged, also when an English abbreviation is found in it and replaced
    by itself; [parseDate] then returns the seconds of the parsed instant, or
    of the clock when the engine rejects the string. *)
Theorem X21_untranslated_dates (dateString : string) :
  includes dateString "Mär" = false ->
  includes dateString "Mai" = false ->
  includes dateString "Okt" = false ->
  includes dateString "Dez" = false ->
  normalizeDate dateString = dateString
  /\ forall (clock : nat -> Z) (dateParse : string -> option Z) (k : nat),
      parseDate clock dateParse (Some dateString) k
      = match dateParse dateString with
        | Some ms => (ms / 1000, k)
        | None => (clock k / 1000, S k)
        end.
Proof.
  intros H1 H2 H3 H4.
  assert (Hn : normalizeDate dateString = dateString).
  { unfold normalizeDate.
    destruct (find (fun ge => includes dateString (fst ge)) germanMonths) as [[g e] |] eqn:E;
      [| reflexivity].
    apply find_some in E. destruct E as [Hin Hinc]. cbn [fst] in Hinc.
    unfold germanMonths in Hin. cbn [In] in Hin.
    repeat (destruct Hin as [Hin | Hin];
            [injection Hin as <- <-; try apply replace_same; congruence |]).
    contradiction. }
  split; [exact Hn |].
  intros clock dateParse k. unfold parseDate, parseDate_try. rewrite Hn.
  destruct (dateParse dateString); reflexivity.
Qed.

Lemma X21_untranslated_dates_witness :
  normalizeDate "2 Jan 2025, 07:30" = "2 Jan 2025, 07:30"
  /\ parseDate sampleClock noDates (Some "2 Jan 2025, 07:30") O = (1700000000, 1%nat).
Proof.
  destruct (X21_untranslated_dates "2 Jan 2025, 07:30" eq_refl eq_refl eq_refl eq_refl)
    as [H1 H2].
  split; [exact H1 |]. rewrite (H2 sampleClock noDates O). reflexivity.
Defined.

(** ** Translation, matching and merging *)

(** *** The month that is replaced *)

Section Translation.

Lemma includes_indexOf (s p : string) :
  includes s p = match indexOf s p with Some _ => true | None => false end.
Proof.
  induction s as [| c s IH]; cbn [includes indexOf].
  - destruct (startsWith EmptyString p); reflexivity.
  - destruct (startsWith (String c s) p); cbn [orb]; [reflexivity |].
    rewrite IH. destruct (indexOf s p); reflexivity.
Qed.

(** [replace] rewrites the first occurrence. *)
Lemma replace_indexOf (s p r : string) (i : nat) :
  indexOf s p = Some i ->
  replace s p r = take i s +:+ r +:+ drop (i + String.length p) s.
Proof.
  revert i. induction s as [| c s IH]; intros i; cbn [indexOf replace].
  - destruct (startsWith EmptyString p) eqn:E; [| discriminate].
    intros [= <-]. destruct p; [| discriminate]. cbn [take drop String.length Nat.add].
    rewrite append_nil, append_empty. reflexivity.
  - destruct (startsWith (String c s) p) eqn:E.
    + intros [= <-]. cbn [take Nat.add]. rewrite append_nil. reflexivity.
    + destruct (indexOf s p) as [j |]; [| discriminate]. cbn [option_map].
      intros [= <-]. rewrite (IH j eq_refl). cbn [take drop Nat.add].
      rewrite append_cons. reflexivity.
Qed.

Lemma find_keysBefore (table : list (string * string)) (s german english : string) :
  find (fun ge => String.eqb (fst ge) german) table = Some (german, english) ->
  Forall (fun k => includes s k = false) (keysBefore table german) ->
  includes s german = true ->
  find (fun ge => includes s (fst ge)) table = Some (german, english).
Proof.
  induction table as [| [k v] table IH]; cbn [find keysBefore fst]; [discriminate |].
  destruct (String.eqb k german) eqn:E.
  - intros [= -> ->] _ ->. reflexivity.
  - intros Hf Hall Hin. inversion Hall as [| ? ? Hk Hrest]; subst.
    rewrite Hk. exact (IH Hf Hrest Hin).
Qed.

(** A string without the four abbreviations that differ from the English
    ones is left as it is. *)
Lemma normalizeDate_english (s : string) :
  Forall (fun k => includes s k = false) ["Mär"; "Mai"; "Okt"; "Dez"] ->
  normalizeDate s = s.
Proof.
  intros H.
  inversion H as [| ? ? H1 H']; subst. inversion H' as [| ? ? H2 H'']; subst.
  inversion H'' as [| ? ? H3 H''']; subst. inversion H''' as [| ? ? H4 _]; subst.
  unfold normalizeDate.
  destruct (find (fun ge => includes s (fst ge)) germanMonths) as [[g e] |] eqn:E;
    [| reflexivity].
  apply find_some in E. destruct E as [Hin Hinc]. cbn [fst] in Hinc.
  unfold germanMonths in Hin. cbn [In] in Hin.
  repeat (destruct Hin as [Hin | Hin];
          [injection Hin as <- <-; try apply replace_same; congruence |]).
  contradiction.
Qed.

End Translation.

(** C7. Before the engine reads a date, the first abbreviation of the
    table that occurs in it is replaced, at its first occurrence, by its
    English form.  So a string with Mär, Mai, Okt or Dez in it, and none of
    the abbreviations the table lists before that one, goes to the engine
    with Mar, May, Oct or Dec in its place and the rest as written; if that
    English string holds no German abbreviation of its own, the two
    spellings give the same result at the same point of a run, the instant
    in seconds when the engine reads the English one as a date.  So do
    16 Dez 2025, 15:06 and 16 Dec 2025, 15:06. *)
Theorem C7_german_month :
  (forall (german english s : string) (i : nat),
      In (german, english)
         [("Mär", "Mar"); ("Mai", "May"); ("Okt", "Oct"); ("Dez", "Dec")] ->
      indexOf s german = Some i ->
      Forall (fun k => includes s k = false) (earlierMonths german) ->
      let translated := take i s +:+ english +:+ drop (i + String.length german) s in
      normalizeDate s = translated
      /\ (Forall (fun k => includes translated k = false) ["Mär"; "Mai"; "Okt"; "Dez"] ->
          forall (clock : nat -> Z) (dateParse : string -> option Z) (k : nat),
            parseDate clock dateParse (Some s) k
            = parseDate clock dateParse (Some translated) k
            /\ (forall ms : Z,
                   dateParse translated = Some ms ->
                   parseDate clock dateParse (Some s) k = (ms / 1000, k))))
  /\ earlierMonths "Mär" = ["Jan"; "Feb"]
  /\ earlierMonths "Mai" = ["Jan"; "Feb"; "Mär"; "Mar"; "Apr"]
  /\ earlierMonths "Okt"
     = ["Jan"; "Feb"; "Mär"; "Mar"; "Apr"; "Mai"; "Jun"; "Jul"; "Aug"; "Sep"]
  /\ earlierMonths "Dez"
     = ["Jan"; "Feb"; "Mär"; "Mar"; "Apr"; "Mai"; "Jun"; "Jul"; "Aug"; "Sep"; "Okt"; "Nov"]
  /\ normalizeDate dezDate = decDate
  /\ normalizeDate decDate = decDate
  /\ (forall (clock : nat -> Z) (dateParse : string -> option Z) (k : nat),
         parseDate clock dateParse (Some dezDate) k
         = parseDate clock dateParse (Some decDate) k)
  /\ (forall (clock : nat -> Z) (dateParse : string -> option Z) (ms : Z) (k1 k2 : nat),
         dateParse decDate = Some ms ->
         fst (parseDate clock dateParse (Some dezDate) k1) = ms / 1000
         /\ fst (parseDate clock dateParse (Some decDate) k2) = ms / 1000).
Proof.
  assert (Hdez : normalizeDate dezDate = decDate) by (vm_compute; reflexivity).
  assert (Hdec : normalizeDate decDate = decDate) by (vm_compute; reflexivity).
  split.
  { intros german english s i Hin Hi Hearlier translated.
    assert (Hn : normalizeDate s = translated).
    { unfold normalizeDate.
      assert (Hinc : includes s german = true) by (rewrite includes_indexOf, Hi; reflexivity).
      assert (Hfind : find (fun ge => String.eqb (fst ge) german) germanMonths
                      = Some (german, english)).
      { cbn [In] in Hin.
        repeat (destruct Hin as [Hin | Hin]; [injection Hin as <- <-; reflexivity |]).
        contradiction. }
      rewrite (find_keysBefore germanMonths s german english Hfind Hearlier Hinc).
      exact (replace_indexOf s german english i Hi). }
    split; [exact Hn |].
    intros Hfree clock dateParse k.
    assert (Hsame : parseDate clock dateParse (Some s) k
                    = parseDate clock dateParse (Some translated) k).
    { unfold parseDate, parseDate_try.
      rewrite Hn, (normalizeDate_english translated Hfree). reflexivity. }
    split; [exact Hsame |].
    intros ms Hms. apply parseDate_valid. rewrite Hn. exact Hms. }
  split; [reflexivity |]. split; [reflexivity |]. split; [reflexivity |].
  split; [reflexivity |].
  split; [exact Hdez | split; [exact Hdec | split]].
  - intros clock dateParse k. unfold parseDate, parseDate_try.
    rewrite Hdez, Hdec. reflexivity.
  - intros clock dateParse ms k1 k2 H. split.
    + rewrite (parseDate_valid clock dateParse dezDate ms k1); [reflexivity |].
      rewrite Hdez. exact H.
    + rewrite (parseDate_valid clock dateParse decDate ms k2); [reflexivity |].
      rewrite Hdec. exact H.
Qed.

Lemma C7_german_month_witness :
  normalizeDate "3 Mär 2025, 07:30" = "3 Mar 2025, 07:30"
  /\ normalizeDate "Mo, 5 Mai 2025" = "Mo, 5 May 2025"
  /\ normalizeDate "31 Okt 2025, 18:00" = "31 Oct 2025, 18:00"
  /\ parseDate sampleClock englishDates (Some dezDate) 0 = (dec16, O)
  /\ fst (parseDate sampleClock englishDates (Some decDate) 3) = dec16.
Proof.
  destruct C7_german_month as (Hany & _ & _ & _ & _ & _ & _ & _ & Hsame).
  split; [| split; [| split; [| split]]].
  - refine (proj1 (Hany "Mär" "Mar" "3 Mär 2025, 07:30" 2%nat _ eq_refl _)).
    + left. reflexivity.
    + repeat constructor.
  - refine (proj1 (Hany "Mai" "May" "Mo, 5 Mai 2025" 6%nat _ eq_refl _)).
    + right. left. reflexivity.
    + repeat constructor.
  - refine (proj1 (Hany "Okt" "Oct" "31 Okt 2025, 18:00" 3%nat _ eq_refl _)).
    + right. right. left. reflexivity.
    + repeat constructor.
  - assert (Hin : In ("Dez", "Dec")
                     [("Mär", "Mar"); ("Mai", "May"); ("Okt", "Oct"); ("Dez", "Dec")])
      by (right; right; right; left; reflexivity).
    assert (Hearlier : Forall (fun k => includes dezDate k = false) (earlierMonths "Dez"))
      by (repeat constructor).
    destruct (Hany "Dez" "Dec" dezDate 3%nat Hin eq_refl Hearlier) as [_ H].
    assert (Hfree : Forall (fun k => includes decDate k = false)
                           ["Mär"; "Mai"; "Okt"; "Dez"]) by (repeat constructor).
    destruct (H Hfree sampleClock englishDates O) as [_ Hms].
    exact (Hms 1765897560000 eq_refl).
  - destruct (Hsame sampleClock englishDates 1765897560000 0%nat 3%nat eq_refl) as [_ H].
    exact H.
Defined.

(** *** The pattern that decides *)

Section FirstPattern.




End FirstPattern.



(** *** Rows merged into their workout *)

Section Merging.

Variable clock : nat -> Z.
Variable dateParse : string -> option Z.

Lemma pushToFound_first (row : Row) (s : ParsedSet) (exs exs' : list ParsedExercise) :
  pushToFound row s exs = Some exs' ->
  exists before ex after,
    exs = before ++ ex :: after
    /\ sameTitle row ex = true
    /\ Forall (fun e => sameTitle row e = false) before
    /\ exs' = before ++ pushSet s ex :: after.
Proof.
  revert exs'. induction exs as [| e exs IH]; intros exs'; cbn [pushToFound];
    [discriminate |].
  destruct (sameTitle row e) eqn:E.
  - intros [= <-]. exists [], e, exs. repeat split; [exact E | constructor].
  - destruct (pushToFound row s exs) as [rest' |]; [| discriminate].
    intros [= <-]. destruct (IH rest' eq_refl) as (before & ex & after & -> & Hx & Hb & ->).
    exists (e :: before), ex, after. repeat split; [exact Hx | constructor; assumption].
Qed.

(** The sets a map holds under a key. *)
Lemma processRow_perKey (row : Row) (i : nat) (st : Map ParsedWorkout * nat) (key : string) :
  from_option setsIn O (mapGet (fst (processRow clock dateParse row i st)) key)
  = (from_option setsIn O (mapGet (fst st) key)
     + if String.eqb (workoutKey row) key then 1 else 0)%nat.
Proof.
  destruct st as [m k]. cbn [fst].
  destruct (processRow_cases clock dateParse row i k m)
    as [(w & Hw & ->) | (Hnone & w & k' & H1 & _ & _ & _ & ->)]; cbn [fst];
    destruct (String.eqb (workoutKey row) key) eqn:E.
  - apply String.eqb_eq in E. subst key. rewrite mapGet_set, Hw. cbn [from_option].
    rewrite updateWorkout_sets. lia.
  - apply String.eqb_neq in E. rewrite mapGet_set_ne by congruence. lia.
  - apply String.eqb_eq in E. subst key. rewrite mapGet_set, Hnone. cbn [from_option].
    rewrite updateWorkout_sets. unfold setsIn. rewrite H1. reflexivity.
  - apply String.eqb_neq in E. rewrite mapGet_set_ne by congruence. lia.
Qed.

Lemma fold_rows_perKey (rows : list (nat * Row)) (st : Map ParsedWorkout * nat)
      (key : string) :
  from_option setsIn O
    (mapGet (fst (fold_left (fun st r => processRow clock dateParse (snd r) (fst r) st)
                            rows st)) key)
  = (from_option setsIn O (mapGet (fst st) key)
     + List.length (List.filter (fun r => String.eqb (workoutKey (snd r)) key) rows))%nat.
Proof.
  revert st. induction rows as [| r rows IH]; intros st; cbn [fold_left List.filter];
    [cbn; lia |].
  rewrite IH, processRow_perKey.
  destruct (String.eqb (workoutKey (snd r)) key); cbn [List.length]; lia.
Qed.

Lemma buildMap_rows (csvContent : string) (m : Map ParsedWorkout) :
  buildMap clock dateParse csvContent = inr m ->
  m = fst (fold_left (fun st r => processRow clock dateParse (snd r) (fst r) st)
                     (rowsOf csvContent) ([], O)).
Proof.
  unfold buildMap, rowsOf.
  destruct (split newline (trim csvContent)) as [| headerLine rest]; [discriminate |].
  destruct headerLine as [| c s]; [discriminate |].
  intros [= <-]. rewrite processLines_rows. reflexivity.
Qed.

End Merging.

(** C2. When [parseCSV] returns, the workouts are in descending order of
    start time, and they are the values of a map with one entry for each
    distinct key among the rows of the file: no two of them stand for the same
    key, and every row has its key in the map.  No row is lost: the workout
    under a key holds one set for each row with that key, and the workouts
    together as many sets as the file has rows.  A row whose key is in the
    map makes no new workout: it leaves the keys and the other workouts as
    they are and is merged into the workout of its key, which keeps its id,
    title, times and description and gains the set of the row, at the end of
    the first exercise with the title of the row or, when there is none, in
    a new exercise after the others.  [parseCSV] returns for every input
    with a header line. *)
Theorem C2_sorted_and_deduplicated :
  (forall (clock : nat -> Z) (dateParse : string -> option Z)
          (csvContent : string) (workouts : list ParsedWorkout),
      parseCSV clock dateParse csvContent = inr workouts ->
      StronglySorted (fun a b => start_time b <= start_time a) workouts
      /\ List.length (allSets workouts) = List.length (rowsOf csvContent)
      /\ exists workoutsMap : Map ParsedWorkout,
          buildMap clock dateParse csvContent = inr workoutsMap
          /\ Permutation workouts (mapValues workoutsMap)
          /\ NoDup (mapKeys workoutsMap)
          /\ mapKeys workoutsMap = distinctKeys (rowsOf csvContent)
          /\ List.length workouts = List.length (distinctKeys (rowsOf csvContent))
          /\ (forall r, r ∈ rowsOf csvContent ->
                        workoutKey (snd r) ∈ mapKeys workoutsMap)
          /\ (forall key w,
                 mapGet workoutsMap key = Some w ->
                 setsIn w
                 = List.length (List.filter (fun r => String.eqb (workoutKey (snd r)) key)
                                            (rowsOf csvContent))))
  /\ (forall (clock : nat -> Z) (dateParse : string -> option Z)
             (row : Row) (i k : nat) (workoutsMap : Map ParsedWorkout),
         mapHas workoutsMap (workoutKey row) = true ->
         exists workout,
           mapGet workoutsMap (workoutKey row) = Some workout
           /\ processRow clock dateParse row i (workoutsMap, k)
              = (mapSet workoutsMap (workoutKey row)
                   (updateWorkout row (buildSet clock row i k) workout), S k)
           /\ mapKeys (fst (processRow clock dateParse row i (workoutsMap, k)))
              = mapKeys workoutsMap
           /\ mapGet (fst (processRow clock dateParse row i (workoutsMap, k)))
                     (workoutKey row)
              = Some (updateWorkout row (buildSet clock row i k) workout)
           /\ (forall key, key <> workoutKey row ->
                           mapGet (fst (processRow clock dateParse row i (workoutsMap, k)))
                                  key
                           = mapGet workoutsMap key))
  /\ (forall (row : Row) (s : ParsedSet) (w : ParsedWorkout),
         let merged := updateWorkout row s w in
         id merged = id w /\ title merged = title w
         /\ start_time merged = start_time w /\ end_time merged = end_time w
         /\ description merged = description w
         /\ setsIn merged = S (setsIn w)
         /\ ((exists before ex after,
                 exercises w = before ++ ex :: after
                 /\ sameTitle row ex = true
                 /\ Forall (fun e => sameTitle row e = false) before
                 /\ exercises merged = before ++ pushSet s ex :: after)
             \/ (Forall (fun e => sameTitle row e = false) (exercises w)
                 /\ exercises merged = exercises w ++ [pushSet s (newExercise row w)]))
         /\ (forall ex, sets (pushSet s ex) = sets ex ++ [s]))
  /\ (forall (clock : nat -> Z) (dateParse : string -> option Z) (csvContent : string),
         (exists workouts, parseCSV clock dateParse csvContent = inr workouts)
         \/ parseCSV clock dateParse csvContent = inl "CSV header is missing").
Proof.
  split; [| split; [| split]].
  - intros clock dateParse csvContent workouts Hparse.
    pose proof (parseCSV_values clock dateParse csvContent workouts Hparse) as Hvalues.
    unfold parseCSV in Hparse.
    destruct (buildMap clock dateParse csvContent) as [e | m] eqn:Hmap; [discriminate |].
    injection Hparse as <-.
    split.
    { pose proof (sortBy_sorted newestFirst newestFirst_total newestFirst_trans
                    (mapValues m)) as Hs.
      eapply StronglySorted_weaken; [| exact Hs].
      intros a b Hab. unfold newestFirst in Hab. apply Z.leb_le in Hab. lia. }
    split.
    { rewrite allSets_length, (natSum_perm setsIn _ _ Hvalues), fold_rows_count.
      cbn. reflexivity. }
    exists m. pose proof (buildMap_keys clock dateParse csvContent m Hmap) as Hkeys.
    split; [reflexivity |].
    split; [apply sortBy_perm |].
    split; [rewrite Hkeys; apply fold_addKey_NoDup, NoDup_nil_2 |].
    split; [exact Hkeys |].
    split.
    { rewrite (Permutation_length (sortBy_perm newestFirst (mapValues m))).
      rewrite <- Hkeys. unfold mapValues, mapKeys. rewrite !length_map. reflexivity. }
    split.
    { intros r Hr. rewrite Hkeys. unfold distinctKeys.
      apply fold_addKey_elem. right. exists r. split; [exact Hr | reflexivity]. }
    intros key w Hw.
    pose proof (fold_rows_perKey clock dateParse (rowsOf csvContent) ([], O) key) as H.
    rewrite <- (buildMap_rows clock dateParse csvContent m Hmap), Hw in H.
    cbn [from_option fst mapGet Nat.add] in H. exact H.
  - intros clock dateParse row i k m Hhas.
    assert (Hget : exists w, mapGet m (workoutKey row) = Some w).
    { unfold mapHas in Hhas. destruct (mapGet m (workoutKey row)) as [w |];
        [eauto | discriminate]. }
    destruct Hget as [w Hw]. exists w.
    assert (Hstep : processRow clock dateParse row i (m, k)
                    = (mapSet m (workoutKey row)
                         (updateWorkout row (buildSet clock row i k) w), S k)).
    { unfold processRow. cbn [fst snd].
      rewrite (getOrCreateWorkout_has clock dateParse row m k Hhas), Hw. reflexivity. }
    split; [exact Hw | split; [exact Hstep |]].
    rewrite Hstep. cbn [fst]. split.
    { rewrite mapKeys_set. unfold addKey. rewrite <- mapHas_keys, Hhas. reflexivity. }
    split; [apply mapGet_set |].
    intros key Hkey. apply mapGet_set_ne. exact Hkey.
  - intros row s w merged. subst merged.
    repeat (split; [reflexivity |]).
    split; [apply updateWorkout_sets |].
    split; [| reflexivity].
    unfold updateWorkout. cbn [exercises].
    destruct (pushToFound row s (exercises w)) as [exs' |] eqn:E.
    + left. exact (pushToFound_first row s _ _ E).
    + right. split; [exact (proj1 (pushToFound_none row s _) E) | reflexivity].
  - intros clock dateParse csvContent.
    destruct (parseCSV_header clock dateParse csvContent) as [[_ H] | [_ H]];
      [right | left]; exact H.
Qed.

Lemma C2_sorted_and_deduplicated_witness :
  exists workouts,
    parseCSV sampleClock sampleDates twoWorkoutsCsv = inr workouts
    /\ map title workouts = ["Push"; "Legs"]
    /\ StronglySorted (fun a b => start_time b <= start_time a) workouts
    /\ List.length (allSets workouts) = 3%nat
    /\ mapHas [("Legs_2025-01-02", workoutAt dec16 [exerciseOf "Squat" [liftSet 100 5]])]
              (workoutKey [("title", "Legs"); ("start_time", "2025-01-02");
                           ("exercise_title", "Squat")]) = true
    /\ (exists merged,
           mapGet (fst (processRow sampleClock sampleDates
                          [("title", "Legs"); ("start_time", "2025-01-02");
                           ("exercise_title", "Squat")] 3
                          ([("Legs_2025-01-02",
                             workoutAt dec16 [exerciseOf "Squat" [liftSet 100 5]])], O)))
                  "Legs_2025-01-02" = Some merged
           /\ start_time merged = dec16
           /\ setsIn merged = 2%nat).
Proof.
  destruct C2_sorted_and_deduplicated as (Hsorted & Hmerge & Hupdate & _).
  assert (Hparse : { ws | parseCSV sampleClock sampleDates twoWorkoutsCsv = inr ws
                          /\ map title ws = ["Push"; "Legs"] }).
  { eexists. split; vm_compute; reflexivity. }
  destruct Hparse as (ws & Hparse & Htitles).
  exists ws. split; [exact Hparse | split; [exact Htitles |]].
  destruct (Hsorted _ _ _ _ Hparse) as (Hs & Hcount & _).
  split; [exact Hs |].
  split; [rewrite Hcount; reflexivity |].
  assert (Hhas : mapHas [("Legs_2025-01-02",
                          workoutAt dec16 [exerciseOf "Squat" [liftSet 100 5]])]
                   (workoutKey [("title", "Legs"); ("start_time", "2025-01-02");
                                ("exercise_title", "Squat")]) = true)
    by reflexivity.
  split; [exact Hhas |].
  destruct (Hmerge sampleClock sampleDates _ 3%nat O _ Hhas) as (w & Hw & _ & _ & Hget & _).
  injection Hw as <-.
  eexists. split; [exact Hget |].
  pose proof (Hupdate [("title", "Legs"); ("start_time", "2025-01-02");
                       ("exercise_title", "Squat")]
                (buildSet sampleClock [("title", "Legs"); ("start_time", "2025-01-02");
                                       ("exercise_title", "Squat")] 3 0)
                (workoutAt dec16 [exerciseOf "Squat" [liftSet 100 5]])) as H.
  cbv zeta in H. destruct H as (_ & _ & Hst & _ & _ & Hn & _).
  split; [exact Hst | rewrite Hn; reflexivity].
Defined.

(** ** The calculator on doubles *)

Import Binary64.

(** *** Comparisons *)

Section Doubles.

Lemma isZero_not_gt (a : double) : isZero a = true -> gt a zero = false.
Proof. destruct a as [s | s | | s m e]; try destruct s; cbn; congruence. Qed.

(** A zero times a finite number or a zero is a zero. *)
Lemma mul_zero_l (s : bool) (b : double) :
  (forall sb, b <> SpecFloat.S754_infinity sb) -> b <> SpecFloat.S754_nan ->
  exists s', mul (SpecFloat.S754_zero s) b = SpecFloat.S754_zero s'.
Proof.
  intros Hinf Hnan. destruct b as [sb | sb | | sb m e]; cbn; eauto.
  - exfalso. exact (Hinf sb eq_refl).
  - exfalso. exact (Hnan eq_refl).
Qed.

Lemma mul_zero_r (a : double) (s : bool) :
  (forall sa, a <> SpecFloat.S754_infinity sa) -> a <> SpecFloat.S754_nan ->
  exists s', mul a (SpecFloat.S754_zero s) = SpecFloat.S754_zero s'.
Proof.
  intros Hinf Hnan. destruct a as [sa | sa | | sa m e]; cbn; eauto.
  - exfalso. exact (Hinf sa eq_refl).
  - exfalso. exact (Hnan eq_refl).
Qed.

(** Adding a zero changes nothing, except that -0 + 0 is 0. *)
Lemma add_zero_r (acc : double) (s : bool) :
  acc <> SpecFloat.S754_zero true -> add acc (SpecFloat.S754_zero s) = acc.
Proof.
  intros H. destruct acc as [sa | sa | | sa m e]; try reflexivity.
  destruct sa, s; try reflexivity. contradiction.
Qed.

Lemma orZero_not_nan (x : option number) : orZero x <> SpecFloat.S754_nan.
Proof.
  destruct x as [v |]; cbn [orZero]; [| discriminate].
  destruct (toDouble v); cbn; discriminate.
Qed.

End Doubles.

(** *** Running maxima *)

Section RunningMaxima.

Lemma trackSets_from64 (p : PRs) (n : nat) (ss : list WorkoutSet) :
  fold_left (fun st s => let '(p', c) := checkSet (fst st) s in (p', (snd st + c)%nat))
            ss (p, n)
  = (fst (trackSets p ss), (n + snd (trackSets p ss))%nat).
Proof.
  revert p n. induction ss as [| s ss IH]; intros p n.
  - cbn. f_equal. lia.
  - unfold trackSets. cbn [fold_left fst snd].
    destruct (checkSet p s) as [p1 c] eqn:E.
    rewrite (IH p1 (n + c)%nat), (IH p1 (0 + c)%nat). cbn [fst snd]. f_equal. lia.
Qed.

Lemma trackSets_cons64 (p : PRs) (s : WorkoutSet) (ss : list WorkoutSet) :
  trackSets p (s :: ss)
  = (fst (trackSets (fst (checkSet p s)) ss),
     (snd (checkSet p s) + snd (trackSets (fst (checkSet p s)) ss))%nat).
Proof.
  unfold trackSets at 1. cbn [fold_left fst snd].
  destruct (checkSet p s) as [p1 c]. rewrite trackSets_from64. reflexivity.
Qed.

Lemma trackSets_app64 (p : PRs) (a b : list WorkoutSet) :
  trackSets p (a ++ b)
  = (fst (trackSets (fst (trackSets p a)) b),
     (snd (trackSets p a) + snd (trackSets (fst (trackSets p a)) b))%nat).
Proof.
  revert p. induction a as [| s a IH]; intros p.
  - cbn [app]. change (trackSets p []) with (p, O). cbn [fst snd].
    destruct (trackSets p b); reflexivity.
  - cbn [app]. rewrite !trackSets_cons64, IH. cbn [fst snd]. f_equal. lia.
Qed.

Variable toLowerCase : string -> string.

Lemma trackExercise_key64 (prs : gmap string PRs) (ex : Exercise) :
  let key := toLowerCase (exercise_title ex) in
  trackExercise toLowerCase prs ex
  = (<[key := fst (trackSets (currentOf prs key) (sets ex))]> prs,
     snd (trackSets (currentOf prs key) (sets ex))).
Proof.
  intros key. unfold trackExercise, currentOf. fold key.
  destruct (prs !! key) as [p |] eqn:E.
  - rewrite ?E. unfold default. cbn [from_option Datatypes.id].
    destruct (trackSets p (sets ex)) as [p' n]. reflexivity.
  - rewrite lookup_insert_eq. unfold default. cbn [from_option Datatypes.id].
    destruct (trackSets zeroPRs (sets ex)) as [p' n]. cbn [fst snd].
    rewrite insert_insert_eq. reflexivity.
Qed.

Lemma trackExercises_from (prs : gmap string PRs) (n : nat) (exs : list Exercise) :
  fold_left (fun st ex => let '(m, c) := trackExercise toLowerCase (fst st) ex in
                          (m, (snd st + c)%nat))
            exs (prs, n)
  = (fst (trackExercises toLowerCase prs exs),
     (n + snd (trackExercises toLowerCase prs exs))%nat).
Proof.
  revert prs n. induction exs as [| ex exs IH]; intros prs n.
  - cbn. f_equal. lia.
  - unfold trackExercises. cbn [fold_left fst snd].
    destruct (trackExercise toLowerCase prs ex) as [m c].
    rewrite (IH m (n + c)%nat), (IH m (0 + c)%nat). cbn [fst snd]. f_equal. lia.
Qed.

Lemma trackExercises_cons (prs : gmap string PRs) (ex : Exercise) (exs : list Exercise) :
  trackExercises toLowerCase prs (ex :: exs)
  = (fst (trackExercises toLowerCase (fst (trackExercise toLowerCase prs ex)) exs),
     (snd (trackExercise toLowerCase prs ex)
      + snd (trackExercises toLowerCase (fst (trackExercise toLowerCase prs ex)) exs))%nat).
Proof.
  unfold trackExercises at 1. cbn [fold_left fst snd].
  destruct (trackExercise toLowerCase prs ex) as [m c].
  rewrite trackExercises_from. reflexivity.
Qed.

Lemma trackExercises_app (prs : gmap string PRs) (a b : list Exercise) :
  trackExercises toLowerCase prs (a ++ b)
  = (fst (trackExercises toLowerCase (fst (trackExercises toLowerCase prs a)) b),
     (snd (trackExercises toLowerCase prs a)
      + snd (trackExercises toLowerCase (fst (trackExercises toLowerCase prs a)) b))%nat).
Proof.
  revert prs. induction a as [| ex a IH]; intros prs.
  - cbn [app]. change (trackExercises toLowerCase prs []) with (prs, O). cbn [fst snd].
    destruct (trackExercises toLowerCase prs b); reflexivity.
  - cbn [app]. rewrite !trackExercises_cons, IH. cbn [fst snd]. f_equal. lia.
Qed.

Lemma keySets_cons (k : string) (ex : Exercise) (exs : list Exercise) :
  keySets toLowerCase k (ex :: exs)
  = if String.eqb (toLowerCase (exercise_title ex)) k
    then sets ex ++ keySets toLowerCase k exs
    else keySets toLowerCase k exs.
Proof.
  unfold keySets, keyOfExercise. cbn [List.filter].
  destruct (String.eqb (toLowerCase (exercise_title ex)) k); reflexivity.
Qed.

Lemma keySets_absent (k : string) (exs : list Exercise) :
  ~ In k (map (keyOfExercise toLowerCase) exs) -> keySets toLowerCase k exs = [].
Proof.
  induction exs as [| ex exs IH]; intros H; [reflexivity |].
  rewrite keySets_cons. cbn [map In] in H.
  destruct (String.eqb (toLowerCase (exercise_title ex)) k) eqn:E.
  - apply String.eqb_eq in E. exfalso. apply H. left. exact E.
  - apply IH. intros Hin. apply H. right. exact Hin.
Qed.

(** The maxima of a key after a list of exercises: those before it, run
    through the sets the list files under the key. *)
Lemma trackExercises_state (prs : gmap string PRs) (exs : list Exercise) (k : string) :
  currentOf (fst (trackExercises toLowerCase prs exs)) k
  = fst (trackSets (currentOf prs k) (keySets toLowerCase k exs)).
Proof.
  revert prs. induction exs as [| ex exs IH]; intros prs; [reflexivity |].
  rewrite trackExercises_cons, keySets_cons. cbn [fst]. rewrite IH, trackExercise_key64.
  cbn [fst]. unfold currentOf at 1.
  destruct (String.eqb (toLowerCase (exercise_title ex)) k) eqn:E.
  - apply String.eqb_eq in E. subst k. rewrite lookup_insert_eq.
    cbn [default from_option Datatypes.id]. rewrite trackSets_app64. reflexivity.
  - apply String.eqb_neq in E. rewrite lookup_insert_ne by exact E. reflexivity.
Qed.

Lemma natSum_bump (f : string -> nat) (k : string) (n : nat) (l : list string) :
  NoDup l ->
  natSum (fun x => (f x + if String.eqb k x then n else O)%nat) l
  = (natSum f l + if existsb (String.eqb k) l then n else O)%nat.
Proof.
  unfold natSum. induction 1 as [| x l Hx Hl IH]; cbn [fold_right existsb]; [lia |].
  rewrite IH. destruct (String.eqb k x) eqn:E; cbn [orb]; [| lia].
  apply String.eqb_eq in E. subst x.
  destruct (existsb (String.eqb k) l) eqn:El; [| lia].
  exfalso. apply Hx. apply existsb_exists in El. destruct El as (y & Hy & Hky).
  apply String.eqb_eq in Hky. subst y. apply list_elem_of_In. exact Hy.
Qed.

(** The events of a list of exercises: for every key, those of the sets
    filed under it, judged one after the other from the maxima the key stood
    at. *)
Lemma trackExercises_events (prs : gmap string PRs) (exs : list Exercise) :
  snd (trackExercises toLowerCase prs exs)
  = natSum (fun k => snd (trackSets (currentOf prs k) (keySets toLowerCase k exs)))
           (remove_dups (map (keyOfExercise toLowerCase) exs)).
Proof.
  revert prs. induction exs as [| ex exs IH]; intros prs; [reflexivity |].
  rewrite trackExercises_cons. cbn [snd fst]. rewrite IH, trackExercise_key64.
  cbn [fst snd]. set (ke := toLowerCase (exercise_title ex)).
  set (c := currentOf prs ke).
  set (n1 := snd (trackSets c (sets ex))).
  set (p1 := fst (trackSets c (sets ex))).
  set (l := map (keyOfExercise toLowerCase) exs).
  assert (Hpoint : forall k,
             snd (trackSets (currentOf prs k) (keySets toLowerCase k (ex :: exs)))
             = (snd (trackSets (currentOf (<[ke := p1]> prs) k) (keySets toLowerCase k exs))
                + if String.eqb ke k then n1 else O)%nat).
  { intros k. rewrite keySets_cons. fold ke. unfold currentOf at 2.
    destruct (String.eqb ke k) eqn:E.
    - apply String.eqb_eq in E. subst k. rewrite lookup_insert_eq.
      cbn [default from_option Datatypes.id]. rewrite trackSets_app64. cbn [snd].
      fold c n1 p1. lia.
    - apply String.eqb_neq in E. rewrite lookup_insert_ne by exact E.
      fold (currentOf prs k). lia. }
  rewrite (natSum_ext _ _ _ Hpoint).
  cbn [map]. fold l. change (keyOfExercise toLowerCase ex) with ke.
  cbn [remove_dups]. destruct (decide_rel elem_of ke l) as [Hin | Hnin].
  - rewrite natSum_bump by apply NoDup_remove_dups.
    assert (He : existsb (String.eqb ke) (remove_dups l) = true).
    { apply existsb_exists. exists ke. split; [| apply String.eqb_refl].
      apply list_elem_of_In, elem_of_remove_dups. exact Hin. }
    rewrite He. lia.
  - change (natSum ?f (ke :: ?t)) with (f ke + natSum f t)%nat. cbv beta.
    rewrite String.eqb_refl.
    rewrite natSum_bump by apply NoDup_remove_dups.
    assert (He : existsb (String.eqb ke) (remove_dups l) = false).
    { destruct (existsb (String.eqb ke) (remove_dups l)) eqn:El; [| reflexivity].
      exfalso. apply Hnin. apply existsb_exists in El. destruct El as (y & Hy & Hky).
      apply String.eqb_eq in Hky. subst y.
      apply elem_of_remove_dups, list_elem_of_In. exact Hy. }
    rewrite He.
    rewrite (keySets_absent ke exs).
    + cbn. lia.
    + intros Hin. apply Hnin, list_elem_of_In. exact Hin.
Qed.

(** The total of the counts of a run is the number of events of its
    exercises, taken as one list. *)
Lemma trackAll_total (keyOf : Z -> option string) (l : list Workout)
      (prs : gmap string PRs) (byKey result : Map nat) :
  trackAll toLowerCase keyOf l prs byKey = inr result ->
  natSum snd result
  = (natSum snd byKey + snd (trackExercises toLowerCase prs (allExercises l)))%nat.
Proof.
  revert prs byKey. induction l as [| w l IH]; intros prs byKey; cbn [trackAll].
  - intros [= <-]. cbn. lia.
  - destruct (keyOf (start_time w * 1000)) as [key |]; [| discriminate].
    unfold trackWorkout. change (allExercises (w :: l)) with (exercises w ++ allExercises l).
    rewrite trackExercises_app.
    destruct (trackExercises toLowerCase prs (exercises w)) as [m n]. cbn [fst snd].
    intros H. rewrite (IH _ _ H). destruct n as [| n]; cbn [addPRs]; [lia |].
    rewrite natSum_pairs_set. lia.
Qed.

End RunningMaxima.

Section Examples.

Variable toLowerCase : string -> string.

Lemma trackAll_single (keyOf : Z -> option string) (w : Workout) (rest : list Workout)
      (prs : gmap string PRs) (byKey : Map nat) (key : string) (ex : Exercise) :
  keyOf (start_time w * 1000) = Some key ->
  exercises w = [ex] ->
  let k := toLowerCase (exercise_title ex) in
  let run := trackSets (currentOf prs k) (sets ex) in
  trackAll toLowerCase keyOf (w :: rest) prs byKey
  = trackAll toLowerCase keyOf rest (<[k := fst run]> prs) (addPRs byKey key (snd run)).
Proof.
  intros Hkey Hex k run. cbn [trackAll]. rewrite Hkey. unfold trackWorkout. rewrite Hex.
  rewrite trackExercises_cons, trackExercise_key64. cbn [fst snd].
  change (trackExercises toLowerCase ?m []) with (m, O). cbn [fst snd].
  fold k run. rewrite Nat.add_0_r. reflexivity.
Qed.

Lemma currentOf_insert (prs : gmap string PRs) (k : string) (p : PRs) :
  currentOf (<[k := p]> prs) k = p.
Proof. unfold currentOf. rewrite lookup_insert_eq. reflexivity. Qed.

End Examples.

(** One step of [trackAll] on a workout with a single exercise, whose date
    [H] gives. *)
Ltac step_day date H :=
  lazymatch goal with
  | |- context [trackAll ?lower ?keyOf (?w :: ?rest) ?prs ?byKey] =>
      rewrite (trackAll_single lower keyOf w rest prs byKey date _ H eq_refl)
  end.

(** C1. The detector keeps, under the lower-cased title of an exercise,
    running maxima of the estimated 1RM [weight * (1 + reps / 30)], the
    weight and the repetitions, all doubles.  A set with positive weight and
    repetitions counts one event for each maximum it strictly exceeds and
    raises exactly those; a set with positive repetitions and weight zero is
    judged on the repetitions only; any other set changes nothing.  The
    maxima run on from set to set, from exercise to exercise and from workout
    to workout: after any list of exercises a key stands at its former maxima
    run through all the sets filed under it, and the events of a timeline
    are, key by key, those of the sets of the key taken in chronological
    order from zero; each workout adds its events to the count of its date.
    After 100 kg for 10, a set of 110 kg for 5 is one event, the weight: its
    estimated 1RM, between 128.3 and 128.4, is below the one reached, between
    133.3 and 133.4.  After 70 kg for 10, a set of 80 kg for 5 is two events,
    since in doubles its estimated 1RM is the larger. *)
Theorem C1_pr_detection (toLowerCase : string -> string) :
  (forall (prs : gmap string PRs) (ex : Exercise),
      let key := toLowerCase (exercise_title ex) in
      trackExercise toLowerCase prs ex
      = (<[key := fst (trackSets (currentOf prs key) (sets ex))]> prs,
         snd (trackSets (currentOf prs key) (sets ex))))
  /\ (forall (cur : PRs) (s : WorkoutSet),
         let w := orZero (weight_kg s) in
         let r := orZero (reps s) in
         gt w zero = true -> gt r zero = true ->
         checkSet cur s
         = ({| max1RM := raised (estimated1RM w r) (max1RM cur);
               maxWeight := raised w (maxWeight cur);
               maxReps := raised r (maxReps cur) |},
            (Nat.b2n (gt (estimated1RM w r) (max1RM cur))
             + Nat.b2n (gt w (maxWeight cur))
             + Nat.b2n (gt r (maxReps cur)))%nat))
  /\ (forall (cur : PRs) (s : WorkoutSet),
         let w := orZero (weight_kg s) in
         let r := orZero (reps s) in
         isZero w = true -> gt r zero = true ->
         checkSet cur s
         = ({| max1RM := max1RM cur;
               maxWeight := maxWeight cur;
               maxReps := raised r (maxReps cur) |},
            Nat.b2n (gt r (maxReps cur))))
  /\ (forall (cur : PRs) (s : WorkoutSet),
         let w := orZero (weight_kg s) in
         let r := orZero (reps s) in
         gt r zero = false \/ (gt w zero = false /\ isZero w = false) ->
         checkSet cur s = (cur, O))
  /\ (forall (cur : PRs) (s : WorkoutSet) (ss : list WorkoutSet),
         trackSets cur (s :: ss)
         = (fst (trackSets (fst (checkSet cur s)) ss),
            (snd (checkSet cur s) + snd (trackSets (fst (checkSet cur s)) ss))%nat))
  /\ (forall (prs : gmap string PRs) (w : Workout) (key : string),
         currentOf (fst (trackWorkout toLowerCase prs w)) key
         = fst (trackSets (currentOf prs key) (keySets toLowerCase key (exercises w))))
  /\ (forall (prs : gmap string PRs) (w : Workout),
         snd (trackWorkout toLowerCase prs w)
         = natSum (fun key => snd (trackSets (currentOf prs key)
                                             (keySets toLowerCase key (exercises w))))
                  (remove_dups (map (keyOfExercise toLowerCase) (exercises w))))
  /\ (forall (workouts : list Workout) (timeline : list (string * nat)),
         calculatePRsOverTime toLowerCase workouts = inr timeline ->
         let chronological := allExercises (sortBy oldestFirst workouts) in
         natSum snd timeline
         = natSum (fun key => snd (trackSets zeroPRs
                                             (keySets toLowerCase key chronological)))
                  (remove_dups (map (keyOfExercise toLowerCase) chronological)))
  /\ (forall (keyOf : Z -> option string) (w : Workout) (rest : list Workout)
             (prs : gmap string PRs) (byKey : Map nat) (key : string),
         keyOf (start_time w * 1000) = Some key ->
         trackAll toLowerCase keyOf (w :: rest) prs byKey
         = trackAll toLowerCase keyOf rest (fst (trackWorkout toLowerCase prs w))
                    (addPRs byKey key (snd (trackWorkout toLowerCase prs w))))
  /\ (let first := checkSet zeroPRs (liftSet 100 10) in
      let second := checkSet (fst first) (liftSet 110 5) in
      snd first = 3%nat
      /\ max1RM (fst first) = estimated1RM (ofZ 100) (ofZ 10)
      /\ gt (estimated1RM (ofZ 100) (ofZ 10)) (ofQ (1333 # 10)) = true
      /\ gt (ofQ (1334 # 10)) (estimated1RM (ofZ 100) (ofZ 10)) = true
      /\ gt (estimated1RM (ofZ 110) (ofZ 5)) (ofQ (1283 # 10)) = true
      /\ gt (ofQ (1284 # 10)) (estimated1RM (ofZ 110) (ofZ 5)) = true
      /\ gt (max1RM (fst first)) (estimated1RM (ofZ 110) (ofZ 5)) = true
      /\ gt (ofZ 110) (maxWeight (fst first)) = true
      /\ snd second = 1%nat
      /\ max1RM (fst second) = max1RM (fst first)
      /\ maxWeight (fst second) = ofZ 110
      /\ maxReps (fst second) = ofZ 10)
  /\ calculatePRsOverTime toLowerCase
       [workoutAt dec16 [exerciseOf "Bench Press" [liftSet 100 10; liftSet 110 5]]]
     = inr [("2025-12-16", 4%nat)]
  /\ calculatePRsOverTime toLowerCase
       [workoutAt (dec16 + 86400) [exerciseOf "Bench Press" [liftSet 110 5]];
        workoutAt dec16 [exerciseOf "Bench Press" [liftSet 100 10]]]
     = inr [("2025-12-16", 3%nat); ("2025-12-17", 1%nat)]
  /\ calculatePRsOverTime toLowerCase
       [workoutAt dec16 [exerciseOf "Bench Press" [liftSet 70 10; liftSet 80 5]]]
     = inr [("2025-12-16", 5%nat)].
Proof.
  split; [exact (trackExercise_key64 toLowerCase) |].
  split.
  { intros cur s w r Hw Hr. unfold checkSet. fold w r. rewrite Hw, Hr. cbn [andb].
    unfold raised. destruct cur as [m1 mw mr]. cbn [max1RM maxWeight maxReps].
    destruct (gt (estimated1RM w r) m1);
      cbn [set1RM setWeight setReps max1RM maxWeight maxReps];
      destruct (gt w mw);
      cbn [set1RM setWeight setReps max1RM maxWeight maxReps];
      destruct (gt r mr); reflexivity. }
  split.
  { intros cur s w r Hw Hr. unfold checkSet. fold w r.
    rewrite (isZero_not_gt w Hw), Hr, Hw. cbn [andb].
    unfold raised. destruct cur as [m1 mw mr]. cbn [max1RM maxWeight maxReps].
    destruct (gt r mr); reflexivity. }
  split.
  { intros cur s w r H. unfold checkSet. fold w r.
    destruct H as [Hr | [Hw Hz]].
    - rewrite Hr, andb_false_r. reflexivity.
    - rewrite Hw, Hz, andb_false_r. reflexivity. }
  split; [exact trackSets_cons64 |].
  split; [intros prs w key; exact (trackExercises_state toLowerCase prs (exercises w) key) |].
  split; [intros prs w; exact (trackExercises_events toLowerCase prs (exercises w)) |].
  split.
  { intros workouts timeline. unfold calculatePRsOverTime.
    destruct (trackAll toLowerCase isoDate (sortBy oldestFirst workouts) ∅ [])
      as [e | byDate] eqn:E; [discriminate |].
    intros [= <-]. cbv zeta.
    rewrite (natSum_perm snd _ _ (sortBy_perm dateOrder byDate)).
    rewrite (trackAll_total toLowerCase _ _ _ _ _ E).
    rewrite trackExercises_events. reflexivity. }
  split.
  { intros keyOf w rest prs byKey key Hkey. cbn [trackAll]. rewrite Hkey.
    destruct (trackWorkout toLowerCase prs w). reflexivity. }
  split; [vm_compute; repeat split; reflexivity |].
  assert (Hday : isoDate (dec16 * 1000) = Some "2025-12-16") by (vm_compute; reflexivity).
  assert (Hnext : isoDate ((dec16 + 86400) * 1000) = Some "2025-12-17")
    by (vm_compute; reflexivity).
  split; [| split].
  - unfold calculatePRsOverTime.
    change (sortBy oldestFirst [?w]) with [w].
    step_day "2025-12-16" Hday.
    cbn [trackAll sets exerciseOf]. vm_compute. reflexivity.
  - unfold calculatePRsOverTime.
    change (sortBy oldestFirst [?a; ?b]) with (insertBy oldestFirst a [b]).
    change (insertBy oldestFirst
              (workoutAt (dec16 + 86400) [exerciseOf "Bench Press" [liftSet 110 5]])
              [workoutAt dec16 [exerciseOf "Bench Press" [liftSet 100 10]]])
      with [workoutAt dec16 [exerciseOf "Bench Press" [liftSet 100 10]];
            workoutAt (dec16 + 86400) [exerciseOf "Bench Press" [liftSet 110 5]]].
    step_day "2025-12-16" Hday.
    step_day "2025-12-17" Hnext.
    cbn [exercise_title exerciseOf sets]. rewrite currentOf_insert.
    cbn [trackAll]. vm_compute. reflexivity.
  - unfold calculatePRsOverTime.
    change (sortBy oldestFirst [?w]) with [w].
    step_day "2025-12-16" Hday.
    cbn [trackAll sets exerciseOf]. vm_compute. reflexivity.
Qed.

Lemma C1_pr_detection_witness :
  checkSet zeroPRs (liftSet 100 10)
  = ({| max1RM := estimated1RM (ofZ 100) (ofZ 10);
        maxWeight := ofZ 100; maxReps := ofZ 10 |}, 3%nat)
  /\ checkSet {| max1RM := zero; maxWeight := zero; maxReps := ofZ 8 |} (bodyweightSet 12)
     = ({| max1RM := zero; maxWeight := zero; maxReps := ofZ 12 |}, 1%nat)
  /\ checkSet zeroPRs (liftSet 100 0) = (zeroPRs, O)
  /\ exists timeline,
      calculatePRsOverTime JS.toLowerCase
        [workoutAt (dec16 + 86400) [exerciseOf "bench press" [liftSet 110 5]];
         workoutAt dec16 [exerciseOf "Squat" [liftSet 120 5];
                          exerciseOf "Bench Press" [liftSet 100 10]]]
      = inr timeline
      /\ natSum snd timeline = 7%nat.
Proof.
  destruct (C1_pr_detection JS.toLowerCase)
    as (_ & Hlift & Hbody & Hother & _ & _ & _ & Htotal & _).
  split; [| split; [| split]].
  - rewrite (Hlift zeroPRs (liftSet 100 10)) by reflexivity. vm_compute. reflexivity.
  - rewrite (Hbody {| max1RM := zero; maxWeight := zero; maxReps := ofZ 8 |}
               (bodyweightSet 12)) by reflexivity.
    vm_compute. reflexivity.
  - apply (Hother zeroPRs (liftSet 100 0)). left. reflexivity.
  - assert (H : { tl | calculatePRsOverTime JS.toLowerCase
                         [workoutAt (dec16 + 86400)
                            [exerciseOf "bench press" [liftSet 110 5]];
                          workoutAt dec16 [exerciseOf "Squat" [liftSet 120 5];
                                           exerciseOf "Bench Press" [liftSet 100 10]]]
                       = inr tl }).
    { eexists. vm_compute. reflexivity. }
    destruct H as (tl & H). exists tl. split; [exact H |].
    pose proof (Htotal _ tl H) as Hsum. cbv zeta in Hsum. rewrite Hsum.
    vm_compute. reflexivity.
Defined.

(** *** One state for all spellings of a title *)

Section Spellings.

Variable toLowerCase : string -> string.

Variable f : string -> string.
Hypothesis same_key : forall t, toLowerCase (f t) = toLowerCase t.






End Spellings.



(** *** The total volume, as the engine adds it up *)

Section TotalVolume.

Lemma reduceSum_snoc {A} (f : A -> double) (l : list A) (x : A) :
  reduceSum f (l ++ [x]) = add (reduceSum f l) (f x).
Proof. unfold reduceSum. rewrite fold_left_app. reflexivity. Qed.

Lemma absent_orZero (x : option number) : absent x = true -> orZero x = zero.
Proof.
  destruct x as [v |]; cbn [absent orZero]; [| reflexivity]. intros ->. reflexivity.
Qed.

Lemma present_orZero (x : option number) :
  absent x = false -> exists v, x = Some v /\ orZero x = toDouble v.
Proof.
  destruct x as [v |]; cbn [absent orZero]; [| discriminate].
  intros ->. eauto.
Qed.

Lemma setVolume_absent (s : WorkoutSet) :
  absent (weight_kg s) = true \/ absent (reps s) = true ->
  (forall sg, orZero (weight_kg s) <> SpecFloat.S754_infinity sg) ->
  (forall sg, orZero (reps s) <> SpecFloat.S754_infinity sg) ->
  exists sg, setVolume s = SpecFloat.S754_zero sg.
Proof.
  intros [H | H] Hw Hr; unfold setVolume; rewrite (absent_orZero _ H).
  - apply mul_zero_l; [exact Hr | apply orZero_not_nan].
  - apply mul_zero_r; [exact Hw | apply orZero_not_nan].
Qed.

End TotalVolume.

(** C5. [calculateTotalVolume] is [Math.round], applied once and last, of
    a sum of doubles: the products [(weight_kg || 0) * (reps || 0)] of the
    sets of an exercise are added to 0 one after the other, then the sums of
    the exercises of a workout, then the sums of the workouts, each product
    and each addition giving the nearest double.  A set in which the weight
    or the repetitions are null, NaN or zero counts with 0 in their place:
    its product is a zero, unless the other value is infinite, and a zero
    leaves the sum it is added to unchanged, unless that sum is -0.  A set
    with both present contributes the product of the two doubles.  Two sets
    of 0.5 kg for one repetition give 1 and not the 2 of rounding each
    product; three sets of one repetition with 0.1, 4.6 and 6.8 kg give 12,
    though the three doubles add up to less than 11.5. *)
Theorem C5_total_volume :
  (forall workouts : list Workout,
      calculateTotalVolume workouts
      = mathRound (reduceSum (fun w => reduceSum (fun ex => reduceSum setVolume (sets ex)) (exercises w))
                       workouts))
  /\ (forall (A : Type) (f : A -> double) (l : list A) (x : A),
         reduceSum f (l ++ [x]) = add (reduceSum f l) (f x))
  /\ (forall (s : WorkoutSet) (acc : double),
         absent (weight_kg s) = true \/ absent (reps s) = true ->
         (forall sg, orZero (weight_kg s) <> SpecFloat.S754_infinity sg) ->
         (forall sg, orZero (reps s) <> SpecFloat.S754_infinity sg) ->
         acc <> SpecFloat.S754_zero true ->
         add acc (setVolume s) = acc)
  /\ (forall s : WorkoutSet,
         absent (weight_kg s) = false -> absent (reps s) = false ->
         exists w r,
           weight_kg s = Some w /\ reps s = Some r
           /\ setVolume s = mul (toDouble w) (toDouble r))
  /\ (let ws := [workoutAt dec16
                   [exerciseOf "Curl" [liftSet (1 # 2) 1; liftSet (1 # 2) 1]]] in
      calculateTotalVolume ws = ofZ 1
      /\ reduceSum (fun s => mathRound (setVolume s)) (allSets ws) = ofZ 2)
  /\ (let ss := [liftSet (1 # 10) 1; liftSet (46 # 10) 1; liftSet (68 # 10) 1] in
      calculateTotalVolume [workoutAt dec16 [exerciseOf "Cable Fly" ss]] = ofZ 12
      /\ (Qsum (fun s => exact (orZero (weight_kg s)) * exact (orZero (reps s))) ss
          < 23 # 2)%Q).
Proof.
  split; [reflexivity |].
  split; [intros A f l x; apply reduceSum_snoc |].
  split.
  { intros s acc Habs Hw Hr Hacc.
    destruct (setVolume_absent s Habs Hw Hr) as [sg ->].
    apply add_zero_r. exact Hacc. }
  split.
  { intros s Hw Hr.
    destruct (present_orZero _ Hw) as (w & Ew & Hw').
    destruct (present_orZero _ Hr) as (r & Er & Hr').
    exists w, r. unfold setVolume. rewrite Hw', Hr'. auto. }
  split; [vm_compute; split; reflexivity |].
  split; [vm_compute; reflexivity |]. vm_compute. reflexivity.
Qed.

Lemma C5_total_volume_witness :
  absent (weight_kg (bodyweightSet 12)) = true
  /\ add (ofZ 100) (setVolume (bodyweightSet 12)) = ofZ 100
  /\ setVolume (liftSet 20 5) = mul (ofZ 20) (ofZ 5)
  /\ calculateTotalVolume
       [workoutAt dec16 [exerciseOf "Pull Up" [bodyweightSet 12; liftSet 20 5]]]
     = ofZ 100.
Proof.
  destruct C5_total_volume as (Htotal & _ & Hskip & Hboth & _).
  split; [reflexivity |].
  split.
  { apply (Hskip (bodyweightSet 12) (ofZ 100)); [left; reflexivity | | |];
      vm_compute; discriminate. }
  split.
  { destruct (Hboth (liftSet 20 5) eq_refl eq_refl) as (w & r & Hw & Hr & H).
    injection Hw as <-. injection Hr as <-. rewrite H. reflexivity. }
  rewrite Htotal. vm_compute. reflexivity.
Defined.

(** The claim C5 fails on three sets of one repetition with 0.1, 4.6 and
    6.8 kg: the sum of the three doubles is below 11.5 and its nearest
    integer is 11, while the additions of the engine give 11.5 and the
    function returns 12.  Read on the decimal cells instead, it fails on 2.3
    kg for 25: the exact product 57.5 rounds to 58, and the function
    returns 57. *)
Lemma C5_counterexample :
  (let ss := [liftSet (1 # 10) 1; liftSet (46 # 10) 1; liftSet (68 # 10) 1] in
   calculateTotalVolume [workoutAt dec16 [exerciseOf "Cable Fly" ss]] = ofZ 12
   /\ round (Qsum (fun s => exact (orZero (weight_kg s)) * exact (orZero (reps s))) ss)%Q
      = 11)
  /\ (let ss := [liftSet (23 # 10) 25] in
      calculateTotalVolume [workoutAt dec16 [exerciseOf "Cable Fly" ss]] = ofZ 57
      /\ round (Qsum (fun s => JS.orZero (weight_kg s) * JS.orZero (reps s)) ss)%Q = 58).
Proof. vm_compute. repeat split; reflexivity. Qed.
